(** * The iCal engine of functions/calendar.js, embedded in Rocq

    The JavaScript functions of [functions/calendar.js] are translated one by
    one, keeping their names.  Conventions of the embedding:

    - a JS string is a [string] of 8-bit code units;
    - a JS number that can be [NaN] is an [option Z] ([None] is [NaN]);
    - a [Date] object is its time value, an [option Z] of milliseconds since
      the epoch ([None] is the Invalid Date); mutation of a [Date] is
      explicit state passing;
    - a plain JS object used as a dictionary is a [gmap string _];
    - a thrown exception and a loop that has not finished are outcomes of
      their own ([Throws], [OutOfFuel]).
*)

From Stdlib Require Import ZArith Lia Bool List Ascii String.
From stdpp Require Import base option list list_numbers gmap strings sorting.

Local Open Scope string_scope.
Local Open Scope Z_scope.

(** ** Part I: definitions *)

(** *** JavaScript strings *)

Module JSString.

Definition LF : ascii := "010"%char.
Definition CR : ascii := "013"%char.
Definition TAB : ascii := "009"%char.
Definition BACKSLASH : ascii := "092"%char.
Definition DQUOTE : ascii := "034"%char.

(** [\s] of a regular expression, and the characters [trim] strips:
    WhiteSpace and LineTerminator, within the 8-bit range. *)
Definition is_space (c : ascii) : bool :=
  let n := nat_of_ascii c in
  ((9 <=? n)%nat && (n <=? 13)%nat) || (n =? 32)%nat || (n =? 160)%nat.

(** [\d] *)
Definition is_digit (c : ascii) : bool :=
  let n := nat_of_ascii c in (48 <=? n)%nat && (n <=? 57)%nat.

Definition truthy (s : string) : bool :=
  match s with EmptyString => false | _ => true end.

Fixpoint all_chars (p : ascii -> bool) (s : string) : bool :=
  match s with
  | EmptyString => true
  | String c s' => p c && all_chars p s'
  end.

Fixpoint drop (n : nat) (s : string) : string :=
  match n, s with
  | O, _ => s
  | S n', String _ s' => drop n' s'
  | S _, EmptyString => EmptyString
  end.

Fixpoint take (n : nat) (s : string) : string :=
  match n, s with
  | S n', String c s' => String c (take n' s')
  | _, _ => EmptyString
  end.

(** [s.substr(i, n)] for [i] and [n] in range or not. *)
Definition substr (i n : nat) (s : string) : string := take n (drop i s).

Fixpoint trimStart (s : string) : string :=
  match s with
  | String c s' => if is_space c then trimStart s' else s
  | EmptyString => EmptyString
  end.

Definition rev (s : string) : string :=
  string_of_list_ascii (List.rev (list_ascii_of_string s)).

Definition trim (s : string) : string := rev (trimStart (rev (trimStart s))).

(** [s.split(c)] for a one-character separator: never the empty list. *)
Fixpoint split (sep : ascii) (s : string) : list string :=
  match s with
  | EmptyString => [EmptyString]
  | String c s' =>
      if Ascii.eqb c sep then EmptyString :: split sep s'
      else match split sep s' with
           | x :: r => String c x :: r
           | [] => [String c EmptyString]
           end
  end.

(** [s.split(c)[0]] *)
Fixpoint before (sep : ascii) (s : string) : string :=
  match s with
  | EmptyString => EmptyString
  | String c s' => if Ascii.eqb c sep then EmptyString else String c (before sep s')
  end.

(** [s.indexOf(c)], [None] for -1. *)
Fixpoint indexOf (ch : ascii) (s : string) : option nat :=
  match s with
  | EmptyString => None
  | String c s' => if Ascii.eqb c ch then Some O else S <$> indexOf ch s'
  end.

Definition startsWith (p s : string) : bool := String.prefix p s.

Fixpoint includes (p s : string) : bool :=
  String.prefix p s ||
  match s with
  | EmptyString => false
  | String _ s' => includes p s'
  end.

(** Upper-casing of the letters [a]..[z]; the other code units of the
    8-bit range never become an ASCII letter. *)
Definition upper_char (c : ascii) : ascii :=
  let n := nat_of_ascii c in
  if (97 <=? n)%nat && (n <=? 122)%nat then ascii_of_nat (n - 32) else c.

Fixpoint toUpperCase (s : string) : string :=
  match s with
  | EmptyString => EmptyString
  | String c s' => String (upper_char c) (toUpperCase s')
  end.

(** [s.replace(/ab/g, r)] for a pattern of two literal characters:
    leftmost matches, not overlapping. *)
Fixpoint replace2 (a b r : ascii) (s : string) : string :=
  match s with
  | EmptyString => EmptyString
  | String c s' =>
      match s' with
      | String d s'' =>
          if Ascii.eqb c a && Ascii.eqb d b then String r (replace2 a b r s'')
          else String c (replace2 a b r s')
      | EmptyString => s
      end
  end.

(** [s.replace(/c/g, r)] for a one-character pattern. *)
Fixpoint replace1 (a : ascii) (r : string) (s : string) : string :=
  match s with
  | EmptyString => EmptyString
  | String c s' =>
      if Ascii.eqb c a then r ++ replace1 a r s' else String c (replace1 a r s')
  end.

(** [s.replace(/\s+/g, ' ')] *)
Fixpoint collapse_spaces (s : string) : string :=
  match s with
  | EmptyString => EmptyString
  | String c s' =>
      if is_space c then
        match s' with
        | String d _ =>
            if is_space d then collapse_spaces s'
            else String " " (collapse_spaces s')
        | EmptyString => " "
        end
      else String c (collapse_spaces s')
  end.

(** [s.replace(/,\s*,/g, ',')]: a match consumes both commas, so the scan
    resumes after the second one. *)
Fixpoint collapse_commas_fuel (fuel : nat) (s : string) : string :=
  match fuel with
  | O => s
  | S fuel' =>
      match s with
      | EmptyString => EmptyString
      | String c s' =>
          if Ascii.eqb c ","
          then match trimStart s' with
               | String d rest =>
                   if Ascii.eqb d "," then String "," (collapse_commas_fuel fuel' rest)
                   else String c (collapse_commas_fuel fuel' s')
               | EmptyString => String c (collapse_commas_fuel fuel' s')
               end
          else String c (collapse_commas_fuel fuel' s')
      end
  end.

Definition collapse_commas (s : string) : string :=
  collapse_commas_fuel (String.length s) s.

(** Does the two-character sequence [a b] occur in [s]? *)
Fixpoint has_pair (a b : ascii) (s : string) : bool :=
  match s with
  | EmptyString => false
  | String c s' =>
      match s' with
      | String d _ => (Ascii.eqb c a && Ascii.eqb d b) || has_pair a b s'
      | EmptyString => false
      end
  end.

End JSString.

Import JSString.

(** *** Outcomes of fallible code *)

(** A JavaScript computation returns a value, throws (every exception of
    the engine is a [RangeError] of [toISOString] or of [toLocaleString]),
    or, in the model, runs out of the fuel that bounds its loop. *)
Inductive outcome (A : Type) : Type :=
| Ret (a : A)
| Throws
| OutOfFuel.
Arguments Ret {A} a.
Arguments Throws {A}.
Arguments OutOfFuel {A}.

#[global] Instance outcome_ret : MRet outcome := fun A a => Ret a.
#[global] Instance outcome_bind : MBind outcome := fun A B f m =>
  match m with
  | Ret a => f a
  | Throws => Throws
  | OutOfFuel => OutOfFuel
  end.
#[global] Instance outcome_fmap : FMap outcome := fun A B f m =>
  match m with
  | Ret a => Ret (f a)
  | Throws => Throws
  | OutOfFuel => OutOfFuel
  end.

(** [try { m } catch { }] followed by the code after the block. *)
Definition try_catch {A} (m : outcome A) (handler : outcome A) : outcome A :=
  match m with
  | Throws => handler
  | _ => m
  end.

(** *** Anchored regular expressions of fixed shape *)

Module Regex.

Inductive item : Type :=
| D                       (* \d *)
| C (c : ascii)           (* a literal character *)
| OneOf (cs : list ascii) (* a character class [...] *).

Definition item_ok (i : item) (c : ascii) : bool :=
  match i with
  | D => is_digit c
  | C c' => Ascii.eqb c c'
  | OneOf cs => existsb (Ascii.eqb c) cs
  end.

(** [^ i1 i2 ... in $]: the whole string, item by item. *)
Fixpoint matches (p : list item) (s : string) : bool :=
  match p, s with
  | [], EmptyString => true
  | i :: p', String c s' => item_ok i c && matches p' s'
  | _, _ => false
  end.

Definition d8 : list item := [D; D; D; D; D; D; D; D].
Definition d6 : list item := [D; D; D; D; D; D].

(** [/^\d{8}T\d{6}Z$/] *)
Definition compact_utc : list item := d8 ++ [C "T"] ++ d6 ++ [C "Z"].
(** [/^\d{8}T\d{6}$/] *)
Definition compact_local : list item := d8 ++ [C "T"] ++ d6.
(** [/^\d{8}$/] *)
Definition compact_date : list item := d8.
(** [/^GMT[+-]\d{4}$/] *)
Definition gmt_offset : list item :=
  [C "G"; C "M"; C "T"; OneOf ["+"; "-"]%char; D; D; D; D].
(** [/^\d{4}-\d{2}-\d{2}$/] *)
Definition iso_date : list item :=
  [D; D; D; D; C "-"; D; D; C "-"; D; D].
(** [/^\d{4}-\d{2}-\d{2}T\d{2}:\d{2}:\d{2}Z$/], the UTC instant form. *)
Definition iso_instant : list item :=
  iso_date ++ [C "T"; D; D; C ":"; D; D; C ":"; D; D; C "Z"].
(** The same without the final [Z]. *)
Definition iso_local : list item :=
  iso_date ++ [C "T"; D; D; C ":"; D; D; C ":"; D; D].
(** [/\.\d{3}Z$/] taken at the end of the string *)
Definition ms_suffix : list item := [C "."; D; D; D; C "Z"].

End Regex.

(** *** The Date object of the host *)

(** What the engine takes from its host: the local time zone adjustment
    [LocalTZA(t, isUTC)] of ECMAScript, the implementation-defined fallback
    of [Date.parse] for strings outside the ISO format,
    [toLocaleString('en-US', { timeZone })], which throws a [RangeError]
    ([None]) on a zone name the host does not know, and the order in which
    [Array.prototype.sort] leaves an array whose comparator is not
    consistent, which ECMAScript leaves to the implementation.  The host
    sees the results of the comparator on the elements, in array order, and
    answers with a code: for each place of the result, the position, among
    the elements not yet placed, of the element that takes it. *)
Record Host : Type := {
  LocalTZA : Z -> bool -> Z;
  legacyParse : string -> option Z;
  hostLocaleString : Z -> string -> option string;
  sortOrder : list (list (option Z)) -> list nat
}.

Module JSDate.

(** A Date object is its time value; [None] is the Invalid Date. *)
Abbreviation Date := (option Z).

Definition msPerDay : Z := 86400000.
Definition msPerHour : Z := 3600000.
Definition msPerMinute : Z := 60000.
Definition msPerSecond : Z := 1000.
Definition maxTime : Z := 8640000000000000.

Definition Day (t : Z) : Z := t / msPerDay.
Definition TimeWithinDay (t : Z) : Z := t mod msPerDay.

Definition isLeapYear (y : Z) : bool :=
  (y mod 4 =? 0) && (negb (y mod 100 =? 0) || (y mod 400 =? 0)).
Definition DaysInYear (y : Z) : Z := if isLeapYear y then 366 else 365.
Definition DayFromYear (y : Z) : Z :=
  365 * (y - 1970) + (y - 1969) / 4 - (y - 1901) / 100 + (y - 1601) / 400.
Definition TimeFromYear (y : Z) : Z := msPerDay * DayFromYear y.

(** The largest [y] with [TimeFromYear y <= t]: an estimate from the mean
    length of a year, corrected by at most one. *)
Definition YearFromTime (t : Z) : Z :=
  let d := Day t in
  let y := 1970 + (400 * d) / 146097 in
  if d <? DayFromYear y then y - 1
  else if DayFromYear (y + 1) <=? d then y + 1
  else y.

Definition InLeapYear (t : Z) : bool := isLeapYear (YearFromTime t).
Definition DayWithinYear (t : Z) : Z := Day t - DayFromYear (YearFromTime t).

(** Day within the year on which month [m] (0 = January) begins. *)
Definition monthStart (leap : bool) (m : Z) : Z :=
  let l := if leap then 1 else 0 in
  match m with
  | 0 => 0 | 1 => 31 | 2 => 59 + l | 3 => 90 + l | 4 => 120 + l
  | 5 => 151 + l | 6 => 181 + l | 7 => 212 + l | 8 => 243 + l
  | 9 => 273 + l | 10 => 304 + l | _ => 334 + l
  end.

Fixpoint month_search (leap : bool) (d : Z) (m : nat) : Z :=
  match m with
  | O => 0
  | S m' => if monthStart leap (Z.of_nat m) <=? d then Z.of_nat m
            else month_search leap d m'
  end.

Definition MonthFromTime (t : Z) : Z :=
  month_search (InLeapYear t) (DayWithinYear t) 11.
Definition DateFromTime (t : Z) : Z :=
  DayWithinYear t - monthStart (InLeapYear t) (MonthFromTime t) + 1.
Definition WeekDay (t : Z) : Z := (Day t + 4) mod 7.
Definition HourFromTime (t : Z) : Z := (t / msPerHour) mod 24.
Definition MinFromTime (t : Z) : Z := (t / msPerMinute) mod 60.
Definition SecFromTime (t : Z) : Z := (t / msPerSecond) mod 60.
Definition msFromTime (t : Z) : Z := t mod msPerSecond.

Definition MakeTime (h m s ms : Z) : Z :=
  h * msPerHour + m * msPerMinute + s * msPerSecond + ms.
(** [MakeDay] on integers; its range check is subsumed by the [TimeClip]
    that follows every use. *)
Definition MakeDay (year month date : Z) : Z :=
  let ym := year + month / 12 in
  let mn := month mod 12 in
  DayFromYear ym + monthStart (isLeapYear ym) mn + date - 1.
Definition MakeDate (day time : Z) : Z := day * msPerDay + time.
Definition TimeClip (t : Z) : Date :=
  if Z.abs t <=? maxTime then Some t else None.

Section WithHost.
Variable h : Host.

Definition LocalTime (t : Z) : Z := t + LocalTZA h t true.
Definition UTC (t : Z) : Z := t - LocalTZA h t false.

Definition getTime (d : Date) : option Z := d.
Definition getFullYear (d : Date) : option Z :=
  t ← d; Some (YearFromTime (LocalTime t)).
Definition getMonth (d : Date) : option Z :=
  t ← d; Some (MonthFromTime (LocalTime t)).
Definition getDate (d : Date) : option Z :=
  t ← d; Some (DateFromTime (LocalTime t)).
Definition getDay (d : Date) : option Z :=
  t ← d; Some (WeekDay (LocalTime t)).
Definition getHours (d : Date) : option Z :=
  t ← d; Some (HourFromTime (LocalTime t)).
Definition getMinutes (d : Date) : option Z :=
  t ← d; Some (MinFromTime (LocalTime t)).

Definition setDate (d : Date) (date : option Z) : Date :=
  t ← d; dt ← date;
  let lt := LocalTime t in
  TimeClip (UTC (MakeDate (MakeDay (YearFromTime lt) (MonthFromTime lt) dt)
                          (TimeWithinDay lt))).
Definition setMonth (d : Date) (month : option Z) : Date :=
  t ← d; m ← month;
  let lt := LocalTime t in
  TimeClip (UTC (MakeDate (MakeDay (YearFromTime lt) m (DateFromTime lt))
                          (TimeWithinDay lt))).
Definition setFullYear (d : Date) (year : option Z) : Date :=
  y ← year;
  let lt := match d with Some t => LocalTime t | None => 0 end in
  TimeClip (UTC (MakeDate (MakeDay y (MonthFromTime lt) (DateFromTime lt))
                          (TimeWithinDay lt))).
Definition setHours (d : Date) (hh mm ss ms : Z) : Date :=
  t ← d;
  let lt := LocalTime t in
  TimeClip (UTC (MakeDate (Day lt) (MakeTime hh mm ss ms))).
Definition setTime (v : option Z) : Date := t ← v; TimeClip t.
End WithHost.

(** **** [Date.parse] and [toISOString] *)

Definition digit_val (c : ascii) : Z := Z.of_nat (nat_of_ascii c) - 48.
Definition digit_char (v : Z) : ascii := ascii_of_nat (48 + Z.to_nat v).

(** Exactly [n] decimal digits at the head of [s]. *)
Fixpoint read_digits (n : nat) (acc : Z) (s : string) : option (Z * string) :=
  match n with
  | O => Some (acc, s)
  | S n' =>
      match s with
      | String c s' =>
          if is_digit c then read_digits n' (10 * acc + digit_val c) s' else None
      | EmptyString => None
      end
  end.

Definition read_char (c : ascii) (s : string) : option string :=
  match s with
  | String d s' => if Ascii.eqb c d then Some s' else None
  | EmptyString => None
  end.

(** [YYYY], or an expanded year [+YYYYYY] / [-YYYYYY] other than [-000000]. *)
Definition read_year (s : string) : option (Z * string) :=
  match s with
  | String "+" s' => read_digits 6 0 s'
  | String "-" s' =>
      '(y, r) ← read_digits 6 0 s';
      if y =? 0 then None else Some (- y, r)
  | _ => read_digits 4 0 s
  end.

(** [YYYY], [YYYY-MM] or [YYYY-MM-DD]. *)
Definition read_date (s : string) : option (Z * Z * Z * string) :=
  '(y, r) ← read_year s;
  match read_char "-" r with
  | None => Some (y, 1, 1, r)
  | Some r1 =>
      '(mo, r2) ← read_digits 2 0 r1;
      match read_char "-" r2 with
      | None => Some (y, mo, 1, r2)
      | Some r3 => '(d, r4) ← read_digits 2 0 r3; Some (y, mo, d, r4)
      end
  end.

(** [HH:mm], [HH:mm:ss] or [HH:mm:ss.sss]. *)
Definition read_time (s : string) : option (Z * Z * Z * Z * string) :=
  '(hh, r) ← read_digits 2 0 s;
  r1 ← read_char ":" r;
  '(mi, r2) ← read_digits 2 0 r1;
  match read_char ":" r2 with
  | None => Some (hh, mi, 0, 0, r2)
  | Some r3 =>
      '(ss, r4) ← read_digits 2 0 r3;
      match read_char "." r4 with
      | None => Some (hh, mi, ss, 0, r4)
      | Some r5 => '(ms, r6) ← read_digits 3 0 r5; Some (hh, mi, ss, ms, r6)
      end
  end.

Inductive zone_designator : Type :=
| NoZone
| Offset (legal : bool) (ms : Z).

(** Nothing, [Z], [+HH:mm] or [-HH:mm], up to the end of the string. *)
Definition read_zone (s : string) : option zone_designator :=
  match s with
  | EmptyString => Some NoZone
  | String c r =>
      if Ascii.eqb c "Z" then
        match r with EmptyString => Some (Offset true 0) | _ => None end
      else if Ascii.eqb c "+" || Ascii.eqb c "-" then
        '(hh, r1) ← read_digits 2 0 r;
        r2 ← read_char ":" r1;
        '(mi, r3) ← read_digits 2 0 r2;
        match r3 with
        | EmptyString =>
            let sign := if Ascii.eqb c "+" then 1 else -1 in
            Some (Offset ((hh <=? 23) && (mi <=? 59))
                         (sign * (hh * msPerHour + mi * msPerMinute)))
        | _ => None
        end
      else None
  end.

Definition legal_date (mo d : Z) : bool :=
  (1 <=? mo) && (mo <=? 12) && (1 <=? d) && (d <=? 31).
Definition legal_time (hh mi ss ms : Z) : bool :=
  ((hh <=? 23) && (mi <=? 59) && (ss <=? 59))
  || ((hh =? 24) && (mi =? 0) && (ss =? 0) && (ms =? 0)).

(** The Date Time String Format of ECMAScript.  [None]: the string is not
    an instance of the format, by its shape or by an illegal element value
    (a month 13, a day 00, an hour 25); [Some None]: it is one, and out of
    the range of time values ([NaN]).  A date-only form is UTC; a date-time
    form without zone designator is local time. *)
Definition parseISO (h : Host) (s : string) : option Date :=
  '(y, mo, d, r) ← read_date s;
  if negb (legal_date mo d) then None
  else
    match r with
    | EmptyString => Some (TimeClip (MakeDate (MakeDay y (mo - 1) d) 0))
    | String c r1 =>
        if Ascii.eqb c "T" then
          '(hh, mi, ss, ms, r2) ← read_time r1;
          z ← read_zone r2;
          let lt := MakeDate (MakeDay y (mo - 1) d) (MakeTime hh mi ss ms) in
          if legal_time hh mi ss ms then
            match z with
            | NoZone => Some (TimeClip (UTC h lt))
            | Offset true off => Some (TimeClip (lt - off))
            | Offset false _ => None
            end
          else None
        else None
    end.

(** [Date.parse(s)] and [new Date(s)]: the ISO format first; a string that
    is not an instance of it goes to the fallback of the host, which reads
    it as it likes (V8 reads [0001-13-01] as 13 January 2001) or not at
    all. *)
Definition parse (h : Host) (s : string) : Date :=
  match parseISO h s with
  | Some d => d
  | None => t ← legacyParse h s; TimeClip t
  end.

(** [n] decimal digits of [v], most significant first. *)
Fixpoint pad (n : nat) (v : Z) : string :=
  match n with
  | O => EmptyString
  | S n' => (pad n' (v / 10) ++ String (digit_char (v mod 10)) EmptyString)%string
  end.

Definition year_string (y : Z) : string :=
  if (0 <=? y) && (y <=? 9999) then pad 4 y
  else if 0 <=? y then String "+" (pad 6 y)
  else String "-" (pad 6 (- y)).

(** The part of [toISOString()] before the [T]. *)
Definition isoDateString (t : Z) : string :=
  (year_string (YearFromTime t) ++ "-" ++ pad 2 (MonthFromTime t + 1)
   ++ "-" ++ pad 2 (DateFromTime t))%string.

(** The part between the [T] and the milliseconds. *)
Definition isoClockString (t : Z) : string :=
  (pad 2 (HourFromTime t) ++ ":" ++ pad 2 (MinFromTime t)
   ++ ":" ++ pad 2 (SecFromTime t))%string.

(** [d.toISOString()]: a [RangeError] on the Invalid Date. *)
Definition toISOString (d : Date) : outcome string :=
  match d with
  | None => Throws
  | Some t =>
      Ret (isoDateString t ++ "T" ++ isoClockString t
           ++ "." ++ pad 3 (msFromTime t) ++ "Z")%string
  end.

(** [d.toLocaleString('en-US', { timeZone: tz })]: the text [Invalid Date]
    on the Invalid Date, before the zone is even looked at. *)
Definition toLocaleString (h : Host) (d : Date) (tz : string) : outcome string :=
  match d with
  | None => Ret "Invalid Date"
  | Some t =>
      match hostLocaleString h t tz with
      | Some s => Ret s
      | None => Throws
      end
  end.

(** [new Date(number)] *)
Definition ofNumber (v : option Z) : Date := t ← v; TimeClip t.

(** [a + b] and [a - b] on numbers that may be [NaN]. *)
Definition nadd (a b : option Z) : option Z := x ← a; y ← b; Some (x + y).
Definition nsub (a b : option Z) : option Z := x ← a; y ← b; Some (x - y).

End JSDate.

(** *** Text Sanitizer: unescapeICS, cleanString, cleanAddress *)

Definition unescapeICS (str : string) : string :=
  if negb (truthy str) then EmptyString
  else
    let s1 := replace2 BACKSLASH "n" LF str in
    let s2 := replace2 BACKSLASH "N" LF s1 in
    let s3 := replace2 BACKSLASH "r" CR s2 in
    let s4 := replace2 BACKSLASH "t" TAB s3 in
    let s5 := replace2 BACKSLASH "," "," s4 in
    let s6 := replace2 BACKSLASH ";" ";" s5 in
    let s7 := replace2 BACKSLASH DQUOTE DQUOTE s6 in
    replace2 BACKSLASH BACKSLASH BACKSLASH s7.

(** [cleanString(str)]; an absent ([undefined]) argument is [None]. *)
Definition cleanString (str : option string) : string :=
  match str with
  | None => EmptyString
  | Some s =>
      if negb (truthy s) then EmptyString
      else trim (collapse_spaces
                   (replace1 CR " " (replace1 LF " " (unescapeICS s))))
  end.

Definition cleanAddress (str : option string) : string :=
  match str with
  | None => EmptyString
  | Some s =>
      if negb (truthy s) then EmptyString
      else trim (collapse_spaces (collapse_commas
                   (replace1 CR ", " (replace1 LF ", " (unescapeICS s)))))
  end.

(** *** Numbers read from text *)

Definition hex_val (c : ascii) : option Z :=
  let n := nat_of_ascii c in
  if is_digit c then Some (Z.of_nat n - 48)
  else if (97 <=? n)%nat && (n <=? 102)%nat then Some (Z.of_nat n - 87)
  else if (65 <=? n)%nat && (n <=? 70)%nat then Some (Z.of_nat n - 55)
  else None.

Definition dec_val (c : ascii) : option Z :=
  if is_digit c then Some (Z.of_nat (nat_of_ascii c) - 48) else None.

(** The longest prefix of digits, [None] when there is none. *)
Fixpoint read_number (radix : Z) (digit : ascii -> option Z)
    (acc : option Z) (s : string) : option Z :=
  match s with
  | String c s' =>
      match digit c with
      | Some v => read_number radix digit (Some (radix * default 0 acc + v)) s'
      | None => acc
      end
  | EmptyString => acc
  end.

(** [parseInt(s)]: leading white space, a sign, a [0x] prefix, then digits;
    [NaN] without a digit.  The result is the integer the digits write,
    which is what JavaScript returns up to 2^53; above, JavaScript returns
    the nearest double.  The engine compares these numbers with 100 and
    with a count of occurrences and adds them to date fields, where a
    number of that size gives [NaN] rounded or not; the counter of
    [advanceToNextWeeklyDay] is the one place where the rounding shows. *)
Definition parseInt (s : string) : option Z :=
  let s1 := trimStart s in
  let '(sign, s2) :=
    match s1 with
    | String c r =>
        if Ascii.eqb c "-" then (-1, r)
        else if Ascii.eqb c "+" then (1, r) else (1, s1)
    | EmptyString => (1, s1)
    end in
  match s2 with
  | String "0" (String x r) =>
      if Ascii.eqb x "x" || Ascii.eqb x "X"
      then v ← read_number 16 hex_val None r; Some (sign * v)
      else v ← read_number 10 dec_val None s2; Some (sign * v)
  | _ => v ← read_number 10 dec_val None s2; Some (sign * v)
  end.

(** *** Date/Timezone Normalizer: formatDateToISO *)

Import JSDate.

(** [s.replace(/\.\d{3}Z$/, 'Z')] *)
Fixpoint strip_ms (s : string) : string :=
  if Regex.matches Regex.ms_suffix s then "Z"
  else match s with
       | String c s' => String c (strip_ms s')
       | EmptyString => EmptyString
       end.

Definition opt_truthy (s : option string) : bool :=
  match s with
  | Some x => truthy x
  | None => false
  end.

(** The body of the [try] block of [formatDateToISO]. *)
Definition convertZone (h : Host) (isoString timezone : string) : outcome string :=
  if Regex.matches Regex.gmt_offset timezone then
    let sign := if Ascii.eqb (default "000"%char (String.get 3 timezone)) "+"
                then 1 else -1 in
    let hours := parseInt (substr 4 2 timezone) in
    let minutes := parseInt (substr 6 2 timezone) in
    let offsetMinutes :=
      hh ← hours; mm ← minutes; Some (sign * (hh * 60 + mm)) in
    let date := parse h isoString in
    let utcDate :=
      ofNumber (nsub (getTime date) (om ← offsetMinutes; Some (om * 60 * 1000))) in
    strip_ms <$> toISOString utcDate
  else
    let date := parse h isoString in
    u ← toLocaleString h date "UTC";
    let utcDate := parse h u in
    l ← toLocaleString h date timezone;
    let localDate := parse h l in
    let offsetMs := nsub (getTime utcDate) (getTime localDate) in
    let correctedDate := ofNumber (nadd (getTime date) offsetMs) in
    strip_ms <$> toISOString correctedDate.

(** [formatDateToISO(dateString, timezone)]; an [undefined] argument is
    [None]. *)
Definition formatDateToISO (h : Host)
    (dateString timezone : option string) : outcome string :=
  match dateString with
  | None => Ret EmptyString
  | Some ds =>
      if negb (truthy ds) then Ret EmptyString
      else if Regex.matches Regex.compact_utc ds then
        Ret (substr 0 4 ds ++ "-" ++ substr 4 2 ds ++ "-" ++ substr 6 2 ds
             ++ "T" ++ substr 9 2 ds ++ ":" ++ substr 11 2 ds
             ++ ":" ++ substr 13 2 ds ++ "Z")%string
      else if Regex.matches Regex.compact_local ds then
        let isoString :=
          (substr 0 4 ds ++ "-" ++ substr 4 2 ds ++ "-" ++ substr 6 2 ds
           ++ "T" ++ substr 9 2 ds ++ ":" ++ substr 11 2 ds
           ++ ":" ++ substr 13 2 ds)%string in
        match timezone with
        | Some tz =>
            if truthy tz
            then try_catch (convertZone h isoString tz) (Ret isoString)
            else Ret isoString
        | None => Ret isoString
        end
      else if Regex.matches Regex.compact_date ds then
        let dateOnly :=
          (substr 0 4 ds ++ "-" ++ substr 4 2 ds ++ "-" ++ substr 6 2 ds)%string in
        if bool_decide (timezone = Some "FULL_DAY_END") then
          let date := parse h dateOnly in
          let date' := setDate h date (nadd (getDate h date) (Some (-1))) in
          before "T" <$> toISOString date'
        else Ret dateOnly
      else Ret ds
  end.

(** *** Events *)

(** The property object of one VEVENT.  It holds an array under the keys
    [EXDATE], [RDATE] and [EXRULE] only ([lists]) and a string under every
    other key ([props]); the two sets of keys are disjoint. *)
Record RawEvent : Type := {
  props : gmap string string;
  lists : gmap string (list string)
}.

(** [{ event, timezones }] (the [lines] kept beside them are never read). *)
Record EventData : Type := {
  event : RawEvent;
  timezones : gmap string string
}.

(** An output record; an omitted field is [None]. *)
Record Occurrence : Type := {
  start : option string;
  end_ : option string;
  title : option string;
  description : option string;
  address : option string
}.

#[global] Instance Occurrence_eq_dec : EqDecision Occurrence.
Proof. solve_decision. Defined.

(** [if (x) obj.field = x] *)
Definition attach (x : string) : option string :=
  if truthy x then Some x else None.
Definition attach_opt (x : option string) : option string :=
  x' ← x; attach x'.

(** [obj.KEY] used as a condition. *)
Definition has_prop (e : RawEvent) (k : string) : bool :=
  opt_truthy (props e !! k).

Definition multiValued (baseKey : string) : bool :=
  bool_decide (baseKey ∈ ["EXDATE"; "RDATE"; "EXRULE"]).

(** *** Line Unfolder: unfoldICSLines *)

(** One turn of the [forEach]: the state is [(unfoldedLines, currentLine)]. *)
Definition unfold_step (st : list string * string) (line : string)
    : list string * string :=
  let '(unfoldedLines, currentLine) := st in
  if startsWith " " line || startsWith (String TAB EmptyString) line then
    (unfoldedLines, (currentLine ++ drop 1 line)%string)
  else
    (if truthy currentLine then (unfoldedLines ++ [currentLine])%list else unfoldedLines,
     trim line).

Definition unfoldICSLines (icsData : string) : list string :=
  let '(unfoldedLines, currentLine) :=
    fold_left unfold_step (split LF icsData) ([], EmptyString) in
  if truthy currentLine then (unfoldedLines ++ [currentLine])%list else unfoldedLines.

(** *** Property Grouper: parseEventProperty, parseEventsFromLines *)

Fixpoint take_while (p : ascii -> bool) (s : string) : string :=
  match s with
  | String c s' => if p c then String c (take_while p s') else EmptyString
  | EmptyString => EmptyString
  end.

(** [key.match(/TZID=([^:;]+)/)]: the capture of the leftmost match. *)
Fixpoint tzidMatch (key : string) : option string :=
  let here :=
    if String.prefix "TZID=" key then
      attach (take_while (fun c => negb (Ascii.eqb c ":" || Ascii.eqb c ";"))
                         (drop 5 key))
    else None in
  match here with
  | Some tz => Some tz
  | None =>
      match key with
      | String _ key' => tzidMatch key'
      | EmptyString => None
      end
  end.

(** [obj[key] = value], the value a string, on an object made by [{}]: the
    key [__proto__] names the accessor of [Object.prototype], whose setter
    ignores a string; every other key becomes a property of the object. *)
Definition assign (key value : string) (obj : gmap string string)
    : gmap string string :=
  if bool_decide (key = "__proto__") then obj else <[key := value]> obj.

Definition parseEventProperty (line : string)
    (currentEvent : RawEvent) (currentTimezones : gmap string string)
    : RawEvent * gmap string string :=
  match indexOf ":" line with
  | None | Some O => (currentEvent, currentTimezones)
  | Some colonIndex =>
      let key := trim (take colonIndex line) in
      let value := trim (drop (S colonIndex) line) in
      let baseKey := before ";" key in
      let currentEvent' :=
        if multiValued baseKey then
          {| props := props currentEvent;
             lists := <[baseKey := (default [] (lists currentEvent !! baseKey) ++ [value])%list]>
                        (lists currentEvent) |}
        else
          {| props :=
               (if bool_decide (key = baseKey) then (fun m => m) else assign key value)
                 (assign baseKey value (props currentEvent));
             lists := lists currentEvent |} in
      let currentTimezones' :=
        if includes "TZID=" key then
          match tzidMatch key with
          | Some tz => assign baseKey tz currentTimezones
          | None => currentTimezones
          end
        else currentTimezones in
      (currentEvent', currentTimezones')
  end.

Definition emptyEvent : RawEvent := {| props := ∅; lists := ∅ |}.

(** The variables of [parseEventsFromLines]: [currentEvent] is [null]
    outside a VEVENT. *)
Record GrouperState : Type := {
  mainEvents : list EventData;
  recurrenceExceptions : gmap string (list EventData);
  currentEvent : option RawEvent;
  currentTimezones : gmap string string
}.

Definition grouper_step (st : GrouperState) (line : string) : GrouperState :=
  if startsWith "BEGIN:VEVENT" line then
    {| mainEvents := mainEvents st;
       recurrenceExceptions := recurrenceExceptions st;
       currentEvent := Some emptyEvent;
       currentTimezones := ∅ |}
  else if startsWith "END:VEVENT" line then
    match currentEvent st with
    | Some ev =>
        let eventData := {| event := ev; timezones := currentTimezones st |} in
        if has_prop ev "RECURRENCE-ID" then
          let uid := default EmptyString (props ev !! "UID") in
          {| mainEvents := mainEvents st;
             recurrenceExceptions :=
               if truthy uid then
                 <[uid := (default [] (recurrenceExceptions st !! uid) ++ [eventData])%list]>
                   (recurrenceExceptions st)
               else recurrenceExceptions st;
             currentEvent := None;
             currentTimezones := ∅ |}
        else
          {| mainEvents := (mainEvents st ++ [eventData])%list;
             recurrenceExceptions := recurrenceExceptions st;
             currentEvent := None;
             currentTimezones := ∅ |}
    | None => st
    end
  else
    match currentEvent st with
    | Some ev =>
        let '(ev', tz') := parseEventProperty line ev (currentTimezones st) in
        {| mainEvents := mainEvents st;
           recurrenceExceptions := recurrenceExceptions st;
           currentEvent := Some ev';
           currentTimezones := tz' |}
    | None => st
    end.

Definition parseEventsFromLines (unfoldedLines : list string)
    : list EventData * gmap string (list EventData) :=
  let st :=
    fold_left grouper_step unfoldedLines
      {| mainEvents := []; recurrenceExceptions := ∅;
         currentEvent := None; currentTimezones := ∅ |} in
  (mainEvents st, recurrenceExceptions st).

(** *** Deletion Classifier: isEventDeleted *)

Definition gt_number (a : option Z) (b : Z) : bool :=
  match a with
  | Some x => b <? x
  | None => false
  end.

Definition isEventDeleted (e : RawEvent) : bool :=
  let field k := default EmptyString (props e !! k) in
  if has_prop e "STATUS"
     && bool_decide (toUpperCase (field "STATUS") = "CANCELLED") then true
  else if has_prop e "METHOD"
     && bool_decide (toUpperCase (field "METHOD") = "CANCEL") then true
  else if has_prop e "SEQUENCE" && gt_number (parseInt (field "SEQUENCE")) 100
  then true
  else if has_prop e "X-APPLE-DELETED-DATE" || has_prop e "X-APPLE-DELETED"
  then true
  else if has_prop e "X-GOOGLE-DELETED"
     || bool_decide (props e !! "STATUS" = Some "DELETED") then true
  else if negb (has_prop e "DTSTART") && negb (has_prop e "SUMMARY") then true
  else false.

(** *** Single events: createEventFromData *)

(** The end of an event as [createEventFromData] and
    [generateRecurringEvents] compute it: [null] is [None]. *)
Definition eventEnd (h : Host) (e : RawEvent) (tz : gmap string string)
    : outcome (option string) :=
  match props e !! "DTEND" with
  | Some dtend =>
      if truthy dtend then
        if Regex.matches Regex.compact_date dtend
        then Some <$> formatDateToISO h (Some dtend) (Some "FULL_DAY_END")
        else Some <$> formatDateToISO h (Some dtend) (tz !! "DTEND")
      else Ret None
  | None => Ret None
  end.

Definition createEventFromData (h : Host) (e : RawEvent) (tz : gmap string string)
    : outcome (option Occurrence) :=
  start' ← formatDateToISO h (props e !! "DTSTART") (tz !! "DTSTART");
  end' ← eventEnd h e tz;
  let title' := cleanString (props e !! "SUMMARY") in
  let description' := cleanString (props e !! "DESCRIPTION") in
  let address' := cleanAddress (props e !! "LOCATION") in
  let transformedEvent :=
    {| start := attach start';
       end_ := attach_opt end';
       title := attach title';
       description := attach description';
       address := attach address' |} in
  Ret (if opt_truthy (start transformedEvent)
       then Some transformedEvent else None).

(** *** Recurrence Expander *)

(** The object [parseRRule] returns.  [count] is [None] for [null] and for
    [NaN] alike (its one use is [count || 100]); [interval] is [None] for
    [NaN]; [byday] is [None] for [null]. *)
Record RRule : Type := {
  freq : option string;
  until : option string;
  count : option Z;
  interval : option Z;
  byday : option (list string)
}.

(** One turn of the [forEach] of [parseRRule]: [params[key] = value], on
    an object made by [{}]. *)
Definition rrule_param (params : gmap string string) (param : string)
    : gmap string string :=
  match split "=" param with
  | key :: value :: _ =>
      if truthy key && truthy value then assign key value params else params
  | _ => params
  end.

Definition parseRRule (rrule : string) : RRule :=
  let params := fold_left rrule_param (split ";" rrule) ∅ in
  {| freq := params !! "FREQ";
     until := params !! "UNTIL";
     count := if opt_truthy (params !! "COUNT")
              then parseInt (default EmptyString (params !! "COUNT")) else None;
     interval := if opt_truthy (params !! "INTERVAL")
                 then parseInt (default EmptyString (params !! "INTERVAL"))
                 else Some 1;
     byday := if opt_truthy (params !! "BYDAY")
              then Some (split "," (default EmptyString (params !! "BYDAY")))
              else None |}.

(** [timezones.EXDATE || timezones.DTSTART] *)
Definition first_truthy (a b : option string) : option string :=
  if opt_truthy a then a else b.

(** Sequencing of a fallible step over a list, left to right. *)
Fixpoint foldM {A B} (f : B -> A -> outcome B) (l : list A) (b : B) : outcome B :=
  match l with
  | [] => Ret b
  | x :: l' => b' ← f b x; foldM f l' b'
  end.

Definition parseExceptionDates (h : Host) (e : RawEvent) (tz : gmap string string)
    : outcome (list string) :=
  foldM (fun exdates exdate =>
           exdateFormatted ←
             formatDateToISO h (Some exdate)
               (first_truthy (tz !! "EXDATE") (tz !! "DTSTART"));
           Ret (if truthy exdateFormatted
                then (exdates ++ [exdateFormatted])%list else exdates))
        (default [] (lists e !! "EXDATE")) [].

Definition buildExceptionMap (h : Host) (exceptions : list EventData)
    (defaultTimezones : gmap string string) : outcome (gmap string EventData) :=
  foldM (fun (exceptionMap : gmap string EventData) exception =>
           match props (event exception) !! "RECURRENCE-ID" with
           | Some recurrenceId =>
               if truthy recurrenceId then
                 recurrenceIdFormatted ←
                   formatDateToISO h (Some recurrenceId)
                     (first_truthy (timezones exception !! "RECURRENCE-ID")
                                   (defaultTimezones !! "DTSTART"));
                 Ret (if truthy recurrenceIdFormatted
                      then <[recurrenceIdFormatted := exception]> exceptionMap
                      else exceptionMap)
               else Ret exceptionMap
           | None => Ret exceptionMap
           end)
        exceptions ∅.

(** The [eventData] object of [generateRecurringEvents]. *)
Record BaseData : Type := {
  bstart : string;
  bend : option string;
  btitle : string;
  bdescription : string;
  baddress : string
}.

(** [calculateDuration(start, end)]: a number, [NaN] when a date is invalid. *)
Definition calculateDuration (h : Host) (start' : string) (end' : option string)
    : option Z :=
  if negb (opt_truthy end') || negb (truthy start') then Some 0
  else nsub (getTime (parse h (default EmptyString end')))
            (getTime (parse h start')).

(** [setupDateLimits]: [untilDate] is [None] for [null], and [Some d] for a
    Date object, valid or not. *)
Definition setupDateLimits (h : Host) (start' : string)
    (until' : option string) (count' : option Z)
    : Date * option Date * Z :=
  let currentDate := parse h start' in
  let untilDate :=
    match until' with
    | Some u =>
        if negb (truthy u) then None
        else if Regex.matches Regex.compact_date u then
          Some (parse h (substr 0 4 u ++ "-" ++ substr 4 2 u ++ "-" ++ substr 6 2 u)%string)
        else if Regex.matches Regex.compact_local u
                || Regex.matches Regex.compact_utc u then
          match formatDateToISO h (Some u) None with
          | Ret s => Some (parse h s)
          | _ => None
          end
        else None
    | None => None
    end in
  let maxOccurrences :=
    match count' with
    | Some c => if c =? 0 then 100 else c
    | None => 100
    end in
  (currentDate, untilDate, maxOccurrences).

(** [dayMap[day]], when it is a number. *)
Definition dayMap (day : string) : option Z :=
  if bool_decide (day = "SU") then Some 0
  else if bool_decide (day = "MO") then Some 1
  else if bool_decide (day = "TU") then Some 2
  else if bool_decide (day = "WE") then Some 3
  else if bool_decide (day = "TH") then Some 4
  else if bool_decide (day = "FR") then Some 5
  else if bool_decide (day = "SA") then Some 6
  else None.

(** [byday.some((day) => dayMap[day] === dayOfWeek)] *)
Definition bydayHas (byday' : list string) (dayOfWeek : option Z) : bool :=
  match dayOfWeek with
  | Some w => existsb (fun day => bool_decide (dayMap day = Some w)) byday'
  | None => false
  end.

Definition shouldIncludeDate (h : Host) (currentDate : Date)
    (freq' : string) (byday' : option (list string)) : bool :=
  match byday' with
  | None => true
  | Some days =>
      if negb (bool_decide (freq' = "WEEKLY")) then true
      else bydayHas days (getDay h currentDate)
  end.

(** Equality of two numbers with [===]: [NaN] equals nothing. *)
Definition same_number (a b : option Z) : bool :=
  match a, b with
  | Some x, Some y => x =? y
  | _, _ => false
  end.

Definition isDateExcluded (h : Host) (eventStart : string)
    (exdates : list string) (isAllDayEvent : bool) : bool :=
  existsb (fun exdate =>
             if isAllDayEvent then bool_decide (before "T" exdate = eventStart)
             else
               let exdateTime := parse h exdate in
               let eventTime := parse h eventStart in
               same_number (getFullYear h exdateTime) (getFullYear h eventTime)
               && same_number (getMonth h exdateTime) (getMonth h eventTime)
               && same_number (getDate h exdateTime) (getDate h eventTime)
               && same_number (getHours h exdateTime) (getHours h eventTime)
               && same_number (getMinutes h exdateTime) (getMinutes h eventTime))
          exdates.

Definition createExceptionEvent (h : Host) (exception : EventData)
    : outcome Occurrence :=
  let exceptionEvent := event exception in
  let exceptionTimezones := timezones exception in
  start' ← formatDateToISO h (props exceptionEvent !! "DTSTART")
                           (exceptionTimezones !! "DTSTART");
  end' ← (if has_prop exceptionEvent "DTEND"
          then Some <$> formatDateToISO h (props exceptionEvent !! "DTEND")
                                        (exceptionTimezones !! "DTEND")
          else Ret None);
  let title' := cleanString (props exceptionEvent !! "SUMMARY") in
  let description' := cleanString (props exceptionEvent !! "DESCRIPTION") in
  let address' := cleanAddress (props exceptionEvent !! "LOCATION") in
  Ret {| start := attach start';
         end_ := attach_opt end';
         title := attach title';
         description := attach description';
         address := attach address' |}.

Definition createNormalEvent (eventStart : string) (eventEnd' : option string)
    (eventData : BaseData) : Occurrence :=
  {| start := attach eventStart;
     end_ := attach_opt eventEnd';
     title := attach (btitle eventData);
     description := attach (bdescription eventData);
     address := attach (baddress eventData) |}.

(** [durationMs > 0] *)
Definition positive (n : option Z) : bool :=
  match n with
  | Some x => 0 <? x
  | None => false
  end.

(** The start and end strings [createOccurrence] derives from the cursor. *)
Definition occurrenceBounds (currentDate : Date) (eventData : BaseData)
    (durationMs : option Z) (isAllDayEvent : bool)
    : outcome (string * option string) :=
  if isAllDayEvent then
    eventStart ← before "T" <$> toISOString currentDate;
    if opt_truthy (bend eventData) then
      let endDate :=
        if positive durationMs
        then setTime (nadd (getTime currentDate) durationMs)
        else currentDate in
      eventEnd' ← before "T" <$> toISOString endDate;
      Ret (eventStart, Some eventEnd')
    else Ret (eventStart, None)
  else
    eventStart ← strip_ms <$> toISOString currentDate;
    if positive durationMs then
      eventEnd' ← strip_ms <$>
        toISOString (ofNumber (nadd (getTime currentDate) durationMs));
      Ret (eventStart, Some eventEnd')
    else Ret (eventStart, None).

(** [createOccurrence]: [null] is [None]. *)
Definition createOccurrence (h : Host) (currentDate : Date) (eventData : BaseData)
    (durationMs : option Z) (exdates : list string)
    (exceptionMap : gmap string EventData) : outcome (option Occurrence) :=
  let isAllDayEvent := Regex.matches Regex.iso_date (bstart eventData) in
  '(eventStart, eventEnd') ←
    occurrenceBounds currentDate eventData durationMs isAllDayEvent;
  if isDateExcluded h eventStart exdates isAllDayEvent then Ret None
  else
    match exceptionMap !! eventStart with
    | Some exception => Some <$> createExceptionEvent h exception
    | None => Ret (Some (createNormalEvent eventStart eventEnd' eventData))
    end.

(** The [while] loop of [advanceToNextWeeklyDay]: it runs for
    [daysToAdd = 1 .. 7 * interval] and returns at the first match.  The
    counter of the source is a double, which counts exactly up to 2^53 and
    stays there: the model follows the source for [7 * interval] below
    2^53; from there on the loop of the source, when no code matches, does
    not end. *)
Fixpoint weeklySearch (n : nat) (daysToAdd : Z) (nextDayOfWeek : option Z)
    (days : list string) : option Z :=
  match n with
  | O => None
  | S n' =>
      if bydayHas days nextDayOfWeek then Some daysToAdd
      else weeklySearch n' (daysToAdd + 1)
             (w ← nextDayOfWeek; Some (Z.rem (w + 1) 7)) days
  end.

Definition advanceToNextWeeklyDay (h : Host) (currentDate : Date)
    (days : list string) (interval' : option Z) : Date :=
  let nextDayOfWeek := w ← getDay h currentDate; Some (Z.rem (w + 1) 7) in
  let turns := match interval' with Some i => Z.to_nat (7 * i) | None => O end in
  match weeklySearch turns 1 nextDayOfWeek days with
  | Some daysToAdd =>
      setDate h currentDate (nadd (getDate h currentDate) (Some daysToAdd))
  | None =>
      let date1 :=
        setDate h currentDate
          (nadd (getDate h currentDate) (i ← interval'; Some (7 * i))) in
      let targetDay := dayMap (default EmptyString (head days)) in
      let currentDay := getDay h date1 in
      let daysUntilTarget :=
        t ← targetDay; c ← currentDay; Some (Z.rem (t - c + 7) 7) in
      setDate h date1 (nadd (getDate h date1) daysUntilTarget)
  end.

(** [advanceToNextDate]: the new value of the cursor it mutates. *)
Definition advanceToNextDate (h : Host) (currentDate : Date) (freq' : string)
    (interval' : option Z) (byday' : option (list string)) : Date :=
  if bool_decide (freq' = "YEARLY") then
    setFullYear h currentDate (nadd (getFullYear h currentDate) interval')
  else if bool_decide (freq' = "MONTHLY") then
    setMonth h currentDate (nadd (getMonth h currentDate) interval')
  else if bool_decide (freq' = "WEEKLY") then
    match byday' with
    | Some days =>
        if (1 <? length days)%nat
        then advanceToNextWeeklyDay h currentDate days interval'
        else setDate h currentDate
               (nadd (getDate h currentDate) (i ← interval'; Some (7 * i)))
    | None =>
        setDate h currentDate
          (nadd (getDate h currentDate) (i ← interval'; Some (7 * i)))
    end
  else if bool_decide (freq' = "DAILY") then
    setDate h currentDate (nadd (getDate h currentDate) interval')
  else
    setFullYear h currentDate (nadd (getFullYear h currentDate) (Some 10)).

(** [a <= b] and [a > b] on Date objects: false when one is invalid. *)
Definition date_le (a b : Date) : bool :=
  match a, b with
  | Some x, Some y => x <=? y
  | _, _ => false
  end.
Definition date_gt (a b : Date) : bool :=
  match a, b with
  | Some x, Some y => y <? x
  | _, _ => false
  end.

(** [new Date(Date.now() + 2 * 365 * 24 * 60 * 60 * 1000)]; the clock is
    read once per invocation. *)
Definition horizon (now : Z) : Date :=
  ofNumber (Some (now + 2 * 365 * 24 * 60 * 60 * 1000)).

(** The [while] loop of [generateOccurrences]; its state is the cursor, the
    counter and the list built so far. *)
Fixpoint occurrencesLoop (h : Host) (now : Z) (eventData : BaseData)
    (freq' : string) (interval' : option Z) (byday' : option (list string))
    (durationMs : option Z) (untilDate : option Date) (maxOccurrences : Z)
    (exdates : list string) (exceptionMap : gmap string EventData)
    (fuel : nat) (currentDate : Date) (occurrenceCount : Z)
    (events : list Occurrence) : outcome (list Occurrence) :=
  match fuel with
  | O => OutOfFuel
  | S fuel' =>
      if (occurrenceCount <? maxOccurrences) && date_le currentDate (horizon now)
      then
        if match untilDate with
           | Some u => date_gt currentDate u
           | None => false
           end
        then Ret events
        else
          '(events', occurrenceCount') ←
            (if shouldIncludeDate h currentDate freq' byday' then
               occurrence ← createOccurrence h currentDate eventData durationMs
                                             exdates exceptionMap;
               match occurrence with
               | Some o => Ret ((events ++ [o])%list, occurrenceCount + 1)
               | None => Ret (events, occurrenceCount)
               end
             else Ret (events, occurrenceCount));
          occurrencesLoop h now eventData freq' interval' byday' durationMs
            untilDate maxOccurrences exdates exceptionMap fuel'
            (advanceToNextDate h currentDate freq' interval' byday')
            occurrenceCount' events'
      else Ret events
  end.

Definition generateOccurrences (h : Host) (now : Z) (fuel : nat)
    (eventData : BaseData) (rruleParams : RRule) (exdates : list string)
    (exceptionMap : gmap string EventData) : outcome (list Occurrence) :=
  match freq rruleParams with
  | Some freq' =>
      if negb (truthy freq') then Ret []
      else
        let durationMs := calculateDuration h (bstart eventData) (bend eventData) in
        let '(currentDate, untilDate, maxOccurrences) :=
          setupDateLimits h (bstart eventData) (until rruleParams)
                          (count rruleParams) in
        occurrencesLoop h now eventData freq' (interval rruleParams)
          (byday rruleParams) durationMs untilDate maxOccurrences exdates
          exceptionMap fuel currentDate 0 []
  | None => Ret []
  end.

Definition generateRecurringEvents (h : Host) (now : Z) (fuel : nat)
    (e : RawEvent) (tz : gmap string string) (exceptions : list EventData)
    : outcome (list Occurrence) :=
  match props e !! "RRULE" with
  | Some rrule =>
      if negb (truthy rrule) then Ret []
      else
        start' ← formatDateToISO h (props e !! "DTSTART") (tz !! "DTSTART");
        if negb (truthy start') then Ret []
        else
          end' ← eventEnd h e tz;
          let rruleParams := parseRRule rrule in
          exdates ← parseExceptionDates h e tz;
          exceptionMap ← buildExceptionMap h exceptions tz;
          let eventData :=
            {| bstart := start';
               bend := end';
               btitle := cleanString (props e !! "SUMMARY");
               bdescription := cleanString (props e !! "DESCRIPTION");
               baddress := cleanAddress (props e !! "LOCATION") |} in
          generateOccurrences h now fuel eventData rruleParams exdates exceptionMap
  | None => Ret []
  end.

(** *** parseICS *)

(** What one base event adds to [events]: the callback of the [forEach]
    of [parseICS]. *)
Definition eventOccurrences (h : Host) (now : Z) (fuel : nat)
    (exceptionsByUid : gmap string (list EventData)) (ed : EventData)
    : outcome (list Occurrence) :=
  if isEventDeleted (event ed) then Ret []
  else if has_prop (event ed) "RRULE" then
    let exceptions :=
      match props (event ed) !! "UID" with
      | Some uid => default [] (exceptionsByUid !! uid)
      | None => []
      end in
    generateRecurringEvents h now fuel (event ed) (timezones ed) exceptions
  else
    singleEvent ← createEventFromData h (event ed) (timezones ed);
    Ret (match singleEvent with
         | Some o => [o]
         | None => []
         end).

Definition parseICS (h : Host) (now : Z) (fuel : nat) (icsData : string)
    : outcome (list Occurrence) :=
  let unfoldedLines := unfoldICSLines icsData in
  let '(mainEvents', recurrenceExceptions') := parseEventsFromLines unfoldedLines in
  foldM (fun events ed =>
           occ ← eventOccurrences h now fuel recurrenceExceptions' ed;
           Ret (events ++ occ)%list)
        mainEvents' [].

(** *** Result Selector: filterAndSortEvents *)

(** [Array.prototype.sort(compare)] is a stable sort when [compare] is a
    consistent comparator for the elements of the array; when it is not, as
    with a comparator that returns [NaN], ECMAScript leaves the order to the
    implementation. *)

(** [x < 0] *)
Definition negative (n : option Z) : bool :=
  match n with
  | Some x => x <? 0
  | None => false
  end.

(** Takes the element at position [n] out of the list [x :: l]; the last
    one when the list is shorter. *)
Fixpoint extract {A : Type} (n : nat) (x : A) (l : list A) : A * list A :=
  match n, l with
  | S n', y :: l' => let '(z, r) := extract n' y l' in (z, x :: r)
  | _, _ => (x, l)
  end.

(** The list in the order a code gives: place by place, the element at the
    coded position among those not yet placed; what the code does not
    reach stays as it is.  Every code gives a permutation, and every
    permutation has a code. *)
Fixpoint permute {A : Type} (code : list nat) (l : list A) : list A :=
  match code, l with
  | n :: code', x :: l' => let '(z, r) := extract n x l' in z :: permute code' r
  | _, _ => l
  end.

Section Sort.
Context {A : Type} (compare : A -> A -> option Z).

(** What the sort makes of a result of the comparator: [a] before [b],
    [a] after [b], or neither, [NaN] counting as zero. *)
Definition precedes (a b : A) : bool := negative (compare a b).
Definition comes_after (a b : A) : bool := positive (compare a b).
Definition ties (a b : A) : bool := negb (precedes a b) && negb (comes_after a b).

(** A consistent comparator for the elements of [l], as ECMAScript defines
    it: its result is a number, never [NaN]; every element ties with itself;
    ties are symmetric and transitive, and so are [precedes] and
    [comes_after]. *)
Definition consistent (l : list A) : bool :=
  forallb (fun a =>
    ties a a
    && forallb (fun b =>
         bool_decide (is_Some (compare a b))
         && implb (ties a b) (ties b a)
         && forallb (fun c =>
              implb (ties a b && ties b c) (ties a c)
              && implb (precedes a b && precedes b c) (precedes a c)
              && implb (comes_after a b && comes_after b c) (comes_after a c))
            l)
       l)
    l.

Fixpoint sort_insert (x : A) (l : list A) : list A :=
  match l with
  | [] => [x]
  | y :: l' => if comes_after x y then y :: sort_insert x l' else x :: l
  end.

(** The sorted list of a consistent comparator: ascending, the elements
    that tie in the order they had.  Every stable sort returns it. *)
Fixpoint stable_sort (l : list A) : list A :=
  match l with
  | [] => []
  | x :: l' => sort_insert x (stable_sort l')
  end.

End Sort.

(** [l.sort(compare)].  With a consistent comparator the result is the one
    of a stable sort.  Otherwise the order is implementation-defined: it is
    the permutation the host picks from the results of the comparator. *)
Definition arraySort {A : Type} (h : Host) (compare : A -> A -> option Z)
    (l : list A) : list A :=
  if consistent compare l then stable_sort compare l
  else permute (sortOrder h ((fun a => compare a <$> l) <$> l)) l.

(** [yesterday]: the last millisecond of the previous local day. *)
Definition endOfYesterday (h : Host) (now : Z) : Date :=
  let now' := ofNumber (Some now) in
  let yesterday := setDate h now' (nadd (getDate h now') (Some (-1))) in
  setHours h yesterday 23 59 59 999.

(** The callback of [events.filter]. *)
Definition endsAfter (h : Host) (yesterday : Date) (e : Occurrence) : bool :=
  if negb (opt_truthy (start e)) then false
  else
    let eventEndDate :=
      if opt_truthy (end_ e)
      then parse h (default EmptyString (end_ e))
      else parse h (default EmptyString (start e)) in
    date_gt eventEndDate yesterday.

(** The callback of [validEvents.sort]. *)
Definition compareStart (h : Host) (a b : Occurrence) : option Z :=
  let dateA := parse h (default EmptyString (start a)) in
  let dateB := parse h (default EmptyString (start b)) in
  nsub dateA dateB.

Definition filterAndSortEvents (h : Host) (now : Z) (events : list Occurrence)
    : list Occurrence :=
  let yesterday := endOfYesterday h now in
  let validEvents := List.filter (endsAfter h yesterday) events in
  List.firstn 25 (arraySort h (compareStart h) validEvents).

(** *** The collaborator boundary: main *)

(** What [fetch] resolves to. *)
Record Response : Type := {
  ok : bool;
  statusText : string;
  text : string
}.

(** The [body] of the object [main] returns. *)
Inductive Body : Type :=
| BodyText (s : string)
| BodyEvents (l : list Occurrence).

(** The calls [main] makes, in order. *)
Inductive Call : Type :=
| CallFetch (url : string)
| CallParseICS (icsData : string).

(** [main(args)]: the calls made and the result.  [fetch] is the host's;
    a rejected promise is [Throws]. *)
Definition main (h : Host) (now : Z) (fuel : nat)
    (fetch : string -> outcome Response) (url : option string)
    : list Call * outcome Body :=
  match url with
  | Some u =>
      if negb (truthy u) then ([], Ret (BodyText "No URL provided"))
      else
        match fetch u with
        | Ret response =>
            if negb (ok response) then
              ([CallFetch u],
               Ret (BodyText ("Error fetching data: " ++ statusText response)%string))
            else
              ([CallFetch u; CallParseICS (text response)],
               events ← parseICS h now fuel (text response);
               Ret (BodyEvents (filterAndSortEvents h now events)))
        | Throws => ([CallFetch u], Throws)
        | OutOfFuel => ([CallFetch u], OutOfFuel)
        end
  | None => ([], Ret (BodyText "No URL provided"))
  end.

(** *** Vocabulary of the statements *)

(** The two canonical forms of the specification. *)
Definition canonical (s : string) : bool :=
  Regex.matches Regex.iso_date s || Regex.matches Regex.iso_instant s.

(** A host that runs in UTC, parses nothing but the ISO format, knows no
    named zone and leaves an array it cannot sort as it is. *)
Definition utcHost : Host :=
  {| LocalTZA := fun _ _ => 0;
     legacyParse := fun _ => None;
     hostLocaleString := fun _ _ => None;
     sortOrder := fun _ => [] |}.

(** The local zone of the host is a fixed offset from UTC. *)
Definition fixed_offset (h : Host) : Prop :=
  exists c : Z, forall (t : Z) (isUTC : bool), LocalTZA h t isUTC = c.

(** UTC midnight of the calendar day [y]-[m]-[d], with [m] from 1 to 12. *)
Definition dayStart (y m d : Z) : Z := MakeDate (MakeDay y (m - 1) d) 0.

(** The STATUS field equals CANCELLED, whatever the case of its letters. *)
Definition cancelled (e : RawEvent) : bool :=
  match props e !! "STATUS" with
  | Some s => bool_decide (toUpperCase s = "CANCELLED")
  | None => false
  end.

(** The event with one more property line [k:v]. *)
Definition with_prop (k v : string) (ed : EventData) : EventData :=
  {| event := {| props := <[k := v]> (props (event ed));
                 lists := lists (event ed) |};
     timezones := timezones ed |}.

Definition engine_called (calls : list Call) : bool :=
  existsb (fun c => match c with CallParseICS _ => true | _ => false end) calls.

(** A field that is present is not the empty string. *)
Definition not_empty (f : option string) : Prop := f <> Some EmptyString.

(** An output record: a start, and no empty field. *)
Definition well_formed (o : Occurrence) : Prop :=
  opt_truthy (start o) = true
  /\ not_empty (end_ o) /\ not_empty (title o)
  /\ not_empty (description o) /\ not_empty (address o).

Definition no_empty_field (o : Occurrence) : Prop :=
  not_empty (start o) /\ not_empty (end_ o) /\ not_empty (title o)
  /\ not_empty (description o) /\ not_empty (address o).

(** The characters of a date: digits, the hyphen and the sign of an
    expanded year. *)
Definition date_char (c : ascii) : bool :=
  is_digit c || Ascii.eqb c "-" || Ascii.eqb c "+".

(** The value of the digits [a b c d]. *)
Definition digits4 (a b c d : ascii) : Z :=
  10 * (10 * (10 * (10 * 0 + digit_val a) + digit_val b) + digit_val c) + digit_val d.
Definition digits2 (a b : ascii) : Z := 10 * (10 * 0 + digit_val a) + digit_val b.

(** A cancelled weekly event, in lower case, with a valid RRULE. *)
Definition cancelledSeries : EventData :=
  {| event :=
       {| props := {[ "UID" := "u1"; "DTSTART" := "20240101T090000Z";
                      "RRULE" := "FREQ=WEEKLY;COUNT=4"; "STATUS" := "Cancelled";
                      "SUMMARY" := "Stand-up" ]};
          lists := ∅ |};
     timezones := ∅ |}.

(** The loop of [generateOccurrences] goes on: the count is below the cap,
    the cursor is a valid date on or before the horizon and not past UNTIL. *)
Definition in_bounds (now : Z) (untilDate : option Date) (maxOccurrences : Z)
    (currentDate : Date) (occurrenceCount : Z) : bool :=
  (occurrenceCount <? maxOccurrences) && date_le currentDate (horizon now)
  && negb (match untilDate with
           | Some u => date_gt currentDate u
           | None => false
           end).

(** A calendar for the examples: a timed weekly series, a single all-day
    event, an all-day daily series with an exclusion date and a modified
    instance that is marked cancelled, and a cancelled series. *)
Definition sampleCalendar : string :=
"BEGIN:VCALENDAR
BEGIN:VEVENT
UID:a1
DTSTART:20240101T090000Z
DTEND:20240101T100000Z
RRULE:FREQ=WEEKLY;BYDAY=MO,WE;COUNT=4
SUMMARY:Team\, sync
END:VEVENT
BEGIN:VEVENT
UID:a2
DTSTART:20240310
DTEND:20240312
SUMMARY:Trip
LOCATION:Tallinn\nEstonia
END:VEVENT
BEGIN:VEVENT
UID:a3
DTSTART:20240310
DTEND:20240312
RRULE:FREQ=DAILY;COUNT=3
EXDATE:20240311
SUMMARY:Daily
END:VEVENT
BEGIN:VEVENT
UID:a3
RECURRENCE-ID:20240312
DTSTART:20240312T180000Z
STATUS:CANCELLED
SUMMARY:Changed
END:VEVENT
BEGIN:VEVENT
UID:a4
DTSTART:20240105T090000Z
RRULE:FREQ=DAILY;COUNT=5
STATUS:cancelled
SUMMARY:Gone
END:VEVENT
END:VCALENDAR
".

(** 2024-01-01T00:00:00Z *)
Definition sampleNow : Z := 1704067200000.

(** The modified instance of [sampleCalendar], as the Property Grouper
    stores it. *)
Definition sampleException : EventData :=
  {| event :=
       {| props := {[ "UID" := "a3"; "RECURRENCE-ID" := "20240312";
                      "DTSTART" := "20240312T180000Z"; "STATUS" := "CANCELLED";
                      "SUMMARY" := "Changed" ]};
          lists := ∅ |};
     timezones := ∅ |}.

(** The [eventData] of the daily series of [sampleCalendar]. *)
Definition sampleBase : BaseData :=
  {| bstart := "2024-03-10"; bend := Some "2024-03-11"; btitle := "Daily";
     bdescription := EmptyString; baddress := EmptyString |}.

(** The fields [createExceptionEvent] reads. *)
Definition emittedFields : list string :=
  ["DTSTART"; "DTEND"; "SUMMARY"; "DESCRIPTION"; "LOCATION"].

(** The start instant of a record, and its effective end: the end when
    the record has one, else the start. *)
Definition startInstant (h : Host) (o : Occurrence) : option Z :=
  parse h (default EmptyString (start o)).
Definition effectiveEnd (h : Host) (o : Occurrence) : option Z :=
  if opt_truthy (end_ o) then parse h (default EmptyString (end_ o))
  else startInstant h o.

(** [a] does not start strictly after [b]. *)
Definition not_after (h : Host) (a b : Occurrence) : Prop :=
  comes_after (compareStart h) a b = false.

(** Both starts are valid dates, the one of [a] not later than that of [b]. *)
Definition starts_le (h : Host) (a b : Occurrence) : Prop :=
  exists x y, startInstant h a = Some x /\ startInstant h b = Some y /\ x <= y.

(** A record without start whose end lies in 2030. *)
Definition startlessRecord : Occurrence :=
  {| start := None; end_ := Some "2030-01-01T00:00:00Z"; title := Some "No start";
     description := None; address := None |}.

(** Two dates are valid and fall in the same minute of local time. *)
Definition sameLocalMinute (h : Host) (a b : Date) : Prop :=
  exists ta tb, a = Some ta /\ b = Some tb
    /\ LocalTime h ta / msPerMinute = LocalTime h tb / msPerMinute.

(** The start of a tentative occurrence matches an exclusion date: the same
    calendar day for an all-day event, the same year, month, day, hour and
    minute for a timed one. *)
Definition matchesExclusion (h : Host) (isAllDayEvent : bool)
    (eventStart exdate : string) : Prop :=
  if isAllDayEvent then before "T" exdate = eventStart
  else sameLocalMinute h (parse h exdate) (parse h eventStart).

(** The text of the instant [t] without its milliseconds. *)
Definition instantText (t : Z) : string :=
  (isoDateString t ++ "T" ++ isoClockString t ++ "Z")%string.

(** The time a generated occurrence lasts: the duration when it is a
    positive number, else nothing. *)
Definition span (durationMs : option Z) : Z :=
  if positive durationMs then default 0 durationMs else 0.

(** The occurrence [createOccurrence] builds at the cursor [t] when no
    exclusion date and no exception instance applies. *)
Definition slotStart (isAllDayEvent : bool) (t : Z) : string :=
  if isAllDayEvent then isoDateString t else instantText t.
Definition slotEnd (eventData : BaseData) (durationMs : option Z)
    (isAllDayEvent : bool) (t : Z) : option string :=
  if isAllDayEvent then
    if opt_truthy (bend eventData)
    then Some (isoDateString (t + span durationMs)) else None
  else if positive durationMs then Some (instantText (t + span durationMs))
  else None.
Definition slotOccurrence (eventData : BaseData) (durationMs : option Z) (t : Z)
    : Occurrence :=
  let isAllDayEvent := Regex.matches Regex.iso_date (bstart eventData) in
  createNormalEvent (slotStart isAllDayEvent t)
                    (slotEnd eventData durationMs isAllDayEvent t) eventData.

(** The cursor [t] is on or before the horizon of two years (730 days) from
    [now], and it and the end of its occurrence are within the range of a
    Date. *)
Definition slot_ok (now : Z) (durationMs : option Z) (t : Z) : Prop :=
  t <= now + 2 * 365 * msPerDay
  /\ Z.abs t <= maxTime /\ Z.abs (t + span durationMs) <= maxTime.

(** [FREQ=DAILY;COUNT=5] with the given INTERVAL. *)
Definition dailyFive (n : Z) (byday' : option (list string)) : RRule :=
  {| freq := Some "DAILY"; until := None; count := Some 5;
     interval := Some n; byday := byday' |}.

(** A daily series of five that starts in 2030, six years after
    [sampleNow]. *)
Definition farFutureSeries : EventData :=
  {| event :=
       {| props := {[ "UID" := "f1"; "DTSTART" := "20300101T090000Z";
                      "RRULE" := "FREQ=DAILY;COUNT=5"; "SUMMARY" := "Later" ]};
          lists := ∅ |};
     timezones := ∅ |}.

(** The [eventData] of a timed series that starts on 5 January 2024 and
    lasts an hour. *)
Definition sampleTimed : BaseData :=
  {| bstart := "2024-01-05T09:00:00Z"; bend := Some "2024-01-05T10:00:00Z";
     btitle := "Call"; bdescription := EmptyString; baddress := EmptyString |}.

(** The all-day event of the specification: 10 and 11 March 2024, with
    the exclusive end 12 March. *)
Definition allDayExample : EventData :=
  {| event :=
       {| props := {[ "UID" := "d1"; "DTSTART" := "20240310";
                      "DTEND" := "20240312"; "SUMMARY" := "Trip" ]};
          lists := ∅ |};
     timezones := ∅ |}.

(** A generated all-day occurrence that ends one day after it starts. *)
Definition one_day_long (h : Host) (o : Occurrence) : Prop :=
  exists t : Z,
    start o = Some (isoDateString t)
    /\ end_ o = Some (isoDateString (t + msPerDay))
    /\ nsub (effectiveEnd h o) (startInstant h o) = Some msPerDay.

(** A daily all-day series whose instance of 11 March 2024 was modified to
    last two days, 11 and 12 March (exclusive end 13 March). *)
Definition movedInstanceCalendar : string :=
"BEGIN:VCALENDAR
BEGIN:VEVENT
UID:m1
DTSTART:20240310
DTEND:20240311
RRULE:FREQ=DAILY;COUNT=3
SUMMARY:Camp
END:VEVENT
BEGIN:VEVENT
UID:m1
RECURRENCE-ID:20240311
DTSTART:20240311
DTEND:20240313
SUMMARY:Camp (long day)
END:VEVENT
END:VCALENDAR
".

(** The modified instance of [movedInstanceCalendar]. *)
Definition movedInstance : EventData :=
  {| event :=
       {| props := {[ "UID" := "m1"; "RECURRENCE-ID" := "20240311";
                      "DTSTART" := "20240311"; "DTEND" := "20240313";
                      "SUMMARY" := "Camp (long day)" ]};
          lists := ∅ |};
     timezones := ∅ |}.

(** A series whose modified instance has no DTSTART. *)
Definition startlessCalendar : string :=
"BEGIN:VEVENT
UID:s1
DTSTART:20240310
RRULE:FREQ=DAILY;COUNT=2
SUMMARY:Series
END:VEVENT
BEGIN:VEVENT
UID:s1
RECURRENCE-ID:20240311
DTEND:20300101T000000Z
SUMMARY:No start
END:VEVENT
".

(** Year, month and day written in a compact date [YYYYMMDD]. *)
Definition compactDateFields (ds : string) : option (Z * Z * Z) :=
  '(y, r1) ← read_digits 4 0 ds;
  '(m, r2) ← read_digits 2 0 r1;
  '(d, _) ← read_digits 2 0 r2;
  Some (y, m, d).

(** The escape sequences [unescapeICS] rewrites. *)
Definition escape_codes : list ascii :=
  ["n"; "N"; "r"; "t"; ","; ";"; DQUOTE; BACKSLASH]%char.

Definition escape_free (s : string) : bool :=
  forallb (fun b => negb (has_pair BACKSLASH b s)) escape_codes.

(** *** Vocabulary of the further properties *)

(** A continuation line begins with a space or a tab. *)
Definition continuation (line : string) : bool :=
  startsWith " " line || startsWith (String TAB EmptyString) line.

(** The text holds no line feed. *)
Definition one_line (s : string) : bool :=
  all_chars (fun c => negb (Ascii.eqb c LF)) s.

(** What [unfoldICSLines] returns from the state its loop ends in. *)
Definition flush (st : list string * string) : list string :=
  let '(unfoldedLines, currentLine) := st in
  if truthy currentLine then (unfoldedLines ++ [currentLine])%list else unfoldedLines.

(** What continuation lines add to the line they continue: each without
    its first character, nothing trimmed. *)
Definition continued (conts : list string) : string :=
  foldr (fun l r => (drop 1 l ++ r)%string) EmptyString conts.

(** The shape the Property Grouper gives an event: an array under the keys
    [EXDATE], [RDATE] and [EXRULE] only, never an empty one, and no string
    under these keys. *)
Definition grouped_shape (e : RawEvent) : Prop :=
  (forall k, multiValued k = true -> props e !! k = None)
  /\ (forall k vs, lists e !! k = Some vs -> multiValued k = true /\ vs <> []).

(** A base event as the Property Grouper files it. *)
Definition filed_as_main (ed : EventData) : Prop :=
  grouped_shape (event ed) /\ has_prop (event ed) "RECURRENCE-ID" = false.

(** An exception instance as the Property Grouper files it under [uid]. *)
Definition filed_under (uid : string) (ed : EventData) : Prop :=
  grouped_shape (event ed) /\ has_prop (event ed) "RECURRENCE-ID" = true
  /\ props (event ed) !! "UID" = Some uid.

(** What holds of the variables of [parseEventsFromLines] after every line. *)
Definition grouper_invariant (st : GrouperState) : Prop :=
  Forall filed_as_main (mainEvents st)
  /\ (forall uid l, recurrenceExceptions st !! uid = Some l ->
        truthy uid = true /\ l <> [] /\ Forall (filed_under uid) l)
  /\ (forall ev, currentEvent st = Some ev -> grouped_shape ev).

(** A plain character of a property name: no white space, no colon, no
    semicolon, no equals sign. *)
Definition name_char (c : ascii) : bool :=
  negb (is_space c) && negb (Ascii.eqb c ":") && negb (Ascii.eqb c ";")
  && negb (Ascii.eqb c "=").

(** A plain character of a zone name: no white space, no colon, no
    semicolon. *)
Definition zone_char (c : ascii) : bool :=
  negb (is_space c) && negb (Ascii.eqb c ":") && negb (Ascii.eqb c ";").

(** The properties the Deletion Classifier reads. *)
Definition deletionKeys : list string :=
  ["STATUS"; "METHOD"; "SEQUENCE"; "X-APPLE-DELETED-DATE"; "X-APPLE-DELETED";
   "X-GOOGLE-DELETED"; "DTSTART"; "SUMMARY"].

(** The other deletion markers: STATUS, METHOD and the vendor flags. *)
Definition otherMarkers : list string :=
  ["STATUS"; "METHOD"; "X-APPLE-DELETED-DATE"; "X-APPLE-DELETED"; "X-GOOGLE-DELETED"].

(** A rule written from its parameters: [K1=V1;K2=V2;...]. *)
Fixpoint rruleText (ps : list (string * string)) : string :=
  match ps with
  | [] => EmptyString
  | (k, v) :: rest =>
      match rest with
      | [] => (k ++ "=" ++ v)%string
      | _ => (k ++ "=" ++ v ++ ";" ++ rruleText rest)%string
      end
  end.

(** A parameter name or value: not empty, without semicolon or equals sign. *)
Definition param_text (s : string) : Prop :=
  s <> EmptyString
  /\ all_chars (fun c => negb (Ascii.eqb c ";") && negb (Ascii.eqb c "=")) s = true.

(** The cap on the number of occurrences of a rule: its COUNT, or 100 when
    it has none (or the COUNT 0). *)
Definition within_cap (rule : RRule) (l : list Occurrence) : Prop :=
  match count rule with
  | Some c => if c =? 0 then (length l <= 100)%nat
              else Z.of_nat (length l) <= Z.max 0 c
  | None => (length l <= 100)%nat
  end.

(** The BYDAY code of a day of the week, 0 being Sunday. *)
Definition dayCode (w : Z) : string :=
  match w with
  | 0 => "SU" | 1 => "MO" | 2 => "TU" | 3 => "WE" | 4 => "TH" | 5 => "FR"
  | 6 => "SA" | _ => EmptyString
  end.

(** The number of days of month [m] (0 = January). *)
Definition daysInMonth (leap : bool) (m : Z) : Z :=
  match m with
  | 1 => if leap then 29 else 28
  | 3 | 5 | 8 | 10 => 30
  | _ => 31
  end.

(** The calendar date [setMonth] and [setFullYear] arrive at when they are
    given day [d] of month [m] of year [y]: that day, or, when the month is
    shorter, the day as many days into the next month. *)
Definition rolledDate (y m d : Z) : Z * Z * Z :=
  if d <=? daysInMonth (isLeapYear y) m then (y, m, d)
  else (y, m + 1, d - daysInMonth (isLeapYear y) m).

(** The text [YYYY-MM-DD] the Normalizer makes of a compact date. *)
Definition dashedDate (ds : string) : string :=
  (substr 0 4 ds ++ "-" ++ substr 4 2 ds ++ "-" ++ substr 6 2 ds)%string.

(** A single event, of 10 March 2024, whose end names a thirteenth month. *)
Definition impossibleEnd : EventData :=
  {| event :=
       {| props := {[ "UID" := "x1"; "DTSTART" := "20240310";
                      "DTEND" := "20241301"; "SUMMARY" := "Broken" ]};
          lists := ∅ |};
     timezones := ∅ |}.

(** Every white space character of the text is one space that stands
    before a character that is not white space. *)
Fixpoint single_spaces (s : string) : bool :=
  match s with
  | EmptyString => true
  | String c s' =>
      (if is_space c
       then Ascii.eqb c " "
            && match s' with
               | String d _ => negb (is_space d)
               | EmptyString => false
               end
       else true)
      && single_spaces s'
  end.

(** A tidy text: it does not begin with white space, and every white space
    character in it is a single space between two other characters. *)
Definition tidy (s : string) : bool :=
  match s with
  | String c _ => negb (is_space c)
  | EmptyString => true
  end && single_spaces s.

(** [trim] from the right, as a recursion on the text. *)
Fixpoint trimEnd (s : string) : string :=
  match s with
  | EmptyString => EmptyString
  | String c s' =>
      match trimEnd s' with
      | EmptyString => if is_space c then EmptyString else String c EmptyString
      | r => String c r
      end
  end.

(** The same as [single_spaces], a last space allowed. *)
Fixpoint loose_spaces (s : string) : bool :=
  match s with
  | EmptyString => true
  | String c s' =>
      (if is_space c
       then Ascii.eqb c " "
            && match s' with
               | String d _ => negb (is_space d)
               | EmptyString => true
               end
       else true)
      && loose_spaces s'
  end.

Definition starts_with_space (s : string) : bool :=
  match s with
  | String c _ => is_space c
  | EmptyString => false
  end.

(** Hour, minute and second written in a compact datetime
    [YYYYMMDDTHHMMSS], with or without a final [Z]. *)
Definition compactTimeFields (ds : string) : option (Z * Z * Z) :=
  '(hh, r1) ← read_digits 2 0 (drop 9 ds);
  '(mi, r2) ← read_digits 2 0 r1;
  '(ss, _) ← read_digits 2 0 r2;
  Some (hh, mi, ss).

(** The instant of a wall-clock reading taken as UTC. *)
Definition wallClock (y m d hh mi ss : Z) : Z :=
  MakeDate (MakeDay y (m - 1) d) (MakeTime hh mi ss 0).

(** A time of day as the compact forms can write it. *)
Definition clock_time (hh mi ss : Z) : bool := (hh <=? 23) && (mi <=? 59) && (ss <=? 59).

(** The offset, in milliseconds, a zone [GMT+HHMM] or [GMT-HHMM] names. *)
Definition gmtOffsetMs (positive' : bool) (hh mm : Z) : Z :=
  (if positive' then 1 else -1) * (hh * 60 + mm) * 60 * 1000.

(** The zone name [GMT+HHMM] or [GMT-HHMM]. *)
Definition gmtZone (positive' : bool) (hh mm : Z) : string :=
  ("GMT" ++ (if positive' then "+" else "-") ++ pad 2 hh ++ pad 2 mm)%string.

(** The cursor [t] passes the tests of the loop on dates: it is on or
    before the horizon of two years from [now] and not after UNTIL. *)
Definition within_limits (now : Z) (untilDate : option Date) (t : Z) : Prop :=
  date_le (Some t) (horizon now) = true
  /\ match untilDate with
     | Some u => date_gt (Some t) u = false
     | None => True
     end.

(** The [untilDate] of [setupDateLimits]. *)
Definition untilOf (h : Host) (rule : RRule) : option Date :=
  (setupDateLimits h EmptyString (until rule) (count rule)).1.2.

(** The cursor of the loop of [generateOccurrences] after [k] turns: the
    start of the series advanced [k] times. *)
Definition cursorAfter (h : Host) (eventData : BaseData) (rule : RRule) (k : nat)
    : Date :=
  Nat.iter k
    (fun c => advanceToNextDate h c (default EmptyString (freq rule))
                (interval rule) (byday rule))
    (parse h (bstart eventData)).

(** The character [c] occurs in [s]. *)
Fixpoint occurs (c : ascii) (s : string) : bool :=
  match s with
  | String x s' => Ascii.eqb x c || occurs c s'
  | EmptyString => false
  end.

(** A value such as [20240311,20240312]: several compact dates on one
    EXDATE line, separated by commas. *)
Definition date_list (v : string) : bool := occurs "," v && negb (occurs "-" v).

(** The event without its EXDATE lines. *)
Definition withoutExdates (e : RawEvent) : RawEvent :=
  {| props := props e; lists := delete "EXDATE" (lists e) |}.

(** A daily all-day event of three days with one EXDATE line that lists the
    second and the third day. *)
Definition listedExdates : RawEvent :=
  {| props := list_to_map [("DTSTART", "20240310"); ("RRULE", "FREQ=DAILY;COUNT=3");
                           ("SUMMARY", "Stand-up")];
     lists := {["EXDATE" := ["20240311,20240312"]]} |}.

(** A property line: neither the opening nor the closing line of an event. *)
Definition property_line (line : string) : bool :=
  negb (startsWith "BEGIN:VEVENT" line) && negb (startsWith "END:VEVENT" line).

(** The lines of one event: its property lines between the two markers. *)
Definition eventBlock (body : list string) : list string :=
  ("BEGIN:VEVENT" :: body ++ ["END:VEVENT"])%list.

(** The properties and zones the property lines of a block add up to. *)
Definition blockEvent (body : list string) : EventData :=
  let st :=
    fold_left (fun st line => parseEventProperty line st.1 st.2) body (emptyEvent, ∅) in
  {| event := st.1; timezones := st.2 |}.

(** A daily series after and before the block of its modified instance. *)
Definition exceptionFirst : string :=
"BEGIN:VEVENT
UID:a3
RECURRENCE-ID:20240312
DTSTART:20240312T180000Z
SUMMARY:Changed
END:VEVENT
BEGIN:VEVENT
UID:a3
DTSTART:20240310
RRULE:FREQ=DAILY;COUNT=3
SUMMARY:Daily
END:VEVENT
".
Definition mainFirst : string :=
"BEGIN:VEVENT
UID:a3
DTSTART:20240310
RRULE:FREQ=DAILY;COUNT=3
SUMMARY:Daily
END:VEVENT
BEGIN:VEVENT
UID:a3
RECURRENCE-ID:20240312
DTSTART:20240312T180000Z
SUMMARY:Changed
END:VEVENT
".

(** ** Part II: proofs *)

Example unescape_ex1 : unescapeICS "a\nb\\c" = String "a" (String LF "b\c").
Proof. reflexivity. Qed.

(** *** Text Sanitizer *)

Section Replace2.
Variables a b r : ascii.

Lemma replace2_no_pair (s : string) :
  has_pair a b s = false -> replace2 a b r s = s.
Proof.
  induction s as [|c s' IH]; [reflexivity|].
  destruct s' as [|d s'']; [reflexivity|].
  cbn [has_pair replace2]. intros H.
  apply orb_false_elim in H as [Hhere Hrest].
  rewrite Hhere. f_equal. apply IH, Hrest.
Qed.

(** Induction two characters at a time, the way [replace2] recurses. *)
Lemma string_pair_ind (P : string -> Prop) :
  P EmptyString ->
  (forall c, P (String c EmptyString)) ->
  (forall c d s, P s -> P (String d s) -> P (String c (String d s))) ->
  forall s, P s.
Proof.
  intros H0 H1 H2 s.
  assert (P s /\ forall c, P (String c s)) as [Hs _]; [|exact Hs].
  induction s as [|d s [IHs IHc]]; split; auto.
Qed.

Lemma replace2_cons2 (c d : ascii) (s : string) :
  replace2 a b r (String c (String d s)) =
  if Ascii.eqb c a && Ascii.eqb d b then String r (replace2 a b r s)
  else String c (replace2 a b r (String d s)).
Proof. reflexivity. Qed.

Lemma has_pair_cons2 (c d : ascii) (s : string) :
  has_pair a b (String c (String d s)) =
  (Ascii.eqb c a && Ascii.eqb d b) || has_pair a b (String d s).
Proof. reflexivity. Qed.

Lemma replace2_length_le (s : string) :
  (String.length (replace2 a b r s) <= String.length s)%nat.
Proof.
  induction s as [| c | c d s IH1 IH2] using string_pair_ind; [done..|].
  rewrite replace2_cons2. destruct (Ascii.eqb c a && Ascii.eqb d b).
  - cbn [String.length]. lia.
  - change (S (String.length (replace2 a b r (String d s)))
            <= S (String.length (String d s)))%nat. lia.
Qed.

Lemma replace2_shrinks (s : string) :
  has_pair a b s = true ->
  (String.length (replace2 a b r s) < String.length s)%nat.
Proof.
  induction s as [| c | c d s IH1 IH2] using string_pair_ind; [done..|].
  rewrite replace2_cons2, has_pair_cons2.
  destruct (Ascii.eqb c a && Ascii.eqb d b); intros H.
  - pose proof (replace2_length_le s). cbn [String.length]. lia.
  - cbn [orb] in H. apply IH2 in H.
    change (S (String.length (replace2 a b r (String d s)))
            < S (String.length (String d s)))%nat. lia.
Qed.

Lemma replace2_fixed_iff (s : string) :
  replace2 a b r s = s <-> has_pair a b s = false.
Proof.
  split; [|apply replace2_no_pair].
  intros Heq. destruct (has_pair a b s) eqn:Hp; [|reflexivity].
  apply replace2_shrinks in Hp. rewrite Heq in Hp. lia.
Qed.
End Replace2.

(** Collects the length bound of every [replace2] of the context. *)
Ltac replace2_bounds :=
  repeat match goal with
  | H : context [replace2 ?a ?b ?r ?x] |- _ =>
      lazymatch goal with
      | _ : (String.length (replace2 a b r x) <= String.length x)%nat |- _ => fail
      | _ => pose proof (replace2_length_le a b r x)
      end
  end.

(** One replacement of the chain of [unescapeICS]: it either shortens the
    text, which a fixed point excludes, or leaves it as it is. *)
Ltac unescape_step s Heq b r :=
  let Hp := fresh "Hp" in
  destruct (has_pair BACKSLASH b s) eqn:Hp;
  [ exfalso; apply (replace2_shrinks BACKSLASH b r) in Hp;
    apply (f_equal String.length) in Heq; replace2_bounds; lia
  | rewrite (replace2_no_pair BACKSLASH b r s Hp) in Heq ].

Lemma unescapeICS_nonempty (c : ascii) (s : string) :
  unescapeICS (String c s) =
  replace2 BACKSLASH BACKSLASH BACKSLASH
    (replace2 BACKSLASH DQUOTE DQUOTE
      (replace2 BACKSLASH ";" ";"
        (replace2 BACKSLASH "," ","
          (replace2 BACKSLASH "t" TAB
            (replace2 BACKSLASH "r" CR
              (replace2 BACKSLASH "N" LF
                (replace2 BACKSLASH "n" LF (String c s)))))))).
Proof. reflexivity. Qed.

(** C3, as stated, fails: four backslashes unescape to two, and these two,
    themselves an output of [unescapeICS], unescape to one.  (A string
    literal of Rocq has no escape character: the first one below is four
    backslashes long.) *)
Lemma unescapeICS_twice_differs :
  unescapeICS "\\\\" = "\\" /\ unescapeICS (unescapeICS "\\\\") = "\"
  /\ unescapeICS (unescapeICS "\\\\") <> unescapeICS "\\\\".
Proof. repeat split; discriminate. Qed.

(** C3, amended: [unescapeICS] leaves a text unchanged exactly when the
    text holds none of the eight escape sequences (a backslash followed by
    [n], [N], [r], [t], a comma, a semicolon, a double quote or a
    backslash); hence unescaping twice equals unescaping once exactly when
    the first result holds no escape sequence. *)
Theorem unescapeICS_fixed_iff_escape_free :
  (forall s : string, unescapeICS s = s <-> escape_free s = true)
  /\ (forall x : string,
        unescapeICS (unescapeICS x) = unescapeICS x
        <-> escape_free (unescapeICS x) = true).
Proof.
  assert (Hfix : forall s : string, unescapeICS s = s <-> escape_free s = true).
  { intros [|c s']; [done|]. rewrite unescapeICS_nonempty.
    set (s := String c s'). unfold escape_free, escape_codes.
    cbn [forallb]. rewrite !andb_true_iff, !negb_true_iff. split.
    - intros Heq.
      unescape_step s Heq "n"%char LF.
      unescape_step s Heq "N"%char LF.
      unescape_step s Heq "r"%char CR.
      unescape_step s Heq "t"%char TAB.
      unescape_step s Heq ","%char ","%char.
      unescape_step s Heq ";"%char ";"%char.
      unescape_step s Heq DQUOTE DQUOTE.
      unescape_step s Heq BACKSLASH BACKSLASH.
      done.
    - intros (H1 & H2 & H3 & H4 & H5 & H6 & H7 & H8 & _).
      rewrite (replace2_no_pair _ _ _ _ H1), (replace2_no_pair _ _ _ _ H2),
        (replace2_no_pair _ _ _ _ H3), (replace2_no_pair _ _ _ _ H4),
        (replace2_no_pair _ _ _ _ H5), (replace2_no_pair _ _ _ _ H6),
        (replace2_no_pair _ _ _ _ H7), (replace2_no_pair _ _ _ _ H8).
      reflexivity. }
  split; [exact Hfix|]. intros x. apply Hfix.
Qed.

(** *** The calendar of the Date object *)

Lemma DayFromYear_succ (y : Z) : DayFromYear (y + 1) = DayFromYear y + DaysInYear y.
Proof.
  unfold DayFromYear, DaysInYear, isLeapYear.
  destruct (Z.eqb_spec (y mod 4) 0), (Z.eqb_spec (y mod 100) 0),
    (Z.eqb_spec (y mod 400) 0); cbn; Z.div_mod_to_equations; lia.
Qed.

Lemma DaysInYear_range (y : Z) : 365 <= DaysInYear y <= 366.
Proof. unfold DaysInYear. destruct (isLeapYear y); lia. Qed.

Lemma DayFromYear_lt (y1 y2 : Z) : y1 < y2 -> DayFromYear y1 < DayFromYear y2.
Proof. unfold DayFromYear. intros. Z.div_mod_to_equations. lia. Qed.

(** [YearFromTime t] is the year whose days include [Day t]. *)
Lemma YearFromTime_spec (t : Z) :
  DayFromYear (YearFromTime t) <= Day t < DayFromYear (YearFromTime t + 1).
Proof.
  unfold YearFromTime. set (d := Day t). set (y := 1970 + 400 * d / 146097).
  assert (DayFromYear (y - 1) <= d < DayFromYear (y + 2)) as Hest.
  { unfold DayFromYear, y. Z.div_mod_to_equations. lia. }
  pose proof (DayFromYear_succ (y - 1)) as H1.
  pose proof (DayFromYear_succ (y + 1)) as H2.
  replace (y - 1 + 1) with y in H1 by lia.
  replace (y + 1 + 1) with (y + 2) in H2 by lia.
  destruct (Z.ltb_spec d (DayFromYear y)).
  - replace (y - 1 + 1) with y by lia. lia.
  - destruct (Z.leb_spec (DayFromYear (y + 1)) d).
    + replace (y + 1 + 1) with (y + 2) by lia. lia.
    + lia.
Qed.

Lemma YearFromTime_unique (t y : Z) :
  DayFromYear y <= Day t < DayFromYear (y + 1) -> YearFromTime t = y.
Proof.
  intros Hy. pose proof (YearFromTime_spec t) as Hs.
  destruct (Z.lt_trichotomy (YearFromTime t) y) as [Hlt | [Heq | Hgt]]; [|done|].
  - assert (DayFromYear (YearFromTime t + 1) <= DayFromYear y).
    { destruct (Z.eq_dec (YearFromTime t + 1) y) as [->|]; [lia|].
      apply Z.lt_le_incl, DayFromYear_lt. lia. }
    lia.
  - assert (DayFromYear (y + 1) <= DayFromYear (YearFromTime t)).
    { destruct (Z.eq_dec (y + 1) (YearFromTime t)) as [->|]; [lia|].
      apply Z.lt_le_incl, DayFromYear_lt. lia. }
    lia.
Qed.

Lemma DayWithinYear_range (t : Z) :
  0 <= DayWithinYear t < DaysInYear (YearFromTime t).
Proof.
  unfold DayWithinYear. pose proof (YearFromTime_spec t).
  pose proof (DayFromYear_succ (YearFromTime t)). lia.
Qed.

Lemma month_search_range (leap : bool) (d : Z) (n : nat) :
  0 <= month_search leap d n <= Z.of_nat n.
Proof.
  induction n as [|n IH]; [cbn; lia|].
  cbn [month_search]. destruct (_ <=? _); lia.
Qed.

Lemma MonthFromTime_range (t : Z) : 0 <= MonthFromTime t <= 11.
Proof. unfold MonthFromTime. pose proof (month_search_range (InLeapYear t) (DayWithinYear t) 11). lia. Qed.

(** The day number is recovered from the three calendar fields: this is
    what makes [setDate(getDate() + n)] a shift by [n] days. *)
Lemma MakeDay_fields (t n : Z) :
  MakeDay (YearFromTime t) (MonthFromTime t) (DateFromTime t + n) = Day t + n.
Proof.
  pose proof (MonthFromTime_range t) as Hm.
  unfold MakeDay, DateFromTime, DayWithinYear, InLeapYear.
  rewrite (Z.div_small (MonthFromTime t) 12), (Z.mod_small (MonthFromTime t) 12) by lia.
  rewrite Z.add_0_r. lia.
Qed.

Lemma Day_TimeWithinDay (t : Z) : MakeDate (Day t) (TimeWithinDay t) = t.
Proof.
  unfold MakeDate, Day, TimeWithinDay, msPerDay.
  Z.div_mod_to_equations. lia.
Qed.

Section FixedOffset.
Context (h : Host) (c : Z).
Hypothesis Hfixed : forall (t : Z) (isUTC : bool), LocalTZA h t isUTC = c.

Lemma LocalTime_fixed (t : Z) : LocalTime h t = t + c.
Proof. unfold LocalTime. by rewrite Hfixed. Qed.

Lemma UTC_fixed (t : Z) : UTC h t = t - c.
Proof. unfold UTC. by rewrite Hfixed. Qed.

(** [d.setDate(d.getDate() + n)] moves a valid date by exactly [n] days. *)
Lemma setDate_getDate (t n : Z) :
  setDate h (Some t) (nadd (getDate h (Some t)) (Some n))
  = TimeClip (t + n * msPerDay).
Proof.
  cbn. rewrite MakeDay_fields, UTC_fixed, LocalTime_fixed. f_equal.
  pose proof (Day_TimeWithinDay (t + c)) as Hd. unfold MakeDate in *. lia.
Qed.
End FixedOffset.

(** *** Patterns and digits *)

Lemma append_cons (c : ascii) (s1 s2 : string) :
  (String c s1 ++ s2)%string = String c (s1 ++ s2)%string.
Proof. reflexivity. Qed.

Lemma append_nil (s : string) : (EmptyString ++ s)%string = s.
Proof. reflexivity. Qed.

Lemma append_length (s1 s2 : string) :
  String.length (s1 ++ s2)%string = (String.length s1 + String.length s2)%nat.
Proof. induction s1 as [|c s1 IH]; [done|]. rewrite append_cons. cbn. by rewrite IH. Qed.

Lemma append_assoc (s1 s2 s3 : string) :
  ((s1 ++ s2) ++ s3)%string = (s1 ++ (s2 ++ s3))%string.
Proof. induction s1 as [|c s1 IH]; [done|]. rewrite !append_cons. by rewrite IH. Qed.

Lemma matches_length (p : list Regex.item) (s : string) :
  Regex.matches p s = true -> String.length s = length p.
Proof.
  revert s.
  induction p as [|i p IH]; intros [|c s];
    cbn [Regex.matches String.length length]; try done.
  intros [_ H]%andb_true_iff. f_equal. by apply IH.
Qed.

Lemma matches_app (p1 p2 : list Regex.item) (s1 s2 : string) :
  Regex.matches p1 s1 = true -> Regex.matches p2 s2 = true ->
  Regex.matches (p1 ++ p2) (s1 ++ s2)%string = true.
Proof.
  revert s1.
  induction p1 as [|i p1 IH]; intros [|c s1];
    rewrite ?append_cons, ?append_nil; cbn [Regex.matches app]; try done.
  intros [Hc H1]%andb_true_iff H2. rewrite Hc. by apply IH.
Qed.

Lemma matches_other_length (p q : list Regex.item) (s : string) :
  Regex.matches p s = true -> length p <> length q -> Regex.matches q s = false.
Proof.
  intros Hp Hne. destruct (Regex.matches q s) eqn:Hq; [|done].
  apply matches_length in Hp, Hq. congruence.
Qed.

Lemma is_digit_digit_char (v : Z) : 0 <= v <= 9 -> is_digit (digit_char v) = true.
Proof.
  intros Hv.
  assert (v = 0 \/ v = 1 \/ v = 2 \/ v = 3 \/ v = 4 \/ v = 5 \/ v = 6
          \/ v = 7 \/ v = 8 \/ v = 9) as Hcases by lia.
  repeat destruct Hcases as [-> | Hcases]; try reflexivity. by subst.
Qed.

Lemma digit_val_range (c : ascii) : is_digit c = true -> 0 <= digit_val c <= 9.
Proof.
  unfold is_digit, digit_val.
  intros [H1 H2]%andb_true_iff. apply Nat.leb_le in H1, H2. lia.
Qed.

Lemma pad_length (n : nat) (v : Z) : String.length (pad n v) = n.
Proof.
  revert v. induction n as [|n IH]; intros v; [done|].
  cbn [pad]. rewrite append_length, IH. cbn. lia.
Qed.

Lemma pad_matches (n : nat) (v : Z) :
  Regex.matches (replicate n Regex.D) (pad n v) = true.
Proof.
  revert v. induction n as [|n IH]; intros v; [done|].
  cbn [pad]. replace (replicate (S n) Regex.D) with (replicate n Regex.D ++ [Regex.D])%list.
  - apply matches_app; [apply IH|]. cbn. rewrite is_digit_digit_char; [done|].
    pose proof (Z.mod_pos_bound v 10). lia.
  - clear. induction n as [|n IH]; [done|]. cbn. by rewrite IH.
Qed.

(** [strip_ms] removes the milliseconds of a [toISOString] text. *)
Lemma strip_ms_suffix (x : string) (v : Z) :
  strip_ms (x ++ "." ++ pad 3 v ++ "Z")%string = (x ++ "Z")%string.
Proof.
  assert (Regex.matches Regex.ms_suffix ("." ++ pad 3 v ++ "Z")%string = true) as Hm.
  { apply (matches_app [Regex.C "."] [Regex.D; Regex.D; Regex.D; Regex.C "Z"] ".");
      [done|].
    apply (matches_app (replicate 3 Regex.D) [Regex.C "Z"]); [apply pad_matches|done]. }
  induction x as [|c x IH].
  - change (EmptyString ++ "." ++ pad 3 v ++ "Z")%string
      with ("." ++ pad 3 v ++ "Z")%string.
    destruct ("." ++ pad 3 v ++ "Z")%string eqn:E; [done|].
    cbn [strip_ms]. by rewrite Hm.
  - change (String c x ++ "." ++ pad 3 v ++ "Z")%string
      with (String c (x ++ "." ++ pad 3 v ++ "Z"))%string.
    cbn [strip_ms]. rewrite IH.
    destruct (Regex.matches Regex.ms_suffix (String c (x ++ "." ++ pad 3 v ++ "Z"))) eqn:E;
      [|done].
    apply matches_length in E, Hm. cbn [String.length] in E.
    rewrite append_length in E. cbn [length Regex.ms_suffix] in *.
    change ("." ++ pad 3 v ++ "Z")%string with (String "." (pad 3 v ++ "Z")) in *.
    cbn [String.length] in *. lia.
Qed.

Lemma toISOString_strip (t : Z) :
  strip_ms <$> toISOString (Some t)
  = Ret (isoDateString t ++ "T" ++ isoClockString t ++ "Z")%string.
Proof.
  cbn [toISOString fmap outcome_fmap]. f_equal.
  pose proof (strip_ms_suffix (isoDateString t ++ "T" ++ isoClockString t)
                              (msFromTime t)) as H.
  rewrite !append_assoc in H. exact H.
Qed.

(** *** Date/Timezone Normalizer *)

Lemma matches_cons (i : Regex.item) (p : list Regex.item) (c : ascii) (s : string) :
  Regex.matches (i :: p) (String c s) = Regex.item_ok i c && Regex.matches p s.
Proof. reflexivity. Qed.

(** Splits a string that matches a fixed pattern into its characters. *)
Ltac split_matches H :=
  repeat lazymatch type of H with
  | Regex.matches (_ :: _) ?s = true =>
      destruct s as [|? s]; [discriminate H|];
      rewrite matches_cons in H;
      let Hc := fresh "Hc" in
      apply andb_true_iff in H as [Hc H];
      cbn [Regex.item_ok] in Hc;
      try (apply Ascii.eqb_eq in Hc; subst)
  | Regex.matches [] ?s = true => destruct s; [clear H|discriminate H]
  end.

Ltac use_digits :=
  repeat match goal with
  | H : is_digit _ = true |- _ => rewrite H; clear H
  end.

Ltac eval_strings :=
  cbn [substr take drop]; rewrite ?append_cons, ?append_nil.

Section Normalizer.
Context (h : Host).

Lemma formatDateToISO_absent (tz : option string) :
  formatDateToISO h None tz = Ret EmptyString
  /\ formatDateToISO h (Some EmptyString) tz = Ret EmptyString.
Proof. done. Qed.

Lemma formatDateToISO_utc (ds : string) (tz : option string) :
  Regex.matches Regex.compact_utc ds = true ->
  exists s, formatDateToISO h (Some ds) tz = Ret s
            /\ Regex.matches Regex.iso_instant s = true.
Proof.
  intros H. pose proof H as H0.
  unfold formatDateToISO. rewrite H0.
  unfold Regex.compact_utc, Regex.d8, Regex.d6 in H. cbn [app] in H.
  split_matches H. cbn [truthy negb].
  eexists. split; [reflexivity|]. eval_strings.
  cbn [Regex.matches Regex.iso_instant Regex.iso_date app Regex.item_ok].
  use_digits. reflexivity.
Qed.

Lemma formatDateToISO_date (ds : string) (tz : option string) :
  Regex.matches Regex.compact_date ds = true ->
  tz <> Some "FULL_DAY_END" ->
  exists s, formatDateToISO h (Some ds) tz = Ret s
            /\ Regex.matches Regex.iso_date s = true.
Proof.
  intros H Htz. pose proof H as H0.
  unfold formatDateToISO. rewrite H0.
  rewrite (matches_other_length _ Regex.compact_utc _ H0) by (cbn; lia).
  rewrite (matches_other_length _ Regex.compact_local _ H0) by (cbn; lia).
  rewrite bool_decide_eq_false_2 by done.
  unfold Regex.compact_date, Regex.d8 in H.
  split_matches H. cbn [truthy negb].
  eexists. split; [reflexivity|]. eval_strings.
  cbn [Regex.matches Regex.iso_date app Regex.item_ok].
  use_digits. reflexivity.
Qed.

(** A compact local datetime without a zone keeps its local time: the
    result has no [Z]. *)
Lemma formatDateToISO_local_no_zone (ds : string) (tz : option string) :
  Regex.matches Regex.compact_local ds = true ->
  opt_truthy tz = false ->
  exists s, formatDateToISO h (Some ds) tz = Ret s
            /\ Regex.matches Regex.iso_local s = true
            /\ canonical s = false.
Proof.
  intros H Htz. pose proof H as H0.
  unfold formatDateToISO. rewrite H0.
  rewrite (matches_other_length _ Regex.compact_utc _ H0) by (cbn; lia).
  assert (forall s : string,
            (match tz with
             | Some z => if truthy z then try_catch (convertZone h s z) (Ret s) else Ret s
             | None => Ret s
             end) = Ret s) as ->.
  { intros s. destruct tz as [z|]; [|done]. cbn in Htz. by rewrite Htz. }
  unfold Regex.compact_local, Regex.d8, Regex.d6 in H. cbn [app] in H.
  split_matches H. cbn [truthy negb].
  eexists. split; [reflexivity|]. eval_strings.
  assert (forall s, Regex.matches Regex.iso_local s = true -> canonical s = false)
    as Hcanon.
  { intros s Hs. unfold canonical.
    rewrite (matches_other_length _ Regex.iso_date _ Hs) by (cbn; lia).
    by rewrite (matches_other_length _ Regex.iso_instant _ Hs) by (cbn; lia). }
  match goal with |- ?A /\ _ => assert A as Hl end; [|split; [exact Hl|by apply Hcanon]].
  cbn [Regex.matches Regex.iso_local Regex.iso_date app Regex.item_ok].
  use_digits. reflexivity.
Qed.

(** With a zone, the same input gives the converted instant, or the local
    time again when the conversion throws. *)
Lemma formatDateToISO_local_zone (ds tz : string) :
  Regex.matches Regex.compact_local ds = true ->
  truthy tz = true ->
  exists s, formatDateToISO h (Some ds) (Some tz) = Ret s
            /\ (Regex.matches Regex.iso_local s = true
                \/ exists t : Z,
                     s = (isoDateString t ++ "T" ++ isoClockString t ++ "Z")%string).
Proof.
  intros H Htz.
  destruct (formatDateToISO_local_no_zone ds None H eq_refl) as (s0 & Hs0 & Hl & _).
  revert Hs0. unfold formatDateToISO.
  destruct (negb (truthy ds)); [intros [= <-]; by destruct (matches_length _ _ Hl)|].
  rewrite (matches_other_length _ Regex.compact_utc _ H) by (cbn; lia).
  rewrite H, Htz. intros [= Hs0]. rewrite Hs0.
  assert (forall d : Date,
            strip_ms <$> toISOString d = Throws
            \/ exists t, strip_ms <$> toISOString d
                 = Ret (isoDateString t ++ "T" ++ isoClockString t ++ "Z")%string)
    as Hiso.
  { intros [t|]; [right; exists t; apply toISOString_strip|by left]. }
  assert (convertZone h s0 tz = Throws
          \/ exists t, convertZone h s0 tz
               = Ret (isoDateString t ++ "T" ++ isoClockString t ++ "Z")%string)
    as [-> | [t ->]].
  { unfold convertZone. destruct (Regex.matches Regex.gmt_offset tz); [apply Hiso|].
    destruct (toLocaleString h (parse h s0) "UTC") as [u| |] eqn:Hu; cbn; [|by left|].
    - destruct (toLocaleString h (parse h s0) tz) as [l| |] eqn:Hloc; cbn; [|by left|].
      + apply Hiso.
      + unfold toLocaleString in Hloc. by repeat case_match.
    - unfold toLocaleString in Hu. by repeat case_match. }
  - exists s0. split; [done|by left].
  - eexists. split; [done|]. right. by exists t.
Qed.

Lemma formatDateToISO_other (ds : string) (tz : option string) :
  truthy ds = true ->
  Regex.matches Regex.compact_utc ds = false ->
  Regex.matches Regex.compact_local ds = false ->
  Regex.matches Regex.compact_date ds = false ->
  formatDateToISO h (Some ds) tz = Ret ds.
Proof. intros H0 H1 H2 H3. unfold formatDateToISO. by rewrite H0, H1, H2, H3. Qed.

End Normalizer.

(** *** What [toISOString] prints *)

Lemma all_chars_app (p : ascii -> bool) (s1 s2 : string) :
  all_chars p (s1 ++ s2)%string = all_chars p s1 && all_chars p s2.
Proof.
  induction s1 as [|c s1 IH]; [done|].
  rewrite append_cons. cbn [all_chars]. by rewrite IH, andb_assoc.
Qed.

Lemma before_app (sep : ascii) (x r : string) :
  all_chars (fun c => negb (Ascii.eqb c sep)) x = true ->
  before sep (x ++ String sep r)%string = x.
Proof.
  induction x as [|c x IH]; rewrite ?append_cons, ?append_nil; cbn [before all_chars].
  - by rewrite Ascii.eqb_refl.
  - intros [Hc Hx]%andb_true_iff. apply negb_true_iff in Hc. rewrite Hc.
    f_equal. by apply IH.
Qed.

Lemma date_char_not_T (s : string) :
  all_chars date_char s = true ->
  all_chars (fun c => negb (Ascii.eqb c "T")) s = true.
Proof.
  induction s as [|c s IH]; [done|]. cbn [all_chars].
  intros [Hc Hs]%andb_true_iff. rewrite IH by done. rewrite andb_true_r.
  destruct (Ascii.eqb_spec c "T") as [->|]; [done|done].
Qed.

Lemma pad_date_chars (n : nat) (v : Z) : all_chars date_char (pad n v) = true.
Proof.
  revert v. induction n as [|n IH]; intros v; [done|].
  cbn [pad]. rewrite all_chars_app, IH. cbn [all_chars andb].
  unfold date_char. rewrite is_digit_digit_char; [done|].
  pose proof (Z.mod_pos_bound v 10). lia.
Qed.

Lemma isoDateString_chars (t : Z) : all_chars date_char (isoDateString t) = true.
Proof.
  unfold isoDateString, year_string.
  repeat case_match;
    rewrite ?all_chars_app; cbn [all_chars]; rewrite ?pad_date_chars; done.
Qed.

(** [d.toISOString().split('T')[0]] *)
Lemma toISOString_date_part (t : Z) :
  before "T" <$> toISOString (Some t) = Ret (isoDateString t).
Proof.
  cbn [toISOString fmap outcome_fmap]. f_equal.
  change (isoDateString t ++ "T" ++ isoClockString t ++ "." ++ pad 3 (msFromTime t) ++ "Z")%string
    with (isoDateString t ++ String "T" (isoClockString t ++ "." ++ pad 3 (msFromTime t) ++ "Z"))%string.
  apply before_app, date_char_not_T, isoDateString_chars.
Qed.

(** Within the years 0000 to 9999 the text of an instant, without its
    milliseconds, has the canonical form. *)
Lemma iso_instant_canonical (t : Z) :
  0 <= YearFromTime t <= 9999 ->
  Regex.matches Regex.iso_instant
    (isoDateString t ++ "T" ++ isoClockString t ++ "Z")%string = true.
Proof.
  intros Hy. unfold isoDateString, isoClockString, year_string.
  replace ((0 <=? YearFromTime t) && (YearFromTime t <=? 9999)) with true by lia.
  rewrite !append_assoc.
  change Regex.iso_instant with
    (replicate 4 Regex.D ++ [Regex.C "-"] ++ replicate 2 Regex.D ++ [Regex.C "-"]
     ++ replicate 2 Regex.D ++ [Regex.C "T"] ++ replicate 2 Regex.D
     ++ [Regex.C ":"] ++ replicate 2 Regex.D ++ [Regex.C ":"]
     ++ replicate 2 Regex.D ++ [Regex.C "Z"])%list.
  repeat (apply matches_app; [first [apply pad_matches | reflexivity]|]).
  reflexivity.
Qed.

Lemma iso_date_canonical (t : Z) :
  0 <= YearFromTime t <= 9999 ->
  Regex.matches Regex.iso_date (isoDateString t) = true.
Proof.
  intros Hy. unfold isoDateString, year_string.
  replace ((0 <=? YearFromTime t) && (YearFromTime t <=? 9999)) with true by lia.
  change Regex.iso_date with
    (replicate 4 Regex.D ++ [Regex.C "-"] ++ replicate 2 Regex.D ++ [Regex.C "-"]
     ++ replicate 2 Regex.D)%list.
  repeat (apply matches_app; [first [apply pad_matches | reflexivity]|]).
  apply pad_matches.
Qed.

(** *** Parsing a date-only text *)

Lemma read_digits_cons (n : nat) (acc : Z) (c : ascii) (s : string) :
  is_digit c = true ->
  read_digits (S n) acc (String c s) = read_digits n (10 * acc + digit_val c) s.
Proof. intros H. cbn [read_digits]. by rewrite H. Qed.

Lemma read_year_digit (c : ascii) (s : string) :
  is_digit c = true -> read_year (String c s) = read_digits 4 0 (String c s).
Proof.
  destruct c as [[] [] [] [] [] [] [] []]; intros H;
    try (vm_compute in H; discriminate H); reflexivity.
Qed.

Lemma read_digits_0 (acc : Z) (s : string) : read_digits 0 acc s = Some (acc, s).
Proof. reflexivity. Qed.

Lemma read_char_same (c : ascii) (s : string) : read_char c (String c s) = Some s.
Proof. cbn. by rewrite Ascii.eqb_refl. Qed.

Lemma monthStart_range (leap : bool) (m : Z) : 0 <= monthStart leap m <= 335.
Proof. unfold monthStart. destruct leap; repeat case_match; lia. Qed.

Lemma parseISO_date_only (h : Host) (y1 y2 y3 y4 m1 m2 d1 d2 : ascii) :
  is_digit y1 = true -> is_digit y2 = true -> is_digit y3 = true ->
  is_digit y4 = true -> is_digit m1 = true -> is_digit m2 = true ->
  is_digit d1 = true -> is_digit d2 = true ->
  parseISO h (String y1 (String y2 (String y3 (String y4 (String "-"
             (String m1 (String m2 (String "-" (String d1 (String d2 EmptyString))))))))))
  = if legal_date (digits2 m1 m2) (digits2 d1 d2)
    then Some (TimeClip (MakeDate (MakeDay (digits4 y1 y2 y3 y4) (digits2 m1 m2 - 1)
                                           (digits2 d1 d2)) 0))
    else None.
Proof.
  intros. unfold parseISO, read_date.
  rewrite read_year_digit by done.
  rewrite !read_digits_cons, read_digits_0 by done.
  cbn [mbind option_bind]. rewrite read_char_same.
  rewrite !read_digits_cons, read_digits_0 by done.
  cbn [mbind option_bind]. rewrite read_char_same.
  rewrite !read_digits_cons, read_digits_0 by done.
  cbn [mbind option_bind]. unfold digits2, digits4.
  by destruct (legal_date _ _).
Qed.

Lemma MakeDay_in_range (y m d : Z) :
  0 <= y <= 9999 -> legal_date m d = true ->
  Z.abs (MakeDate (MakeDay y (m - 1) d - 1) 0) <= maxTime
  /\ Z.abs (MakeDate (MakeDay y (m - 1) d) 0) <= maxTime.
Proof.
  intros Hy Hl. unfold legal_date in Hl.
  unfold MakeDate, MakeDay, msPerDay, maxTime.
  rewrite (Z.div_small (m - 1) 12), (Z.mod_small (m - 1) 12) by lia.
  pose proof (monthStart_range (isLeapYear (y + 0)) (m - 1)).
  unfold DayFromYear. Z.div_mod_to_equations. lia.
Qed.

Lemma digits4_range (a b c d : ascii) :
  is_digit a = true -> is_digit b = true -> is_digit c = true ->
  is_digit d = true -> 0 <= digits4 a b c d <= 9999.
Proof.
  intros Ha Hb Hc Hd. apply digit_val_range in Ha, Hb, Hc, Hd.
  unfold digits4. lia.
Qed.

Lemma TimeClip_in_range (t : Z) : Z.abs t <= maxTime -> TimeClip t = Some t.
Proof. intros H. unfold TimeClip. by rewrite (proj2 (Z.leb_le _ _) H). Qed.

(** A date-only end boundary: the day before, as the host prints it. *)
Lemma formatDateToISO_full_day_end (h : Host) (ds : string) (y m d : Z) :
  fixed_offset h ->
  Regex.matches Regex.compact_date ds = true ->
  compactDateFields ds = Some (y, m, d) ->
  legal_date m d = true ->
  formatDateToISO h (Some ds) (Some "FULL_DAY_END")
  = Ret (isoDateString (dayStart y m d - msPerDay)).
Proof.
  intros [c Hfix] H Hf Hl. pose proof H as H0.
  unfold formatDateToISO. rewrite H0.
  rewrite (matches_other_length _ Regex.compact_utc _ H0) by (cbn; lia).
  rewrite (matches_other_length _ Regex.compact_local _ H0) by (cbn; lia).
  rewrite bool_decide_eq_true_2 by done.
  unfold Regex.compact_date, Regex.d8 in H.
  split_matches H. cbn [truthy negb]. eval_strings.
  unfold compactDateFields in Hf.
  rewrite !read_digits_cons, read_digits_0 in Hf by done. cbn [mbind option_bind] in Hf.
  rewrite !read_digits_cons, read_digits_0 in Hf by done. cbn [mbind option_bind] in Hf.
  rewrite !read_digits_cons, read_digits_0 in Hf by done. cbn [mbind option_bind] in Hf.
  injection Hf as Hy Hm Hd.
  unfold parse. rewrite parseISO_date_only by done.
  fold (digits4 a a0 a1 a2) in Hy. fold (digits2 a3 a4) in Hm. fold (digits2 a5 a6) in Hd.
  rewrite Hy, Hm, Hd, Hl.
  assert (0 <= y <= 9999) as Hyr by (subst y; by apply digits4_range).
  destruct (MakeDay_in_range y m d Hyr Hl) as [Hlo Hhi].
  rewrite (TimeClip_in_range _ Hhi).
  rewrite (setDate_getDate h c Hfix).
  assert (MakeDate (MakeDay y (m - 1) d) 0 + -1 * msPerDay
          = MakeDate (MakeDay y (m - 1) d - 1) 0) as -> by (unfold MakeDate; lia).
  rewrite (TimeClip_in_range _ Hlo), toISOString_date_part.
  do 2 f_equal. unfold dayStart, MakeDate. lia.
Qed.




(** *** Deletion Classifier *)

Lemma cancelled_deleted (e : RawEvent) : cancelled e = true -> isEventDeleted e = true.
Proof.
  unfold cancelled, isEventDeleted, has_prop. cbv zeta beta.
  destruct (props e !! "STATUS") as [s|]; [|done].
  intros Hs. cbn [opt_truthy default id]. rewrite Hs.
  apply bool_decide_eq_true_1 in Hs. by destruct s.
Qed.

Lemma foldM_skip {A B} (g : A -> outcome (list B)) (skip : A -> bool)
    (l : list A) (acc : list B) :
  (forall x, skip x = true -> g x = Ret []) ->
  foldM (fun events x => occ ← g x; Ret (events ++ occ)%list) l acc
  = foldM (fun events x => occ ← g x; Ret (events ++ occ)%list)
          (List.filter (fun x => negb (skip x)) l) acc.
Proof.
  intros Hskip. revert acc. induction l as [|x l IH]; intros acc; [done|].
  cbn [List.filter foldM]. destruct (skip x) eqn:Hx; cbn [negb].
  - rewrite (Hskip x Hx). cbn. rewrite app_nil_r. apply IH.
  - cbn [foldM]. destruct (g x); cbn; [apply IH|done..].
Qed.

(** C6: a base event whose STATUS is CANCELLED, in any letter case, adds no
    occurrence, with or without an RRULE and whatever fuel the expansion
    is given; the result of [parseICS] is the one computed from the
    base events that are not cancelled. *)
Theorem cancelled_event_emits_nothing (h : Host) (now : Z) (fuel : nat) :
  (forall (exceptionsByUid : gmap string (list EventData)) (ed : EventData),
     cancelled (event ed) = true ->
     eventOccurrences h now fuel exceptionsByUid ed = Ret [])
  /\ (forall icsData : string,
        parseICS h now fuel icsData
        = let '(mains, exceptionsByUid) :=
            parseEventsFromLines (unfoldICSLines icsData) in
          foldM (fun events ed =>
                   occ ← eventOccurrences h now fuel exceptionsByUid ed;
                   Ret (events ++ occ)%list)
                (List.filter (fun ed => negb (cancelled (event ed))) mains) []).
Proof.
  assert (forall exc ed, cancelled (event ed) = true ->
                         eventOccurrences h now fuel exc ed = Ret []) as Hzero.
  { intros exc ed Hc. unfold eventOccurrences. by rewrite (cancelled_deleted _ Hc). }
  split; [exact Hzero|].
  intros icsData. unfold parseICS.
  destruct (parseEventsFromLines (unfoldICSLines icsData)) as [mains exc].
  apply (foldM_skip (eventOccurrences h now fuel exc) (fun ed => cancelled (event ed))).
  intros ed. apply Hzero.
Qed.

Lemma cancelled_event_emits_nothing_witness :
  eventOccurrences utcHost 1704067200000 100 ∅ cancelledSeries = Ret [].
Proof.
  apply (proj1 (cancelled_event_emits_nothing utcHost 1704067200000 100)).
  reflexivity.
Defined.

(** *** The collaborator boundary *)



(** *** The stable sort *)

Section SortFacts.
Context {A : Type} (compare : A -> A -> option Z).

Lemma sort_insert_perm (x : A) (l : list A) :
  Permutation (sort_insert compare x l) (x :: l).
Proof.
  induction l as [|y l IH]; [done|].
  cbn [sort_insert]. destruct (comes_after compare x y); [|done].
  rewrite IH. apply perm_swap.
Qed.

Lemma stable_sort_perm (l : list A) : Permutation (stable_sort compare l) l.
Proof.
  induction l as [|x l IH]; [done|].
  cbn [stable_sort]. rewrite sort_insert_perm. by constructor.
Qed.

Lemma extract_perm (n : nat) (x : A) (l : list A) :
  Permutation ((extract n x l).1 :: (extract n x l).2) (x :: l).
Proof.
  revert x l. induction n as [|n IH]; intros x [|y l]; cbn [extract]; try done.
  specialize (IH y l). destruct (extract n y l) as [z r]. cbn [fst snd] in *.
  rewrite perm_swap. by constructor.
Qed.

Lemma permute_perm (code : list nat) (l : list A) : Permutation (permute code l) l.
Proof.
  revert l. induction code as [|n code IH]; intros [|x l]; cbn [permute]; try done.
  pose proof (extract_perm n x l) as He.
  destruct (extract n x l) as [z r]. cbn [fst snd] in He.
  rewrite <- He. constructor. apply IH.
Qed.

Lemma extract_at (x z : A) (l l1 l2 : list A) :
  x :: l = (l1 ++ z :: l2)%list -> extract (length l1) x l = (z, (l1 ++ l2)%list).
Proof.
  revert x l. induction l1 as [|a l1 IH]; intros x l; cbn [app length].
  - intros [= -> ->]. by destruct l2.
  - intros [= -> ->].
    destruct (l1 ++ z :: l2)%list as [|y l'] eqn:E; [by destruct l1|].
    cbn [extract]. by rewrite (IH y l' eq_refl).
Qed.

(** Every order of the elements is the one of some code. *)
Lemma permute_complete (l l' : list A) :
  Permutation l' l -> exists code, permute code l = l'.
Proof.
  revert l. induction l' as [|z r IH]; intros l Hp.
  - apply Permutation_nil_l in Hp as ->. by exists [].
  - assert (z ∈ l) as Hin by (rewrite <- Hp; apply list_elem_of_here).
    apply list_elem_of_split in Hin as (l1 & l2 & ->).
    apply Permutation_cons_app_inv in Hp.
    destruct (IH _ Hp) as [code Hcode].
    exists (length l1 :: code).
    destruct (l1 ++ z :: l2)%list as [|x l0] eqn:El; [by destruct l1|].
    cbn [permute]. rewrite (extract_at x z l0 l1 l2 (eq_sym El)). by rewrite Hcode.
Qed.

Lemma arraySort_perm (h : Host) (l : list A) : Permutation (arraySort h compare l) l.
Proof.
  unfold arraySort. destruct (consistent compare l);
    [apply stable_sort_perm|apply permute_perm].
Qed.

(** Stability: elements that [compare] never puts strictly after one
    another keep their order. *)
Section Stable.
Context (Q : A -> bool).
Hypothesis Hclass :
  forall a b, Q a = true -> Q b = true -> comes_after compare a b = false.

Lemma sort_insert_stable (x : A) (l : list A) :
  List.filter Q (sort_insert compare x l) = List.filter Q (x :: l).
Proof.
  induction l as [|y l IH]; [done|].
  cbn [sort_insert]. destruct (comes_after compare x y) eqn:Hxy; [|done].
  cbn [List.filter] in *. rewrite IH.
  destruct (Q x) eqn:Hx, (Q y) eqn:Hy; try done.
  by rewrite (Hclass x y Hx Hy) in Hxy.
Qed.

Lemma stable_sort_stable (l : list A) :
  List.filter Q (stable_sort compare l) = List.filter Q l.
Proof.
  induction l as [|x l IH]; [done|].
  cbn [stable_sort]. rewrite sort_insert_stable. cbn [List.filter]. by rewrite IH.
Qed.
End Stable.

(** Order: no element is directly followed by one it comes strictly
    after. *)
Section Ordered.
Hypothesis Hanti :
  forall a b, comes_after compare a b = true -> comes_after compare b a = false.

Local Abbreviation R := (fun a b => comes_after compare a b = false).

Lemma sort_insert_HdRel (y x : A) (l : list A) :
  R y x -> HdRel R y l -> HdRel R y (sort_insert compare x l).
Proof.
  intros Hyx Hl. destruct l as [|z l]; cbn [sort_insert]; [by constructor|].
  apply HdRel_inv in Hl. destruct (comes_after compare x z); by constructor.
Qed.

Lemma sort_insert_sorted (x : A) (l : list A) :
  Sorted R l -> Sorted R (sort_insert compare x l).
Proof.
  induction 1 as [|y l Hs IH Hhd]; cbn [sort_insert]; [by repeat constructor|].
  destruct (comes_after compare x y) eqn:Hxy.
  - constructor; [done|]. apply sort_insert_HdRel; [|done]. by apply Hanti.
  - constructor; [by constructor|]. by constructor.
Qed.

Lemma stable_sort_sorted (l : list A) : Sorted R (stable_sort compare l).
Proof.
  induction l as [|x l IH]; cbn [stable_sort]; [constructor|].
  by apply sort_insert_sorted.
Qed.
End Ordered.
End SortFacts.

(** *** The loop of generateOccurrences *)

Section Loop.
Context (h : Host) (now : Z) (eventData : BaseData) (freq' : string)
  (interval' : option Z) (byday' : option (list string))
  (durationMs : option Z) (untilDate : option Date) (maxOccurrences : Z)
  (exdates : list string) (exceptionMap : gmap string EventData).

Local Abbreviation loop :=
  (occurrencesLoop h now eventData freq' interval' byday' durationMs untilDate
     maxOccurrences exdates exceptionMap).
Local Abbreviation advance cur := (advanceToNextDate h cur freq' interval' byday').
Local Abbreviation create cur :=
  (createOccurrence h cur eventData durationMs exdates exceptionMap).
Local Abbreviation in_bounds := (in_bounds now untilDate maxOccurrences).

Lemma loop_stop (fuel : nat) (cur : Date) (cnt : Z) (events : list Occurrence) :
  in_bounds cur cnt = false -> loop (S fuel) cur cnt events = Ret events.
Proof.
  unfold in_bounds. cbn [occurrencesLoop].
  destruct ((cnt <? maxOccurrences) && date_le cur (horizon now)); [|done].
  cbn [andb]. intros Hu%negb_false_iff. by rewrite Hu.
Qed.

Lemma loop_guard (fuel : nat) (cur : Date) (cnt : Z) (events : list Occurrence) :
  in_bounds cur cnt = true ->
  loop (S fuel) cur cnt events =
  '(events', cnt') ←
    (if shouldIncludeDate h cur freq' byday' then
       occurrence ← create cur;
       match occurrence with
       | Some o => Ret ((events ++ [o])%list, cnt + 1)
       | None => Ret (events, cnt)
       end
     else Ret (events, cnt));
  loop fuel (advance cur) cnt' events'.
Proof.
  unfold in_bounds. intros [[Hc Hh]%andb_true_iff Hu%negb_true_iff]%andb_true_iff.
  cbn [occurrencesLoop]. by rewrite Hc, Hh, Hu.
Qed.

(** An occurrence is appended and counted. *)
Lemma loop_emit (fuel : nat) (cur : Date) (cnt : Z) (events : list Occurrence)
    (o : Occurrence) :
  in_bounds cur cnt = true ->
  shouldIncludeDate h cur freq' byday' = true ->
  create cur = Ret (Some o) ->
  loop (S fuel) cur cnt events
  = loop fuel (advance cur) (cnt + 1) (events ++ [o])%list.
Proof. intros Hb Hi Hc. rewrite loop_guard by done. by rewrite Hi, Hc. Qed.

(** A dropped or skipped date leaves the list and the count as they are. *)
Lemma loop_drop (fuel : nat) (cur : Date) (cnt : Z) (events : list Occurrence) :
  in_bounds cur cnt = true ->
  shouldIncludeDate h cur freq' byday' = false \/ create cur = Ret None ->
  loop (S fuel) cur cnt events = loop fuel (advance cur) cnt events.
Proof.
  intros Hb Hd. rewrite loop_guard by done.
  destruct (shouldIncludeDate h cur freq' byday'); [|done].
  destruct Hd as [|Hc]; [done|]. by rewrite Hc.
Qed.

(** What is in the list stays in the list. *)
Lemma loop_prefix (fuel : nat) (cur : Date) (cnt : Z) (events l : list Occurrence) :
  loop fuel cur cnt events = Ret l -> exists rest, l = (events ++ rest)%list.
Proof.
  revert cur cnt events. induction fuel as [|fuel IH]; intros cur cnt events; [done|].
  destruct (in_bounds cur cnt) eqn:Hb.
  - rewrite loop_guard by done.
    destruct (shouldIncludeDate h cur freq' byday'); cbn.
    + destruct (create cur) as [[o|]| |]; cbn; try done.
      * intros [rest ->]%IH. exists (o :: rest). by rewrite <- app_assoc.
      * apply IH.
    + apply IH.
  - rewrite loop_stop by done. intros [= <-]. exists []. by rewrite app_nil_r.
Qed.

(** A property of every created occurrence holds of the whole result; the
    cursor may be known to satisfy an invariant [I] of its own. *)
Lemma loop_invariant_cursor (I : Date -> Prop) (P : Occurrence -> Prop)
    (fuel : nat) (cur : Date) (cnt : Z) (events l : list Occurrence) :
  (forall c, I c -> I (advance c)) ->
  (forall c o, I c -> create c = Ret (Some o) -> P o) ->
  I cur -> Forall P events ->
  loop fuel cur cnt events = Ret l -> Forall P l.
Proof.
  intros Hadv Hcreate. revert cur cnt events.
  induction fuel as [|fuel IH]; intros cur cnt events Hcur Hev; [done|].
  destruct (in_bounds cur cnt) eqn:Hb.
  - rewrite loop_guard by done.
    destruct (shouldIncludeDate h cur freq' byday'); cbn.
    + destruct (create cur) as [[o|]| |] eqn:Hc; cbn; try done.
      * apply IH; [by apply Hadv|]. apply Forall_app. split; [done|].
        constructor; [|done]. by apply (Hcreate cur).
      * apply IH; [by apply Hadv|done].
    + apply IH; [by apply Hadv|done].
  - rewrite loop_stop by done. by intros [= <-].
Qed.

Lemma loop_invariant (P : Occurrence -> Prop) (fuel : nat) (cur : Date) (cnt : Z)
    (events l : list Occurrence) :
  (forall c o, create c = Ret (Some o) -> P o) ->
  Forall P events ->
  loop fuel cur cnt events = Ret l -> Forall P l.
Proof.
  intros Hcreate Hev.
  apply (loop_invariant_cursor (fun _ => True)); [done| |done|done].
  intros c o _. apply Hcreate.
Qed.
End Loop.

(** *** No empty field *)

Lemma bind_Ret_inv {A B} (m : outcome A) (f : A -> outcome B) (b : B) :
  m ≫= f = Ret b -> exists a, m = Ret a /\ f a = Ret b.
Proof. destruct m as [a| |]; cbn; [|done..]. intros H. by exists a. Qed.

Lemma bind_Ret {A B} (a : A) (f : A -> outcome B) : Ret a ≫= f = f a.
Proof. reflexivity. Qed.

Lemma fmap_Ret_inv {A B} (g : A -> B) (m : outcome A) (b : B) :
  g <$> m = Ret b -> exists a, m = Ret a /\ b = g a.
Proof. destruct m as [a| |]; cbn; [|done..]. intros [= <-]. by exists a. Qed.

(** Takes apart a computation that returned. *)
Ltac outcome_inv H :=
  repeat first
    [ let a := fresh "a" in let Ha := fresh "Ha" in
      apply bind_Ret_inv in H as (a & Ha & H)
    | let a := fresh "a" in let Ha := fresh "Ha" in
      apply fmap_Ret_inv in H as (a & Ha & H) ].

Lemma attach_not_empty (x : string) : not_empty (attach x).
Proof. unfold not_empty, attach. by destruct x. Qed.

Lemma attach_opt_not_empty (x : option string) : not_empty (attach_opt x).
Proof. destruct x as [x|]; [apply attach_not_empty|done]. Qed.

Lemma createNormalEvent_fields (eventStart : string) (eventEnd' : option string)
    (eventData : BaseData) :
  no_empty_field (createNormalEvent eventStart eventEnd' eventData).
Proof.
  repeat split; cbn; auto using attach_not_empty, attach_opt_not_empty.
Qed.

Lemma createExceptionEvent_fields (h : Host) (exception : EventData) (o : Occurrence) :
  createExceptionEvent h exception = Ret o -> no_empty_field o.
Proof.
  unfold createExceptionEvent. intros H. outcome_inv H. injection H as <-.
  repeat split; cbn; auto using attach_not_empty, attach_opt_not_empty.
Qed.

Lemma createOccurrence_fields (h : Host) (cur : Date) (eventData : BaseData)
    (durationMs : option Z) (exdates : list string)
    (exceptionMap : gmap string EventData) (o : Occurrence) :
  createOccurrence h cur eventData durationMs exdates exceptionMap = Ret (Some o) ->
  no_empty_field o.
Proof.
  unfold createOccurrence. intros H.
  apply bind_Ret_inv in H as ([eventStart eventEnd'] & _ & H).
  destruct (isDateExcluded _ _ _ _); [done|].
  destruct (exceptionMap !! eventStart) as [ex|].
  - apply fmap_Ret_inv in H as (o' & Ho' & [= ->]).
    by apply (createExceptionEvent_fields h ex).
  - injection H as <-. apply createNormalEvent_fields.
Qed.

Lemma createEventFromData_fields (h : Host) (e : RawEvent) (tz : gmap string string)
    (o : Occurrence) :
  createEventFromData h e tz = Ret (Some o) -> well_formed o.
Proof.
  unfold createEventFromData. intros H. outcome_inv H.
  cbn [start] in H. destruct (opt_truthy (attach a)) eqn:Hs; [|done].
  injection H as <-.
  repeat split; cbn; auto using attach_not_empty, attach_opt_not_empty.
Qed.

Lemma generateRecurringEvents_fields (h : Host) (now : Z) (fuel : nat)
    (e : RawEvent) (tz : gmap string string) (exceptions : list EventData)
    (l : list Occurrence) :
  generateRecurringEvents h now fuel e tz exceptions = Ret l ->
  Forall no_empty_field l.
Proof.
  unfold generateRecurringEvents.
  destruct (props e !! "RRULE") as [rrule|]; [|by intros [= <-]].
  destruct (negb (truthy rrule)); [by intros [= <-]|].
  intros H. apply bind_Ret_inv in H as (s & _ & H).
  destruct (negb (truthy s)); [by injection H as <-|].
  apply bind_Ret_inv in H as (e' & _ & H).
  apply bind_Ret_inv in H as (exdates & _ & H).
  apply bind_Ret_inv in H as (emap & _ & H).
  revert H. unfold generateOccurrences.
  destruct (freq (parseRRule rrule)) as [f|]; [|by intros [= <-]].
  destruct (negb (truthy f)); [by intros [= <-]|].
  destruct (setupDateLimits _ _ _ _) as [[cur untilDate] maxOcc].
  apply loop_invariant; [|done].
  intros c o. apply createOccurrence_fields.
Qed.

Lemma foldM_Forall {A B} (g : A -> outcome (list B)) (P : B -> Prop)
    (l : list A) (acc r : list B) :
  (forall x occ, g x = Ret occ -> Forall P occ) ->
  Forall P acc ->
  foldM (fun events x => occ ← g x; Ret (events ++ occ)%list) l acc = Ret r ->
  Forall P r.
Proof.
  intros Hg. revert acc. induction l as [|x l IH]; intros acc Hacc; cbn [foldM].
  - by intros [= <-].
  - destruct (g x) as [occ| |] eqn:Hx; cbn; try done.
    apply IH. apply Forall_app. split; [done|]. by apply (Hg x).
Qed.

Lemma parseICS_fields (h : Host) (now : Z) (fuel : nat) (icsData : string)
    (events : list Occurrence) :
  parseICS h now fuel icsData = Ret events -> Forall no_empty_field events.
Proof.
  unfold parseICS.
  destruct (parseEventsFromLines (unfoldICSLines icsData)) as [mains exc].
  apply foldM_Forall; [|done].
  intros ed occ. unfold eventOccurrences.
  destruct (isEventDeleted (event ed)); [by intros [= <-]|].
  destruct (has_prop (event ed) "RRULE").
  - apply generateRecurringEvents_fields.
  - destruct (createEventFromData h (event ed) (timezones ed)) as [[o|]| |] eqn:Hc;
      cbn; try done; intros [= <-]; [|done].
    constructor; [|done]. apply createEventFromData_fields in Hc.
    destruct Hc as (Hs & ? & ? & ? & ?). repeat split; try done.
    unfold not_empty. intros Heq. by rewrite Heq in Hs.
Qed.

Lemma filterAndSortEvents_Forall (h : Host) (now : Z) (P : Occurrence -> Prop)
    (events : list Occurrence) :
  Forall P events ->
  Forall (fun o => P o /\ endsAfter h (endOfYesterday h now) o = true)
         (filterAndSortEvents h now events).
Proof.
  intros HP. unfold filterAndSortEvents. apply Forall_take.
  eapply Permutation_Forall; [symmetry; apply arraySort_perm|].
  induction HP as [|o l Ho Hl IH]; cbn [List.filter]; [done|].
  destruct (endsAfter h (endOfYesterday h now) o) eqn:He; [|done].
  by constructor.
Qed.

Lemma endsAfter_start (h : Host) (y : Date) (o : Occurrence) :
  endsAfter h y o = true -> opt_truthy (start o) = true.
Proof. unfold endsAfter. by destruct (opt_truthy (start o)). Qed.

(** C9: every record of the final output carries a start, and none of its
    fields is the empty string; a record without start never passes the
    Result Selector, whatever list it is given. *)
Theorem output_records_well_formed (h : Host) (now : Z) (fuel : nat) :
  (forall (icsData : string) (events : list Occurrence),
     parseICS h now fuel icsData = Ret events ->
     Forall well_formed (filterAndSortEvents h now events))
  /\ (forall (fetch : string -> outcome Response) (url : option string)
             (calls : list Call) (l : list Occurrence),
        main h now fuel fetch url = (calls, Ret (BodyEvents l)) ->
        Forall well_formed l)
  /\ (forall events : list Occurrence,
        Forall (fun o => opt_truthy (start o) = true)
               (filterAndSortEvents h now events)).
Proof.
  assert (forall icsData events,
            parseICS h now fuel icsData = Ret events ->
            Forall well_formed (filterAndSortEvents h now events)) as Hparse.
  { intros icsData events Hev%parseICS_fields.
    eapply Forall_impl; [apply (filterAndSortEvents_Forall h now _ _ Hev)|].
    intros o [(_ & ? & ? & ? & ?) Hs%endsAfter_start]. by repeat split. }
  split; [exact Hparse|]. split.
  - intros fetch url calls l. unfold main.
    destruct url as [u|]; [|done]. destruct (negb (truthy u)); [done|].
    destruct (fetch u) as [response| |]; try done.
    destruct (negb (ok response)); [done|].
    destruct (parseICS h now fuel (text response)) as [events| |] eqn:Hp; cbn; try done.
    intros [= _ <-]. by apply (Hparse (text response)).
  - intros events.
    eapply Forall_impl; [apply (filterAndSortEvents_Forall h now (fun _ => True))|].
    + by apply Forall_true.
    + intros o [_ Hs]. by apply endsAfter_start in Hs.
Qed.

Lemma output_records_well_formed_witness :
  exists events,
    parseICS utcHost sampleNow 50 sampleCalendar = Ret events
    /\ Forall well_formed (filterAndSortEvents utcHost sampleNow events).
Proof.
  eexists. split; [vm_compute; reflexivity|].
  apply (proj1 (output_records_well_formed utcHost sampleNow 50) sampleCalendar).
  vm_compute. reflexivity.
Defined.

(** *** Exception instances *)

Lemma createExceptionEvent_with_prop (h : Host) (k v : string) (ex : EventData) :
  k ∉ emittedFields ->
  createExceptionEvent h (with_prop k v ex) = createExceptionEvent h ex.
Proof.
  unfold emittedFields. intros Hk.
  repeat (apply not_elem_of_cons in Hk as [? Hk]).
  unfold createExceptionEvent, with_prop, has_prop. cbn [event props timezones].
  by rewrite !lookup_insert_ne by done.
Qed.

Section ExceptionInstances.
Context (h : Host) (now : Z) (eventData : BaseData) (freq' : string)
  (interval' : option Z) (byday' : option (list string))
  (durationMs : option Z) (untilDate : option Date) (maxOccurrences : Z)
  (exdates : list string) (exceptionMap : gmap string EventData).

Local Abbreviation loop :=
  (occurrencesLoop h now eventData freq' interval' byday' durationMs untilDate
     maxOccurrences exdates exceptionMap).

End ExceptionInstances.


Example cancelled_instance_in_output :
  exists events,
    parseICS utcHost sampleNow 50 sampleCalendar = Ret events
    /\ isEventDeleted (event sampleException) = true
    /\ {| start := Some "2024-03-12T18:00:00Z"; end_ := None;
          title := Some "Changed"; description := None; address := None |}
       ∈ filterAndSortEvents utcHost sampleNow events.
Proof.
  eexists. split; [vm_compute; reflexivity|]. split; [reflexivity|].
  vm_compute. do 6 apply list_elem_of_further. apply list_elem_of_here.
Qed.

(** *** Result Selector *)

Section Selector.
Context (h : Host).

Lemma comes_after_compareStart (a b : Occurrence) :
  comes_after (compareStart h) a b = true
  <-> exists x y, startInstant h a = Some x /\ startInstant h b = Some y /\ y < x.
Proof.
  unfold comes_after, compareStart, positive, nsub, startInstant.
  destruct (parse h (default EmptyString (start a))) as [x|],
           (parse h (default EmptyString (start b))) as [y|]; cbn.
  - rewrite Z.ltb_lt. split.
    + intros Hlt. exists x, y. repeat split; lia.
    + intros (x' & y' & [= <-] & [= <-] & Hlt). lia.
  - split; [done|]. by intros (? & ? & _ & ? & _).
  - split; [done|]. by intros (? & ? & ? & _).
  - split; [done|]. by intros (? & ? & ? & _).
Qed.

Lemma compareStart_anti (a b : Occurrence) :
  comes_after (compareStart h) a b = true ->
  comes_after (compareStart h) b a = false.
Proof.
  intros (x & y & Ha & Hb & Hlt)%comes_after_compareStart.
  apply not_true_is_false.
  intros (y' & x' & Hb' & Ha' & Hlt')%comes_after_compareStart.
  rewrite Ha in Ha'. rewrite Hb in Hb'. injection Ha' as <-. injection Hb' as <-. lia.
Qed.

Lemma compareStart_same_key (k : option Z) (a b : Occurrence) :
  bool_decide (startInstant h a = k) = true ->
  bool_decide (startInstant h b = k) = true ->
  comes_after (compareStart h) a b = false.
Proof.
  intros Ha%bool_decide_eq_true_1 Hb%bool_decide_eq_true_1.
  apply not_true_is_false.
  intros (x & y & Hx & Hy & Hlt)%comes_after_compareStart.
  rewrite Ha in Hx. rewrite Hb in Hy. rewrite Hx in Hy. injection Hy as <-. lia.
Qed.

(** With valid starts throughout, the order is ascending by start. *)
Lemma not_after_StronglySorted (l : list Occurrence) :
  Forall (fun o => is_Some (startInstant h o)) l ->
  Sorted (not_after h) l -> StronglySorted (starts_le h) l.
Proof.
  induction l as [|a l IH]; intros Hv Hs; [constructor|].
  apply Forall_cons in Hv as [[x Hx] Hv]. apply Sorted_inv in Hs as [Hs Hhd].
  specialize (IH Hv Hs). constructor; [done|].
  destruct l as [|b l]; [constructor|].
  apply HdRel_inv in Hhd. apply Forall_cons in Hv as [[y Hy] Hv].
  assert (starts_le h a b) as Hab.
  { exists x, y. repeat split; try done.
    destruct (Z.le_gt_cases x y) as [|Hgt]; [done|].
    unfold not_after in Hhd. apply not_true_iff_false in Hhd.
    exfalso. apply Hhd, comes_after_compareStart. exists x, y. repeat split; [done..|lia]. }
  constructor; [done|].
  apply StronglySorted_inv in IH as [_ Hall].
  eapply Forall_impl; [exact Hall|].
  intros c (y' & z & Hy' & Hz & Hle). exists x, z.
  rewrite Hy in Hy'. injection Hy' as <-.
  destruct Hab as (x' & y'' & Hx' & Hy'' & Hle').
  rewrite Hx in Hx'. rewrite Hy in Hy''. injection Hx' as <-. injection Hy'' as <-.
  repeat split; [done..|lia].
Qed.

(** With valid starts the comparator of the source is the difference of
    two numbers, a consistent comparator. *)
Lemma compareStart_consistent (l : list Occurrence) :
  Forall (fun o => is_Some (startInstant h o)) l ->
  consistent (compareStart h) l = true.
Proof.
  intros Hl. rewrite Forall_forall in Hl.
  assert (forall a, In a l -> is_Some (startInstant h a)) as Hin
    by (intros a Ha; by apply Hl, list_elem_of_In).
  unfold consistent. apply forallb_forall. intros a [x Ha]%Hin.
  apply andb_true_iff. split.
  { unfold ties, precedes, comes_after, compareStart, startInstant in *.
    rewrite Ha. cbn. apply andb_true_iff. split; apply negb_true_iff; lia. }
  apply forallb_forall. intros b [y Hb]%Hin.
  apply andb_true_iff. split.
  { unfold ties, precedes, comes_after, compareStart, startInstant in *.
    rewrite Ha, Hb. rewrite bool_decide_eq_true_2 by (by cbn; eauto). cbn.
    destruct (x - y <? 0) eqn:E1, (0 <? x - y) eqn:E2,
             (y - x <? 0) eqn:E3, (0 <? y - x) eqn:E4; try done; lia. }
  apply forallb_forall. intros c [z Hc]%Hin.
  unfold ties, precedes, comes_after, compareStart, startInstant in *.
  rewrite Ha, Hb, Hc. cbn.
  destruct (x - y <? 0) eqn:E1, (0 <? x - y) eqn:E2,
           (y - z <? 0) eqn:E3, (0 <? y - z) eqn:E4,
           (x - z <? 0) eqn:E5, (0 <? x - z) eqn:E6; try done; lia.
Qed.

Lemma arraySort_valid (l : list Occurrence) :
  Forall (fun o => is_Some (startInstant h o)) l ->
  arraySort h (compareStart h) l = stable_sort (compareStart h) l.
Proof. intros Hl. unfold arraySort. by rewrite compareStart_consistent. Qed.

Lemma endsAfter_effectiveEnd (y : Date) (o : Occurrence) :
  endsAfter h y o = opt_truthy (start o) && date_gt (effectiveEnd h o) y.
Proof.
  unfold endsAfter, effectiveEnd, startInstant.
  by destruct (opt_truthy (start o)), (opt_truthy (end_ o)).
Qed.

(** On a host with a fixed offset [c], yesterday ends one millisecond
    before the local midnight that began today. *)
Lemma endOfYesterday_fixed (c now : Z) :
  (forall (t : Z) (isUTC : bool), LocalTZA h t isUTC = c) ->
  Z.abs now + Z.abs c + 2 * msPerDay <= maxTime ->
  endOfYesterday h now = Some (Day (now + c) * msPerDay - 1 - c).
Proof.
  intros Hfix Hrange. unfold endOfYesterday.
  assert (ofNumber (Some now) = Some now) as ->.
  { cbn. apply TimeClip_in_range. unfold msPerDay in *. lia. }
  rewrite (setDate_getDate h c Hfix).
  rewrite TimeClip_in_range by (unfold msPerDay in *; lia).
  unfold setHours. cbn [mbind option_bind].
  rewrite (UTC_fixed h c Hfix), (LocalTime_fixed h c Hfix).
  assert (MakeDate (Day (now + -1 * msPerDay + c)) (MakeTime 23 59 59 999) - c
          = Day (now + c) * msPerDay - 1 - c) as ->.
  { unfold MakeDate, MakeTime, Day, msPerDay, msPerHour, msPerMinute, msPerSecond.
    Z.div_mod_to_equations. lia. }
  apply TimeClip_in_range.
  unfold Day, msPerDay, maxTime in *. Z.div_mod_to_equations. lia.
Qed.
End Selector.

(** A list in ascending order of start in which the records of each start
    instant stand in a given order is determined by these two facts: with
    valid starts, every stable sort returns the same list. *)
Lemma stable_order_unique (h : Host) (l1 l2 : list Occurrence) :
  StronglySorted (starts_le h) l1 -> StronglySorted (starts_le h) l2 ->
  (forall k : option Z,
     List.filter (fun o => bool_decide (startInstant h o = k)) l1
     = List.filter (fun o => bool_decide (startInstant h o = k)) l2) ->
  l1 = l2.
Proof.
  revert l2. induction l1 as [|a l1 IH]; intros l2 Hs1 Hs2 Hf.
  - destruct l2 as [|b l2]; [done|].
    specialize (Hf (startInstant h b)). cbn [List.filter] in Hf.
    by rewrite bool_decide_eq_true_2 in Hf.
  - destruct l2 as [|b l2].
    { specialize (Hf (startInstant h a)). cbn [List.filter] in Hf.
      by rewrite bool_decide_eq_true_2 in Hf. }
    apply StronglySorted_inv in Hs1 as [Hs1 Ha].
    apply StronglySorted_inv in Hs2 as [Hs2 Hb].
    assert (startInstant h a = startInstant h b) as Hkey.
    { destruct (decide (startInstant h a = startInstant h b)) as [|Hne]; [done|].
      pose proof (Hf (startInstant h b)) as Hfb.
      pose proof (Hf (startInstant h a)) as Hfa.
      cbn [List.filter] in Hfa, Hfb.
      rewrite (bool_decide_eq_true_2 (startInstant h b = startInstant h b)),
        (bool_decide_eq_false_2 (startInstant h a = startInstant h b)) in Hfb by done.
      rewrite (bool_decide_eq_true_2 (startInstant h a = startInstant h a)),
        (bool_decide_eq_false_2 (startInstant h b = startInstant h a)) in Hfa by done.
      assert (In b (List.filter (fun o => bool_decide (startInstant h o = startInstant h b)) l1))
        as [Hx1 Hx2]%filter_In by (rewrite Hfb; by left).
      assert (In a (List.filter (fun o => bool_decide (startInstant h o = startInstant h a)) l2))
        as [Hy1 Hy2]%filter_In by (rewrite <- Hfa; by left).
      rewrite Forall_forall in Ha, Hb.
      destruct (Ha b ltac:(by apply list_elem_of_In)) as (ka & kb & Hka & Hkb & Hle1).
      destruct (Hb a ltac:(by apply list_elem_of_In)) as (kb' & ka' & Hkb' & Hka' & Hle2).
      rewrite Hka in Hka'. rewrite Hkb in Hkb'.
      injection Hka' as <-. injection Hkb' as <-.
      rewrite Hka, Hkb. f_equal. lia. }
    assert (a = b /\ forall k : option Z,
              List.filter (fun o => bool_decide (startInstant h o = k)) l1
              = List.filter (fun o => bool_decide (startInstant h o = k)) l2)
      as [-> Htail].
    { split.
      - specialize (Hf (startInstant h a)). cbn [List.filter] in Hf.
        rewrite (bool_decide_eq_true_2 (startInstant h a = startInstant h a)),
          (bool_decide_eq_true_2 (startInstant h b = startInstant h a)) in Hf by done.
        by injection Hf.
      - intros k. specialize (Hf k). cbn [List.filter] in Hf. rewrite <- Hkey in Hf.
        destruct (bool_decide (startInstant h a = k)); [by injection Hf|done]. }
    f_equal. by apply IH.
Qed.

(** C1, as stated, fails: a record without start whose end is after the
    cutoff is not returned. *)
Lemma filterAndSortEvents_drops_startless :
  start startlessRecord = None
  /\ date_gt (effectiveEnd utcHost startlessRecord) (endOfYesterday utcHost sampleNow)
     = true
  /\ filterAndSortEvents utcHost sampleNow [startlessRecord] = [].
Proof. repeat split. Qed.

(** C1, amended: [filterAndSortEvents] returns the first 25 of a list made
    of exactly the occurrences that carry a non-empty start and whose
    effective end (the end if present, else the start) is a date strictly
    after the cutoff.  When every kept start is a valid date, that list is
    in the order of a stable sort on the start instant: the starts are
    ascending throughout, records with the same start instant keep their
    relative order, and the list is the only one with these properties.
    When a kept start is not a valid date the comparator returns [NaN] for
    it and the order is the one the sort of the host leaves, of which
    nothing is known but that it is a permutation.  On a host with a fixed
    offset the cutoff is the last millisecond of the previous local
    calendar day. *)
Theorem filterAndSortEvents_spec (h : Host) (now : Z) (events : list Occurrence) :
  let cutoff := endOfYesterday h now in
  let kept :=
    List.filter (fun o => opt_truthy (start o) && date_gt (effectiveEnd h o) cutoff)
                events in
  exists sorted : list Occurrence,
    filterAndSortEvents h now events = List.firstn 25 sorted
    /\ (List.length (filterAndSortEvents h now events) <= 25)%nat
    /\ Permutation sorted kept
    /\ (Forall (fun o => is_Some (startInstant h o)) kept ->
        StronglySorted (starts_le h) sorted
        /\ (forall k : option Z,
              List.filter (fun o => bool_decide (startInstant h o = k)) sorted
              = List.filter (fun o => bool_decide (startInstant h o = k)) kept)
        /\ forall l : list Occurrence,
             StronglySorted (starts_le h) l ->
             (forall k : option Z,
                List.filter (fun o => bool_decide (startInstant h o = k)) l
                = List.filter (fun o => bool_decide (startInstant h o = k)) kept) ->
             l = sorted)
    /\ (forall c : Z,
          (forall (t : Z) (isUTC : bool), LocalTZA h t isUTC = c) ->
          Z.abs now + Z.abs c + 2 * msPerDay <= maxTime ->
          cutoff = Some (Day (now + c) * msPerDay - 1 - c)).
Proof.
  intros cutoff kept.
  assert (List.filter (endsAfter h cutoff) events = kept) as Hkept.
  { unfold kept. apply filter_ext. intros o. apply endsAfter_effectiveEnd. }
  exists (arraySort h (compareStart h) kept).
  split; [unfold filterAndSortEvents; cbv zeta; fold cutoff; by rewrite Hkept|].
  split; [unfold filterAndSortEvents; cbv zeta; rewrite length_take; lia|].
  split; [apply arraySort_perm|].
  split.
  - intros Hvalid. rewrite (arraySort_valid h kept Hvalid).
    assert (Sorted (not_after h) (stable_sort (compareStart h) kept)) as Hsorted.
    { apply stable_sort_sorted, compareStart_anti. }
    assert (StronglySorted (starts_le h) (stable_sort (compareStart h) kept)) as Hstrong.
    { apply not_after_StronglySorted; [|done].
      eapply Permutation_Forall; [symmetry; apply stable_sort_perm|done]. }
    split; [done|].
    split; [intros k; apply stable_sort_stable, compareStart_same_key|].
    intros l Hl Hclasses.
    apply (stable_order_unique h); [done..|].
    intros k. rewrite Hclasses. symmetry.
    apply stable_sort_stable, compareStart_same_key.
  - intros c Hfix Hrange. by apply endOfYesterday_fixed.
Qed.

Lemma Forall_of_forallb {A} (f : A -> bool) (P : A -> Prop) (l : list A) :
  (forall x, f x = true -> P x) -> forallb f l = true -> Forall P l.
Proof.
  intros Hf. induction l as [|x l IH]; cbn [forallb]; [constructor|].
  intros [Hx Hl]%andb_true_iff. constructor; auto.
Qed.

(** The amended C1 on the occurrences of [sampleCalendar]. *)
Lemma filterAndSortEvents_spec_witness :
  exists events sorted,
    parseICS utcHost sampleNow 50 sampleCalendar = Ret events
    /\ filterAndSortEvents utcHost sampleNow events = List.firstn 25 sorted
    /\ StronglySorted (starts_le utcHost) sorted
    /\ endOfYesterday utcHost sampleNow = Some (sampleNow - 1).
Proof.
  eexists.
  destruct (filterAndSortEvents_spec utcHost sampleNow
              ltac:(let l := eval vm_compute in
                      (match parseICS utcHost sampleNow 50 sampleCalendar with
                       | Ret l => l
                       | _ => []
                       end) in exact l))
    as (sorted & Heq & _ & _ & Hstrong & Hcut).
  exists sorted. split; [vm_compute; reflexivity|]. split; [exact Heq|]. split.
  - apply (fun H => proj1 (Hstrong H)).
    apply (Forall_of_forallb
             (fun o => match startInstant utcHost o with
                       | Some _ => true
                       | None => false
                       end)).
    + intros o. destruct (startInstant utcHost o); [eauto|done].
    + vm_compute. reflexivity.
  - rewrite (Hcut 0); [reflexivity|reflexivity|vm_compute; discriminate].
Defined.

(** *** Exclusion dates *)

Lemma calendar_fields_of_Day (t1 t2 : Z) :
  Day t1 = Day t2 ->
  YearFromTime t1 = YearFromTime t2 /\ MonthFromTime t1 = MonthFromTime t2
  /\ DateFromTime t1 = DateFromTime t2.
Proof.
  intros Hd.
  assert (YearFromTime t1 = YearFromTime t2) as Hy
    by (unfold YearFromTime; by rewrite Hd).
  assert (DayWithinYear t1 = DayWithinYear t2) as Hw
    by (unfold DayWithinYear; by rewrite Hd, Hy).
  assert (InLeapYear t1 = InLeapYear t2) as Hl by (unfold InLeapYear; by rewrite Hy).
  assert (MonthFromTime t1 = MonthFromTime t2) as Hm
    by (unfold MonthFromTime; by rewrite Hw, Hl).
  repeat split; try done. unfold DateFromTime. by rewrite Hw, Hl, Hm.
Qed.

(** Year, month, day, hour and minute agree exactly when the two instants
    lie in the same minute: the seconds play no part. *)
Lemma fields_same_minute (t1 t2 : Z) :
  (YearFromTime t1 = YearFromTime t2 /\ MonthFromTime t1 = MonthFromTime t2
   /\ DateFromTime t1 = DateFromTime t2 /\ HourFromTime t1 = HourFromTime t2
   /\ MinFromTime t1 = MinFromTime t2)
  <-> t1 / msPerMinute = t2 / msPerMinute.
Proof.
  split.
  - intros (Hy & Hm & Hd & Hh & Hmin).
    assert (Day t1 = Day t2) as Hday.
    { pose proof (MakeDay_fields t1 0) as H1. pose proof (MakeDay_fields t2 0) as H2.
      rewrite !Z.add_0_r in H1, H2. rewrite <- H1, <- H2. by rewrite Hy, Hm, Hd. }
    unfold Day, HourFromTime, MinFromTime, msPerDay, msPerHour, msPerMinute in *.
    Z.div_mod_to_equations. lia.
  - intros Hmin.
    assert (Day t1 = Day t2) as Hday.
    { unfold Day, msPerDay, msPerMinute in *. Z.div_mod_to_equations. lia. }
    destruct (calendar_fields_of_Day t1 t2 Hday) as (Hy & Hm & Hd).
    repeat split; try done.
    + unfold HourFromTime, msPerHour, msPerMinute in *. Z.div_mod_to_equations. lia.
    + unfold MinFromTime. by rewrite Hmin.
Qed.

Lemma same_number_Some (x y : Z) : same_number (Some x) (Some y) = true <-> x = y.
Proof. cbn. apply Z.eqb_eq. Qed.

Lemma isDateExcluded_iff (h : Host) (eventStart : string) (exdates : list string)
    (isAllDayEvent : bool) :
  isDateExcluded h eventStart exdates isAllDayEvent = true
  <-> exists exdate, exdate ∈ exdates
        /\ matchesExclusion h isAllDayEvent eventStart exdate.
Proof.
  unfold isDateExcluded. rewrite existsb_exists.
  split; intros (exdate & Hin & Hm); exists exdate;
    (split; [by apply list_elem_of_In|]); revert Hm;
    unfold matchesExclusion, sameLocalMinute; destruct isAllDayEvent.
  - apply bool_decide_eq_true_1.
  - unfold getFullYear, getMonth, getDate, getHours, getMinutes.
    destruct (parse h exdate) as [te|], (parse h eventStart) as [ts|]; cbn; try done.
    rewrite !andb_true_iff, !Z.eqb_eq. intros ((((Hy & Hm) & Hd) & Hh) & Hmin).
    exists te, ts. repeat split. by apply fields_same_minute.
  - apply bool_decide_eq_true_2.
  - intros (te & ts & -> & -> & Hmin%fields_same_minute).
    unfold getFullYear, getMonth, getDate, getHours, getMinutes. cbn.
    rewrite !andb_true_iff, !Z.eqb_eq. tauto.
Qed.

Section Exclusion.
Context (h : Host) (now : Z) (eventData : BaseData) (freq' : string)
  (interval' : option Z) (byday' : option (list string))
  (durationMs : option Z) (untilDate : option Date) (maxOccurrences : Z)
  (exdates : list string) (exceptionMap : gmap string EventData).

Local Abbreviation loop :=
  (occurrencesLoop h now eventData freq' interval' byday' durationMs untilDate
     maxOccurrences exdates exceptionMap).
Local Abbreviation isAllDayEvent := (Regex.matches Regex.iso_date (bstart eventData)).

End Exclusion.


(** *** Daily recurrence *)

Lemma horizon_value (now : Z) :
  Z.abs (now + 2 * 365 * msPerDay) <= maxTime ->
  horizon now = Some (now + 2 * 365 * msPerDay).
Proof.
  intros H. unfold horizon, ofNumber. cbn [mbind option_bind].
  replace (now + 2 * 365 * 24 * 60 * 60 * 1000) with (now + 2 * 365 * msPerDay)
    by (unfold msPerDay; lia).
  by apply TimeClip_in_range.
Qed.

Lemma shouldIncludeDate_daily (h : Host) (cur : Date) (byday' : option (list string)) :
  shouldIncludeDate h cur "DAILY" byday' = true.
Proof. unfold shouldIncludeDate. by destruct byday'. Qed.

Lemma advanceToNextDate_daily (h : Host) (c t n : Z) (byday' : option (list string)) :
  (forall (t : Z) (isUTC : bool), LocalTZA h t isUTC = c) ->
  advanceToNextDate h (Some t) "DAILY" (Some n) byday' = TimeClip (t + n * msPerDay).
Proof.
  intros Hfix. unfold advanceToNextDate.
  rewrite !bool_decide_eq_false_2 by done. rewrite bool_decide_eq_true_2 by done.
  apply (setDate_getDate h c Hfix).
Qed.

Lemma occurrenceBounds_slot (eventData : BaseData) (durationMs : option Z)
    (isAllDayEvent : bool) (t : Z) :
  Z.abs (t + span durationMs) <= maxTime ->
  occurrenceBounds (Some t) eventData durationMs isAllDayEvent
  = Ret (slotStart isAllDayEvent t, slotEnd eventData durationMs isAllDayEvent t).
Proof.
  intros Hrange. unfold occurrenceBounds, slotStart, slotEnd, span in *.
  destruct isAllDayEvent.
  - rewrite toISOString_date_part, bind_Ret.
    destruct (opt_truthy (bend eventData)); [|done].
    destruct durationMs as [d|]; cbn [positive default id] in *.
    + destruct (0 <? d).
      * cbn [getTime nadd mbind option_bind setTime].
        rewrite (TimeClip_in_range _ Hrange). by rewrite toISOString_date_part.
      * rewrite Z.add_0_r. by rewrite toISOString_date_part.
    + rewrite Z.add_0_r. by rewrite toISOString_date_part.
  - rewrite toISOString_strip, bind_Ret.
    destruct durationMs as [d|]; cbn [positive default id] in *; [|done].
    destruct (0 <? d); [|done].
    cbn [getTime nadd mbind option_bind ofNumber].
    rewrite (TimeClip_in_range _ Hrange). by rewrite toISOString_strip.
Qed.

Lemma createOccurrence_slot (h : Host) (eventData : BaseData)
    (durationMs : option Z) (t : Z) :
  Z.abs (t + span durationMs) <= maxTime ->
  createOccurrence h (Some t) eventData durationMs [] ∅
  = Ret (Some (slotOccurrence eventData durationMs t)).
Proof.
  intros Hrange. unfold createOccurrence.
  rewrite (occurrenceBounds_slot _ _ _ _ Hrange), bind_Ret. cbv beta iota.
  cbn [isDateExcluded existsb]. by rewrite lookup_empty.
Qed.

Section Daily.
Context (h : Host) (c now : Z) (eventData : BaseData) (n : Z)
  (byday' : option (list string)) (durationMs : option Z) (N t0 : Z).
Hypothesis Hfixed : forall (t : Z) (isUTC : bool), LocalTZA h t isUTC = c.
Hypothesis Hclock : Z.abs (now + 2 * 365 * msPerDay) <= maxTime.
Hypothesis Hslots :
  forall k, 0 <= k < N -> slot_ok now durationMs (t0 + k * n * msPerDay).

Local Abbreviation loop :=
  (occurrencesLoop h now eventData "DAILY" (Some n) byday' durationMs None N [] ∅).

(** The loop from the [j]-th slot on, with [m] occurrences still to come. *)
Lemma daily_loop (m : nat) :
  forall (j : Z) (cur : Date) (events : list Occurrence) (fuel : nat),
    0 <= j -> j + Z.of_nat m = N -> (m < fuel)%nat ->
    (m <> O -> cur = Some (t0 + j * n * msPerDay)) ->
    loop fuel cur j events
    = Ret (events ++ ((fun k => slotOccurrence eventData durationMs
                                  (t0 + k * n * msPerDay)) <$> seqZ j (Z.of_nat m)))%list.
Proof.
  induction m as [|m IH]; intros j cur events fuel Hj HN Hfuel Hcur;
    (destruct fuel as [|fuel]; [lia|]).
  - rewrite loop_stop.
    + by rewrite seqZ_nil, app_nil_r by lia.
    + unfold in_bounds. replace (j <? N) with false by lia. done.
  - rewrite Hcur by done.
    destruct (Hslots j ltac:(lia)) as (Hhor & Hcurrange & Hendrange).
    rewrite loop_emit
      with (o := slotOccurrence eventData durationMs (t0 + j * n * msPerDay)).
    + rewrite (advanceToNextDate_daily h c) by done.
      rewrite (IH (j + 1)); [|lia|lia|lia|].
      * rewrite (seqZ_cons j) by lia. cbn [fmap list_fmap].
        rewrite <- app_assoc. cbn [app].
        by replace (Z.pred (Z.of_nat (S m))) with (Z.of_nat m) by lia.
      * intros Hm.
        destruct (Hslots (j + 1) ltac:(lia)) as (_ & Hnext & _).
        replace (t0 + j * n * msPerDay + n * msPerDay)
          with (t0 + (j + 1) * n * msPerDay) by lia.
        by apply TimeClip_in_range.
    + unfold in_bounds. rewrite (horizon_value _ Hclock). cbn [date_le negb andb].
      replace (j <? N) with true by lia.
      by replace (t0 + j * n * msPerDay <=? now + 2 * 365 * msPerDay) with true by lia.
    + apply shouldIncludeDate_daily.
    + by apply createOccurrence_slot.
Qed.
End Daily.

(** *** Reading back what [toISOString] prints *)

Lemma digit_val_digit_char (v : Z) : 0 <= v <= 9 -> digit_val (digit_char v) = v.
Proof.
  intros Hv.
  assert (v = 0 \/ v = 1 \/ v = 2 \/ v = 3 \/ v = 4 \/ v = 5 \/ v = 6
          \/ v = 7 \/ v = 8 \/ v = 9) as Hcases by lia.
  repeat destruct Hcases as [-> | Hcases]; try reflexivity. by subst.
Qed.

Lemma read_digits_snoc (n : nat) (acc a : Z) (s : string) (c : ascii) (r : string) :
  read_digits n acc s = Some (a, EmptyString) ->
  is_digit c = true ->
  read_digits (S n) acc (s ++ String c r)%string = Some (10 * a + digit_val c, r).
Proof.
  revert acc s. induction n as [|n IH]; intros acc s Hs Hc.
  - injection Hs as -> ->. rewrite append_nil. by rewrite read_digits_cons.
  - destruct s as [|d s]; [done|]. cbn [read_digits] in Hs.
    destruct (is_digit d) eqn:Hd; [|done].
    rewrite append_cons, read_digits_cons by done. by apply IH.
Qed.

Lemma read_digits_pad (n : nat) (v : Z) (r : string) :
  0 <= v < 10 ^ Z.of_nat n ->
  read_digits n 0 (pad n v ++ r)%string = Some (v, r).
Proof.
  revert v r. induction n as [|n IH]; intros v r Hv.
  - rewrite append_nil. cbn in *. f_equal. f_equal. lia.
  - cbn [pad]. rewrite append_assoc, append_cons, append_nil.
    assert (0 <= v / 10 < 10 ^ Z.of_nat n) as Hq.
    { rewrite Nat2Z.inj_succ, Z.pow_succ_r in Hv by lia.
      split; [apply Z.div_pos; lia|]. apply Z.div_lt_upper_bound; lia. }
    pose proof (Z.mod_pos_bound v 10 ltac:(lia)) as Hm.
    pose proof (IH (v / 10) EmptyString Hq) as Hr.
    assert (pad n (v / 10) ++ EmptyString = pad n (v / 10))%string as Hnil.
    { clear. induction (pad n (v / 10)) as [|c s IHs]; [done|].
      by rewrite append_cons, IHs. }
    rewrite Hnil in Hr.
    rewrite (read_digits_snoc n 0 (v / 10) _ _ r Hr)
      by (apply is_digit_digit_char; lia).
    rewrite digit_val_digit_char by lia. f_equal. f_equal.
    pose proof (Z.div_mod v 10 ltac:(lia)). lia.
Qed.

(** The month found within the year begins on or before the day, and the
    day is one of its first 31. *)
Lemma month_search_spec (leap : bool) (d : Z) :
  0 <= d < (if leap then 366 else 365) ->
  monthStart leap (month_search leap d 11) <= d
  < monthStart leap (month_search leap d 11) + 31.
Proof.
  intros Hd. cbn [month_search].
  change (Z.of_nat 11) with 11. change (Z.of_nat 10) with 10.
  change (Z.of_nat 9) with 9. change (Z.of_nat 8) with 8.
  change (Z.of_nat 7) with 7. change (Z.of_nat 6) with 6.
  change (Z.of_nat 5) with 5. change (Z.of_nat 4) with 4.
  change (Z.of_nat 3) with 3. change (Z.of_nat 2) with 2.
  change (Z.of_nat 1) with 1.
  destruct leap; cbn [monthStart Z.add Pos.add Pos.succ] in *;
    repeat (match goal with |- context [?a <=? ?b] =>
              destruct (Z.leb_spec a b) end);
    cbn [monthStart Z.add Pos.add Pos.succ]; lia.
Qed.

Lemma DateFromTime_range (t : Z) : 1 <= DateFromTime t <= 31.
Proof.
  unfold DateFromTime, MonthFromTime.
  pose proof (DayWithinYear_range t) as Hw.
  pose proof (month_search_spec (InLeapYear t) (DayWithinYear t)) as Hs.
  unfold InLeapYear, DaysInYear in *.
  destruct (isLeapYear (YearFromTime t)); lia.
Qed.

Lemma YearFromTime_range (t : Z) :
  Z.abs t <= maxTime -> -271821 <= YearFromTime t <= 275760.
Proof.
  intros Ht. pose proof (YearFromTime_spec t) as Hs.
  assert (-100000000 <= Day t <= 100000000) as Hd.
  { unfold Day, msPerDay, maxTime in *. Z.div_mod_to_equations. lia. }
  split.
  - destruct (Z.le_gt_cases (-271821) (YearFromTime t)) as [|Hlt]; [done|].
    assert (DayFromYear (YearFromTime t + 1) <= DayFromYear (-271821)) as Hle.
    { destruct (Z.eq_dec (YearFromTime t + 1) (-271821)) as [->|]; [lia|].
      apply Z.lt_le_incl, DayFromYear_lt. lia. }
    let v := eval vm_compute in (DayFromYear (-271821)) in
    change (DayFromYear (-271821)) with v in Hle. lia.
  - destruct (Z.le_gt_cases (YearFromTime t) 275760) as [|Hgt]; [done|].
    assert (DayFromYear 275761 <= DayFromYear (YearFromTime t)) as Hle.
    { destruct (Z.eq_dec 275761 (YearFromTime t)) as [<-|]; [lia|].
      apply Z.lt_le_incl, DayFromYear_lt. lia. }
    let v := eval vm_compute in (DayFromYear 275761) in
    change (DayFromYear 275761) with v in Hle. lia.
Qed.

Lemma read_year_year_string (y : Z) (r : string) :
  -999999 <= y <= 999999 -> read_year (year_string y ++ r)%string = Some (y, r).
Proof.
  intros Hy. unfold year_string.
  destruct (Z.leb_spec 0 y) as [Hpos|Hneg]; cbn [andb].
  - destruct (Z.leb_spec y 9999) as [Hsmall|Hbig].
    + pose proof (pad_matches 4 y) as Hm.
      destruct (pad 4 y) as [|c s] eqn:Hp; [done|].
      cbn [replicate] in Hm. rewrite matches_cons in Hm.
      apply andb_true_iff in Hm as [Hc _]. cbn [Regex.item_ok] in Hc.
      rewrite append_cons, read_year_digit by done.
      rewrite <- append_cons, <- Hp. apply read_digits_pad. cbn. lia.
    + rewrite append_cons. cbn [read_year]. apply read_digits_pad. cbn. lia.
  - rewrite append_cons.
    change (read_year (String "-" (pad 6 (- y) ++ r)))
      with ('(y', r') ← read_digits 6 0 (pad 6 (- y) ++ r)%string;
            if y' =? 0 then None else Some (- y', r')).
    rewrite read_digits_pad by (cbn; lia). cbn [mbind option_bind].
    replace (- y =? 0) with false by lia. f_equal. f_equal. lia.
Qed.

Lemma read_digits_pad2 (v : Z) (r : string) :
  0 <= v < 100 -> read_digits 2 0 (pad 2 v ++ r)%string = Some (v, r).
Proof. intros Hv. by apply read_digits_pad. Qed.

Lemma read_date_isoDateString (t : Z) (r : string) :
  Z.abs t <= maxTime ->
  read_char "-" r = None ->
  read_date (isoDateString t ++ r)%string
  = Some (YearFromTime t, MonthFromTime t + 1, DateFromTime t, r).
Proof.
  intros Ht Hr. unfold read_date, isoDateString.
  pose proof (YearFromTime_range t Ht) as Hy.
  pose proof (MonthFromTime_range t) as Hm.
  pose proof (DateFromTime_range t) as Hd.
  rewrite !append_assoc, read_year_year_string by lia.
  cbn [mbind option_bind]. rewrite append_cons, append_nil, read_char_same.
  rewrite read_digits_pad2 by lia. cbn [mbind option_bind].
  rewrite append_cons, append_nil, read_char_same.
  rewrite read_digits_pad2 by lia. by cbn [mbind option_bind].
Qed.

Lemma Day_in_range (t : Z) :
  Z.abs t <= maxTime -> Z.abs (MakeDate (Day t) 0) <= maxTime.
Proof.
  unfold MakeDate, Day, msPerDay, maxTime. intros. Z.div_mod_to_equations. lia.
Qed.

(** A date printed by the host parses to the midnight that begins it. *)
Lemma parse_isoDateString (h : Host) (t : Z) :
  Z.abs t <= maxTime -> parse h (isoDateString t) = Some (MakeDate (Day t) 0).
Proof.
  intros Ht. unfold parse, parseISO.
  assert (isoDateString t = isoDateString t ++ EmptyString)%string as ->.
  { generalize (isoDateString t). intros s.
    induction s as [|c s IHs]; [done|]. by rewrite append_cons, <- IHs. }
  rewrite read_date_isoDateString by done. cbn [mbind option_bind].
  pose proof (MonthFromTime_range t) as Hm.
  pose proof (DateFromTime_range t) as Hd.
  unfold legal_date.
  replace ((1 <=? MonthFromTime t + 1) && (MonthFromTime t + 1 <=? 12)
           && (1 <=? DateFromTime t) && (DateFromTime t <=? 31)) with true by lia.
  replace (MonthFromTime t + 1 - 1) with (MonthFromTime t) by lia.
  pose proof (MakeDay_fields t 0) as Hday. rewrite !Z.add_0_r in Hday.
  rewrite Hday. by apply TimeClip_in_range, Day_in_range.
Qed.

(** An instant printed by the host parses to itself, up to the
    milliseconds that were cut. *)
Lemma parse_instantText (h : Host) (t : Z) :
  Z.abs t <= maxTime -> parse h (instantText t) = Some (t - msFromTime t).
Proof.
  intros Ht. unfold parse, parseISO, instantText.
  rewrite read_date_isoDateString by done. cbn [mbind option_bind].
  rewrite append_cons, append_nil. cbn [Ascii.eqb Bool.eqb].
  unfold read_time, isoClockString.
  assert (0 <= HourFromTime t < 24 /\ 0 <= MinFromTime t < 60
          /\ 0 <= SecFromTime t < 60) as (Hh & Hmi & Hs).
  { unfold HourFromTime, MinFromTime, SecFromTime. repeat split;
      apply Z.mod_pos_bound; lia. }
  rewrite !append_assoc, read_digits_pad2 by lia. cbn [mbind option_bind].
  rewrite append_cons, append_nil, read_char_same. cbn [mbind option_bind].
  rewrite read_digits_pad2 by lia. cbn [mbind option_bind].
  rewrite append_cons, append_nil, read_char_same.
  rewrite read_digits_pad2 by lia. cbn [mbind option_bind].
  change (read_char "." "Z") with (@None string). cbn [mbind option_bind].
  change (read_zone "Z") with (Some (Offset true 0)). cbn [mbind option_bind].
  pose proof (MonthFromTime_range t) as Hm.
  pose proof (DateFromTime_range t) as Hd.
  unfold legal_date, legal_time.
  replace ((1 <=? MonthFromTime t + 1) && (MonthFromTime t + 1 <=? 12)
           && (1 <=? DateFromTime t) && (DateFromTime t <=? 31)) with true by lia.
  replace ((HourFromTime t <=? 23) && (MinFromTime t <=? 59)
           && (SecFromTime t <=? 59)) with true by lia.
  cbn [andb orb].
  replace (MonthFromTime t + 1 - 1) with (MonthFromTime t) by lia.
  pose proof (MakeDay_fields t 0) as Hday. rewrite !Z.add_0_r in Hday.
  rewrite Hday.
  assert (MakeDate (Day t) (MakeTime (HourFromTime t) (MinFromTime t)
                                     (SecFromTime t) 0) - 0
          = t - msFromTime t) as ->.
  { unfold MakeDate, MakeTime, Day, HourFromTime, MinFromTime, SecFromTime,
      msFromTime, msPerDay, msPerHour, msPerMinute, msPerSecond.
    Z.div_mod_to_equations. lia. }
  apply TimeClip_in_range.
  unfold msFromTime, msPerSecond, maxTime in *. Z.div_mod_to_equations. lia.
Qed.

(** *** The start of a generated occurrence *)

Lemma isoDateString_truthy (t : Z) : truthy (isoDateString t) = true.
Proof.
  destruct (isoDateString t) eqn:E; [exfalso|done].
  apply (f_equal String.length) in E. unfold isoDateString in E.
  rewrite !append_length in E. change (String.length "-") with 1%nat in E.
  cbn [String.length] in E. lia.
Qed.

Lemma instantText_truthy (t : Z) : truthy (instantText t) = true.
Proof.
  unfold instantText. pose proof (isoDateString_truthy t) as H.
  destruct (isoDateString t); [done|]. by rewrite append_cons.
Qed.

Lemma attach_truthy (x : string) : truthy x = true -> attach x = Some x.
Proof. unfold attach. by intros ->. Qed.

Lemma slotStart_attached (isAllDayEvent : bool) (t : Z) :
  attach (slotStart isAllDayEvent t) = Some (slotStart isAllDayEvent t).
Proof.
  apply attach_truthy. unfold slotStart.
  destruct isAllDayEvent; [apply isoDateString_truthy|apply instantText_truthy].
Qed.

(** The start of the occurrence generated at the cursor [t], read back: the
    midnight of its day for an all-day event, else [t] to the second. *)
Lemma startInstant_slot (h : Host) (eventData : BaseData) (durationMs : option Z)
    (t : Z) :
  Z.abs t <= maxTime ->
  startInstant h (slotOccurrence eventData durationMs t)
  = Some (if Regex.matches Regex.iso_date (bstart eventData)
          then MakeDate (Day t) 0 else t - msFromTime t).
Proof.
  intros Ht. unfold startInstant, slotOccurrence, createNormalEvent. cbn [start].
  rewrite slotStart_attached. cbn [default id]. unfold slotStart.
  destruct (Regex.matches Regex.iso_date (bstart eventData));
    [by apply parse_isoDateString|by apply parse_instantText].
Qed.

(** Cursors [n] days apart give starts exactly [n] days apart. *)
Lemma slot_spacing (h : Host) (eventData : BaseData) (durationMs : option Z)
    (t n : Z) :
  Z.abs t <= maxTime -> Z.abs (t + n * msPerDay) <= maxTime ->
  nsub (startInstant h (slotOccurrence eventData durationMs (t + n * msPerDay)))
       (startInstant h (slotOccurrence eventData durationMs t))
  = Some (n * msPerDay).
Proof.
  intros Ht Htn. rewrite !startInstant_slot by done. cbn [nsub mbind option_bind].
  f_equal. destruct (Regex.matches Regex.iso_date (bstart eventData)).
  - unfold MakeDate, Day. rewrite Z.div_add by (unfold msPerDay; lia). lia.
  - unfold msFromTime, msPerSecond, msPerDay.
    replace (t + n * 86400000) with (t + (n * 86400) * 1000) by lia.
    rewrite Z.mod_add by lia. lia.
Qed.

(** C4, as stated, fails: the loop stops at the horizon of two years from
    now, so a daily series of five that begins later yields nothing. *)
Lemma daily_series_beyond_horizon :
  isEventDeleted (event farFutureSeries) = false
  /\ parseRRule "FREQ=DAILY;COUNT=5" = dailyFive 1 None
  /\ eventOccurrences utcHost sampleNow 50 ∅ farFutureSeries = Ret [].
Proof. repeat split; vm_compute; reflexivity. Qed.

(** C4, amended: on a host with a fixed offset, for a base event with a
    valid start, the rule FREQ=DAILY with COUNT=5 and INTERVAL [n] (1 when
    the rule has none), no UNTIL, no exclusion date and no exception, whose
    five slots [start + k * n days] are on or before the horizon of two
    years from now: the expansion returns exactly five occurrences, the
    [k]-th is the one of the instant [start + k * n days], and the starts of
    consecutive occurrences, read back as dates, are exactly [n] days
    apart. *)
Theorem daily_count_five (h : Host) (c now : Z) (eventData : BaseData) (n t0 : Z)
    (byday' : option (list string)) (fuel : nat) :
  let durationMs := calculateDuration h (bstart eventData) (bend eventData) in
  let slot k := slotOccurrence eventData durationMs (t0 + k * n * msPerDay) in
  (forall (t : Z) (isUTC : bool), LocalTZA h t isUTC = c) ->
  parse h (bstart eventData) = Some t0 ->
  Z.abs (now + 2 * 365 * msPerDay) <= maxTime ->
  (forall k, 0 <= k < 5 -> slot_ok now durationMs (t0 + k * n * msPerDay)) ->
  (5 < fuel)%nat ->
  generateOccurrences h now fuel eventData (dailyFive n byday') [] ∅
  = Ret [slot 0; slot 1; slot 2; slot 3; slot 4]
  /\ (forall k, 0 <= k < 4 ->
        nsub (startInstant h (slot (k + 1))) (startInstant h (slot k))
        = Some (n * msPerDay))
  /\ parseRRule "FREQ=DAILY;COUNT=5" = dailyFive 1 None
  /\ parseRRule "FREQ=DAILY;COUNT=5;INTERVAL=3" = dailyFive 3 None.
Proof.
  intros durationMs slot Hfix Hstart Hclock Hslots Hfuel.
  split; [|split; [|by split]].
  - unfold generateOccurrences, dailyFive, setupDateLimits.
    cbn [freq until count interval byday truthy negb]. rewrite Hstart.
    replace (5 =? 0) with false by done. fold durationMs.
    rewrite (daily_loop h c now eventData n byday' durationMs 5 t0 Hfix Hclock Hslots 5);
      [done|lia|done|done|].
    intros _. f_equal. lia.
  - intros k Hk. unfold slot.
    destruct (Hslots k ltac:(lia)) as (_ & Hk0 & _).
    destruct (Hslots (k + 1) ltac:(lia)) as (_ & Hk1 & _).
    replace (t0 + (k + 1) * n * msPerDay)
      with (t0 + k * n * msPerDay + n * msPerDay) in * by lia.
    by apply slot_spacing.
Qed.

(** The timed series [sampleTimed], daily from 5 January 2024 at 09:00Z. *)
Lemma daily_count_five_witness :
  generateOccurrences utcHost sampleNow 10 sampleTimed (dailyFive 1 None) [] ∅
  = Ret ((fun k => slotOccurrence sampleTimed (Some 3600000)
                     (1704445200000 + k * 1 * msPerDay)) <$> [0; 1; 2; 3; 4]).
Proof.
  apply (daily_count_five utcHost 0 sampleNow sampleTimed 1 1704445200000 None 10).
  - done.
  - vm_compute. reflexivity.
  - vm_compute. discriminate.
  - intros k Hk.
    change (calculateDuration utcHost (bstart sampleTimed) (bend sampleTimed))
      with (Some 3600000).
    unfold slot_ok, span, sampleNow, msPerDay, maxTime.
    cbn [positive default id Z.ltb Z.compare]. lia.
  - lia.
Defined.

Example daily_count_five_texts :
  (start <$> ((fun k => slotOccurrence sampleTimed (Some 3600000)
                          (1704445200000 + k * 1 * msPerDay)) <$> [0; 1; 2; 3; 4]))
  = [Some "2024-01-05T09:00:00Z"; Some "2024-01-06T09:00:00Z";
     Some "2024-01-07T09:00:00Z"; Some "2024-01-08T09:00:00Z";
     Some "2024-01-09T09:00:00Z"].
Proof. vm_compute. reflexivity. Qed.

(** *** The exclusive end of an all-day event *)

Lemma TimeClip_Some (x t : Z) : TimeClip x = Some t -> Z.abs t <= maxTime.
Proof.
  unfold TimeClip. destruct (Z.leb_spec (Z.abs x) maxTime); [|done].
  by intros [= <-].
Qed.

Lemma setDate_in_range (h : Host) (d : Date) (v : option Z) (t : Z) :
  setDate h d v = Some t -> Z.abs t <= maxTime.
Proof. destruct d, v; cbn; try done. apply TimeClip_Some. Qed.

Lemma setMonth_in_range (h : Host) (d : Date) (v : option Z) (t : Z) :
  setMonth h d v = Some t -> Z.abs t <= maxTime.
Proof. destruct d, v; cbn; try done. apply TimeClip_Some. Qed.

Lemma setFullYear_in_range (h : Host) (d : Date) (v : option Z) (t : Z) :
  setFullYear h d v = Some t -> Z.abs t <= maxTime.
Proof. destruct v; cbn; try done. apply TimeClip_Some. Qed.

(** The cursor stays a Date: a time value within the range. *)
Lemma advanceToNextDate_in_range (h : Host) (cur : Date) (freq' : string)
    (interval' : option Z) (byday' : option (list string)) (t : Z) :
  advanceToNextDate h cur freq' interval' byday' = Some t -> Z.abs t <= maxTime.
Proof.
  unfold advanceToNextDate.
  destruct (bool_decide (freq' = "YEARLY")); [apply setFullYear_in_range|].
  destruct (bool_decide (freq' = "MONTHLY")); [apply setMonth_in_range|].
  destruct (bool_decide (freq' = "WEEKLY")).
  - destruct byday' as [days|]; [|apply setDate_in_range].
    destruct (1 <? length days)%nat; [|apply setDate_in_range].
    unfold advanceToNextWeeklyDay.
    destruct (weeklySearch _ _ _ _); apply setDate_in_range.
  - destruct (bool_decide (freq' = "DAILY"));
      [apply setDate_in_range|apply setFullYear_in_range].
Qed.

Lemma compact_date_parse (h : Host) (ds : string) (y m d : Z) :
  Regex.matches Regex.compact_date ds = true ->
  compactDateFields ds = Some (y, m, d) ->
  legal_date m d = true ->
  exists s0, formatDateToISO h (Some ds) None = Ret s0
             /\ parse h s0 = Some (dayStart y m d)
             /\ Z.abs (dayStart y m d - msPerDay) <= maxTime.
Proof.
  intros H Hf Hl. pose proof H as H0.
  unfold formatDateToISO. rewrite H0.
  rewrite (matches_other_length _ Regex.compact_utc _ H0) by (cbn; lia).
  rewrite (matches_other_length _ Regex.compact_local _ H0) by (cbn; lia).
  rewrite bool_decide_eq_false_2 by done.
  unfold Regex.compact_date, Regex.d8 in H.
  split_matches H. cbn [truthy negb]. eval_strings.
  unfold compactDateFields in Hf.
  rewrite !read_digits_cons, read_digits_0 in Hf by done. cbn [mbind option_bind] in Hf.
  rewrite !read_digits_cons, read_digits_0 in Hf by done. cbn [mbind option_bind] in Hf.
  rewrite !read_digits_cons, read_digits_0 in Hf by done. cbn [mbind option_bind] in Hf.
  injection Hf as Hy Hm Hd.
  fold (digits4 a a0 a1 a2) in Hy. fold (digits2 a3 a4) in Hm. fold (digits2 a5 a6) in Hd.
  assert (0 <= y <= 9999) as Hyr by (subst y; by apply digits4_range).
  destruct (MakeDay_in_range y m d Hyr Hl) as [Hlo Hhi].
  eexists. split; [reflexivity|]. split.
  - unfold parse. rewrite parseISO_date_only by done.
    rewrite Hy, Hm, Hd, Hl. by apply TimeClip_in_range.
  - unfold dayStart, MakeDate in *. lia.
Qed.

Section AllDaySeries.
Context (h : Host) (eventData : BaseData) (exdates : list string).
Hypothesis Hallday : Regex.matches Regex.iso_date (bstart eventData) = true.
Hypothesis Hend : opt_truthy (bend eventData) = true.

(** An occurrence generated for an all-day event of duration one day. *)
Lemma createOccurrence_one_day (cur : Date) (o : Occurrence) :
  (forall t, cur = Some t -> Z.abs t <= maxTime) ->
  createOccurrence h cur eventData (Some msPerDay) exdates ∅ = Ret (Some o) ->
  one_day_long h o.
Proof.
  intros Hcur. unfold createOccurrence. rewrite Hallday.
  intros H. apply bind_Ret_inv in H as ([eventStart eventEnd'] & Hb & H).
  destruct (isDateExcluded h eventStart exdates true); [done|].
  rewrite lookup_empty in H. injection H as <-.
  destruct cur as [t|]; [|done]. specialize (Hcur t eq_refl).
  unfold occurrenceBounds in Hb. rewrite toISOString_date_part, bind_Ret, Hend in Hb.
  change (positive (Some msPerDay)) with true in Hb.
  cbn [getTime nadd mbind option_bind setTime] in Hb.
  destruct (TimeClip (t + msPerDay)) as [t'|] eqn:Hclip; [|done].
  pose proof (TimeClip_Some _ _ Hclip) as Hrange.
  unfold TimeClip in Hclip. destruct (Z.abs (t + msPerDay) <=? maxTime); [|done].
  injection Hclip as <-.
  rewrite toISOString_date_part, bind_Ret in Hb. injection Hb as <- <-.
  exists t. unfold effectiveEnd, startInstant, createNormalEvent.
  cbn [start end_ attach_opt mbind option_bind].
  rewrite !attach_truthy by apply isoDateString_truthy.
  cbn [opt_truthy default id]. rewrite !isoDateString_truthy.
  rewrite !parse_isoDateString by done. repeat split.
  cbn [nsub mbind option_bind]. f_equal. unfold MakeDate, Day.
  replace (t + msPerDay) with (t + 1 * msPerDay) by lia.
  rewrite Z.div_add by (unfold msPerDay; lia). lia.
Qed.
End AllDaySeries.

Section ExclusiveEnd.
Context (h : Host).
Hypothesis Hfixed : fixed_offset h.

Lemma eventEnd_date_only (e : RawEvent) (tz : gmap string string) (ds : string)
    (y m d : Z) :
  props e !! "DTEND" = Some ds ->
  Regex.matches Regex.compact_date ds = true ->
  compactDateFields ds = Some (y, m, d) ->
  legal_date m d = true ->
  eventEnd h e tz = Ret (Some (isoDateString (dayStart y m d - msPerDay))).
Proof.
  intros He Hm Hf Hl. unfold eventEnd. rewrite He, Hm.
  assert (truthy ds = true) as -> by (by destruct ds).
  by rewrite (formatDateToISO_full_day_end h ds y m d).
Qed.

Lemma allDayExample_end (rrule : option string) :
  eventEnd h (event (match rrule with
                     | Some r => with_prop "RRULE" r allDayExample
                     | None => allDayExample
                     end)) ∅
  = Ret (Some "2024-03-11").
Proof.
  assert (isoDateString (dayStart 2024 3 12 - msPerDay) = "2024-03-11") as <-
    by (vm_compute; reflexivity).
  apply (eventEnd_date_only _ _ "20240312" 2024 3 12); try done.
  destruct rrule as [r|]; [|done].
  cbn [with_prop event props]. by rewrite lookup_insert_ne.
Qed.

Lemma allDayExample_single :
  createEventFromData h (event allDayExample) (timezones allDayExample)
  = Ret (Some {| start := Some "2024-03-10"; end_ := Some "2024-03-11";
                 title := Some "Trip"; description := None; address := None |}).
Proof.
  unfold createEventFromData. change (timezones allDayExample) with (∅ : gmap string string).
  rewrite (allDayExample_end None).
  change (formatDateToISO h (props (event allDayExample) !! "DTSTART")
            ((∅ : gmap string string) !! "DTSTART")) with (Ret "2024-03-10" : outcome string).
  reflexivity.
Qed.

Lemma allDayExample_series (now : Z) (fuel : nat) (rrule : string)
    (l : list Occurrence) :
  generateRecurringEvents h now fuel (event (with_prop "RRULE" rrule allDayExample))
    ∅ [] = Ret l ->
  Forall (one_day_long h) l.
Proof.
  unfold generateRecurringEvents.
  pose proof (allDayExample_end (Some rrule)) as Hend. rewrite Hend. clear Hend.
  cbn [with_prop event props lists timezones].
  rewrite lookup_insert_eq, !lookup_insert_ne by done.
  destruct (negb (truthy rrule)); [by intros [= <-]|].
  change (formatDateToISO h (props (event allDayExample) !! "DTSTART")
            ((∅ : gmap string string) !! "DTSTART")) with (Ret "2024-03-10" : outcome string).
  rewrite !bind_Ret. cbn [truthy negb].
  change (parseExceptionDates h _ ∅) with (Ret [] : outcome (list string)).
  change (buildExceptionMap h [] ∅) with (Ret ∅ : outcome (gmap string EventData)).
  rewrite !bind_Ret. unfold generateOccurrences.
  destruct (freq (parseRRule rrule)) as [f|]; [|by intros [= <-]].
  destruct (negb (truthy f)); [by intros [= <-]|].
  cbn [bstart bend]. unfold setupDateLimits.
  assert (calculateDuration h "2024-03-10" (Some "2024-03-11") = Some msPerDay) as ->
    by (vm_compute; reflexivity).
  assert (parse h "2024-03-10" = Some 1710028800000) as ->
    by (vm_compute; reflexivity).
  cbv beta iota zeta.
  apply (loop_invariant_cursor _ _ _ _ _ _ _ _ _ _ _
           (fun c => forall t, c = Some t -> Z.abs t <= maxTime)).
  - intros c _ t. apply advanceToNextDate_in_range.
  - intros c o Hc. by apply createOccurrence_one_day.
  - intros t [= <-]. vm_compute. discriminate.
  - constructor.
Qed.
End ExclusiveEnd.

(** The exclusive end on base events: a date-only end boundary comes back
    as the day before the date written (the host having a fixed offset, the
    value naming a month 01 to 12 and a day 01 to 31): the text returned is
    the one of the instant one day before the midnight the value denotes.
    The all-day event with DTSTART:20240310 and DTEND:20240312 yields the
    end 2024-03-11, and every occurrence generated for it, under any RRULE,
    ends one day after it starts. *)
Theorem full_day_end_exclusive (h : Host) :
  fixed_offset h ->
  (forall (ds : string) (y m d : Z),
     Regex.matches Regex.compact_date ds = true ->
     compactDateFields ds = Some (y, m, d) ->
     legal_date m d = true ->
     formatDateToISO h (Some ds) (Some "FULL_DAY_END")
       = Ret (isoDateString (dayStart y m d - msPerDay))
     /\ (exists s0, formatDateToISO h (Some ds) None = Ret s0
                    /\ parse h s0 = Some (dayStart y m d))
     /\ parse h (isoDateString (dayStart y m d - msPerDay))
        = Some (dayStart y m d - msPerDay)
     /\ (forall (e : RawEvent) (tz : gmap string string),
           props e !! "DTEND" = Some ds ->
           eventEnd h e tz = Ret (Some (isoDateString (dayStart y m d - msPerDay)))))
  /\ createEventFromData h (event allDayExample) (timezones allDayExample)
     = Ret (Some {| start := Some "2024-03-10"; end_ := Some "2024-03-11";
                    title := Some "Trip"; description := None; address := None |})
  /\ (forall (now : Z) (fuel : nat) (rrule : string) (l : list Occurrence),
        generateRecurringEvents h now fuel
          (event (with_prop "RRULE" rrule allDayExample)) ∅ [] = Ret l ->
        Forall (one_day_long h) l).
Proof.
  intros Hfix. split; [|split].
  - intros ds y m d Hm Hf Hl.
    destruct (compact_date_parse h ds y m d Hm Hf Hl) as (s0 & Hs0 & Hp & Hrange).
    split; [by apply formatDateToISO_full_day_end|].
    split; [by exists s0|]. split.
    + rewrite parse_isoDateString by done. f_equal.
      unfold dayStart, MakeDate, Day.
      replace (MakeDay y (m - 1) d * msPerDay + 0 - msPerDay)
        with ((MakeDay y (m - 1) d - 1) * msPerDay) by lia.
      rewrite Z.div_mul by (unfold msPerDay; lia). lia.
    + intros e tz He. by apply (eventEnd_date_only h Hfix e tz ds y m d).
  - by apply allDayExample_single.
  - intros now fuel rrule l. by apply allDayExample_series.
Qed.

(** The end boundary 20240312 on the UTC host. *)
Lemma full_day_end_exclusive_witness :
  formatDateToISO utcHost (Some "20240312") (Some "FULL_DAY_END") = Ret "2024-03-11".
Proof.
  assert (fixed_offset utcHost) as Hfix by (by exists 0).
  apply (proj1 (proj1 (full_day_end_exclusive utcHost Hfix) "20240312" 2024 3 12
                  eq_refl eq_refl eq_refl)).
Defined.

Example allDayExample_daily :
  generateRecurringEvents utcHost sampleNow 20
    (event (with_prop "RRULE" "FREQ=DAILY;COUNT=3" allDayExample)) ∅ []
  = Ret [ {| start := Some "2024-03-10"; end_ := Some "2024-03-11";
             title := Some "Trip"; description := None; address := None |};
          {| start := Some "2024-03-11"; end_ := Some "2024-03-12";
             title := Some "Trip"; description := None; address := None |};
          {| start := Some "2024-03-12"; end_ := Some "2024-03-13";
             title := Some "Trip"; description := None; address := None |} ].
Proof. vm_compute. reflexivity. Qed.

(** C8 holds of base events ([full_day_end_exclusive]) and fails of
    exception instances: [createExceptionEvent] passes a date-only DTEND to
    the Normalizer without the end-boundary mark that [createEventFromData]
    and [generateRecurringEvents] give it.  The two-day instance of
    [movedInstanceCalendar], DTSTART:20240311 and DTEND:20240313, is emitted
    with the end 2024-03-13; the same properties in a base event give the
    end 2024-03-12. *)
Theorem exception_end_not_adjusted :
  createExceptionEvent utcHost movedInstance
  = Ret {| start := Some "2024-03-11"; end_ := Some "2024-03-13";
           title := Some "Camp (long day)"; description := None; address := None |}
  /\ createEventFromData utcHost (event movedInstance) (timezones movedInstance)
     = Ret (Some {| start := Some "2024-03-11"; end_ := Some "2024-03-12";
                    title := Some "Camp (long day)"; description := None;
                    address := None |})
  /\ parseICS utcHost sampleNow 20 movedInstanceCalendar
     = Ret [ {| start := Some "2024-03-10"; end_ := Some "2024-03-10";
                title := Some "Camp"; description := None; address := None |};
             {| start := Some "2024-03-11"; end_ := Some "2024-03-13";
                title := Some "Camp (long day)"; description := None;
                address := None |};
             {| start := Some "2024-03-12"; end_ := Some "2024-03-12";
                title := Some "Camp"; description := None; address := None |} ].
Proof. repeat split; vm_compute; reflexivity. Qed.

(** A date-only DTEND of an exception instance comes back as it is written,
    on every host. *)
Lemma createExceptionEvent_end_as_written (h : Host) (ex : EventData) (ds : string)
    (o : Occurrence) :
  props (event ex) !! "DTEND" = Some ds ->
  timezones ex !! "DTEND" = None ->
  Regex.matches Regex.compact_date ds = true ->
  createExceptionEvent h ex = Ret o ->
  exists s, formatDateToISO h (Some ds) None = Ret s /\ end_ o = Some s.
Proof.
  intros Hd Htz Hm. unfold createExceptionEvent, has_prop. rewrite Hd, Htz.
  assert (truthy ds = true) as Hds by (by destruct ds). cbn [opt_truthy]. rewrite Hds.
  destruct (formatDateToISO_date h ds None Hm ltac:(done)) as (s & Hs & Hiso).
  rewrite Hs. intros H. apply bind_Ret_inv in H as (s' & _ & H).
  cbn in H. injection H as <-. exists s. split; [done|]. cbn [end_ attach_opt mbind option_bind].
  apply attach_truthy. by destruct s.
Qed.

(** A record without start is within reach of the Result Selector: the
    modified instance of [startlessCalendar] has none. *)
Example startless_record_reachable :
  parseICS utcHost sampleNow 20 startlessCalendar
  = Ret [ {| start := Some "2024-03-10"; end_ := None; title := Some "Series";
             description := None; address := None |};
          {| start := None; end_ := Some "2030-01-01T00:00:00Z";
             title := Some "No start"; description := None; address := None |} ].
Proof. vm_compute. reflexivity. Qed.

(** The day named by an EXDATE takes no slot: the daily series of three of
    [sampleCalendar] skips 11 March and still has three occurrences. *)
Example excluded_day_takes_no_slot :
  generateOccurrences utcHost sampleNow 20 sampleBase
    (parseRRule "FREQ=DAILY;COUNT=3") ["2024-03-11"] ∅
  = Ret ((fun t => slotOccurrence sampleBase (Some 86400000) t)
           <$> [1710028800000; 1710201600000; 1710288000000])
  /\ isoDateString 1710201600000 = "2024-03-12"
  /\ isoDateString 1710288000000 = "2024-03-13".
Proof. repeat split; vm_compute; reflexivity. Qed.

(** The weekly example of the specification: Mondays and Wednesdays from
    1 January 2024, four occurrences. *)
Example weekly_monday_wednesday :
  generateOccurrences utcHost sampleNow 20
    {| bstart := "2024-01-01T09:00:00Z"; bend := None; btitle := "W";
       bdescription := EmptyString; baddress := EmptyString |}
    (parseRRule "FREQ=WEEKLY;BYDAY=MO,WE;COUNT=4") [] ∅
  = Ret ((fun s => {| start := Some s; end_ := None; title := Some "W";
                      description := None; address := None |})
           <$> ["2024-01-01T09:00:00Z"; "2024-01-03T09:00:00Z";
                "2024-01-08T09:00:00Z"; "2024-01-10T09:00:00Z"]).
Proof. vm_compute. reflexivity. Qed.

(** The amended C3 at a text without escape sequence. *)
Lemma unescapeICS_fixed_witness :
  unescapeICS "Room 4; bring \ or / as needed" = "Room 4; bring \ or / as needed".
Proof.
  apply (proj2 (proj1 unescapeICS_fixed_iff_escape_free _)). reflexivity.
Defined.

(** ** Part III: further properties of the code *)

(** *** Line Unfolder *)

Lemma split_cons_inv (sep : ascii) (s : string) : split sep s <> [].
Proof. destruct s as [|c s]; cbn; [done|]. by repeat case_match. Qed.

Lemma split_no_sep (sep : ascii) (s : string) :
  Forall (fun l => all_chars (fun c => negb (Ascii.eqb c sep)) l = true) (split sep s).
Proof.
  induction s as [|c s IH]; cbn [split]; [by repeat constructor|].
  destruct (Ascii.eqb c sep) eqn:Hc; [by constructor|].
  destruct (split sep s) as [|x r]; [by repeat constructor; cbn; rewrite Hc|].
  apply Forall_cons in IH as [Hx Hr]. constructor; [|done].
  cbn [all_chars]. by rewrite Hc, Hx.
Qed.

Lemma split_app_sep (sep : ascii) (s1 s2 : string) :
  split sep (s1 ++ String sep s2)%string = (split sep s1 ++ split sep s2)%list.
Proof.
  induction s1 as [|c s1 IH]; rewrite ?append_cons, ?append_nil; cbn [split].
  - by rewrite Ascii.eqb_refl.
  - destruct (Ascii.eqb c sep); [by rewrite IH|]. rewrite IH.
    pose proof (split_cons_inv sep s1). by destruct (split sep s1).
Qed.

Lemma all_chars_list (p : ascii -> bool) (s : string) :
  all_chars p s = forallb p (list_ascii_of_string s).
Proof. induction s as [|c s IH]; cbn; [done|]. by rewrite IH. Qed.

Lemma all_chars_rev (p : ascii -> bool) (s : string) :
  all_chars p (rev s) = all_chars p s.
Proof.
  unfold rev. rewrite !all_chars_list, list_ascii_of_string_of_list_ascii.
  apply eq_true_iff_eq. rewrite !forallb_forall.
  split; intros H x Hx; apply H; [by apply in_rev in Hx|by apply in_rev].
Qed.

Lemma all_chars_trimStart (p : ascii -> bool) (s : string) :
  all_chars p s = true -> all_chars p (trimStart s) = true.
Proof.
  induction s as [|c s IH]; [done|]. cbn [trimStart all_chars].
  intros [Hc Hs]%andb_true_iff. destruct (is_space c); [by apply IH|].
  cbn [all_chars]. by rewrite Hc, Hs.
Qed.

Lemma all_chars_trim (p : ascii -> bool) (s : string) :
  all_chars p s = true -> all_chars p (trim s) = true.
Proof.
  intros H. unfold trim. rewrite all_chars_rev. apply all_chars_trimStart.
  rewrite all_chars_rev. by apply all_chars_trimStart.
Qed.

Lemma all_chars_drop (p : ascii -> bool) (n : nat) (s : string) :
  all_chars p s = true -> all_chars p (drop n s) = true.
Proof.
  revert s. induction n as [|n IH]; intros [|c s]; cbn [drop all_chars]; try done.
  intros [_ Hs]%andb_true_iff. by apply IH.
Qed.

Lemma unfoldICSLines_flush (icsData : string) :
  unfoldICSLines icsData = flush (fold_left unfold_step (split LF icsData) ([], EmptyString)).
Proof. reflexivity. Qed.

Lemma unfold_step_eq (a : list string) (c l : string) :
  unfold_step (a, c) l
  = if continuation l then (a, (c ++ drop 1 l)%string)
    else (if truthy c then (a ++ [c])%list else a, trim l).
Proof. reflexivity. Qed.

Lemma unfold_step_prefix (acc : list string) (ls : list string) (st : list string * string) :
  fold_left unfold_step ls ((acc ++ st.1)%list, st.2)
  = ((acc ++ (fold_left unfold_step ls st).1)%list, (fold_left unfold_step ls st).2).
Proof.
  revert st. induction ls as [|l ls IH]; intros [a c]; [done|].
  cbn [fold_left fst snd]. rewrite !unfold_step_eq.
  destruct (continuation l).
  - apply (IH (a, (c ++ drop 1 l)%string)).
  - destruct (truthy c).
    + rewrite <- app_assoc. apply (IH ((a ++ [c])%list, trim l)).
    + apply (IH (a, trim l)).
Qed.

Lemma flush_prefix (acc : list string) (st : list string * string) :
  flush ((acc ++ st.1)%list, st.2) = (acc ++ flush st)%list.
Proof. destruct st as [a c]. cbn. destruct (truthy c); [by rewrite app_assoc|done]. Qed.

(** The lines kept so far are non-empty and hold no line feed, and the line
    in progress holds none either. *)
Lemma unfold_step_invariant (ls : list string) (st : list string * string) :
  Forall (fun l => one_line l = true) ls ->
  Forall (fun l => truthy l = true /\ one_line l = true) st.1 ->
  one_line st.2 = true ->
  Forall (fun l => truthy l = true /\ one_line l = true) (fold_left unfold_step ls st).1
  /\ one_line (fold_left unfold_step ls st).2 = true.
Proof.
  revert st. induction ls as [|l ls IH]; intros [a c] Hls Ha Hc; [done|].
  apply Forall_cons in Hls as [Hl Hls]. cbn [fold_left fst snd] in *.
  apply IH; [done|..]; rewrite unfold_step_eq;
    destruct (continuation l); cbn [fst snd].
  - done.
  - destruct (truthy c) eqn:Htc; [|done].
    apply Forall_app. split; [done|]. by repeat constructor.
  - unfold one_line. rewrite all_chars_app. apply andb_true_iff. split; [done|].
    by apply all_chars_drop.
  - by apply all_chars_trim.
Qed.

(** X1: No unfolded line is empty, and none holds a line feed. *)
Theorem unfoldICSLines_lines (icsData : string) :
  Forall (fun l => truthy l = true /\ one_line l = true) (unfoldICSLines icsData).
Proof.
  rewrite unfoldICSLines_flush.
  destruct (unfold_step_invariant (split LF icsData) ([], EmptyString)) as [Ha Hc];
    [apply split_no_sep|done|done|].
  destruct (fold_left unfold_step (split LF icsData) ([], EmptyString)) as [a c].
  cbn [flush fst snd] in *. destruct (truthy c) eqn:Htc; [|done].
  apply Forall_app. split; [done|]. by repeat constructor.
Qed.

(** The loop over lines none of which is a continuation. *)
Lemma unfold_plain (ls : list string) (acc : list string) (cur : string) :
  Forall (fun l => continuation l = false) ls ->
  flush (fold_left unfold_step ls (acc, cur))
  = (acc ++ List.filter truthy (cur :: (trim <$> ls)))%list.
Proof.
  revert acc cur. induction ls as [|l ls IH]; intros acc cur Hls.
  - cbn. destruct (truthy cur); [done|by rewrite app_nil_r].
  - apply Forall_cons in Hls as [Hl Hls]. cbn [fold_left].
    rewrite unfold_step_eq, Hl.
    rewrite IH by done. cbn [fmap list_fmap List.filter].
    destruct (truthy cur); [by rewrite <- app_assoc|done].
Qed.

(** X2: Without continuation lines the unfolded lines are the physical lines,
    each trimmed of the white space at its ends (the carriage return of a
    CRLF line break with it), the empty ones left out. *)
Theorem unfoldICSLines_plain (icsData : string) :
  Forall (fun l => continuation l = false) (split LF icsData) ->
  unfoldICSLines icsData = List.filter truthy (trim <$> split LF icsData).
Proof. intros H. rewrite unfoldICSLines_flush, unfold_plain by done. done. Qed.

(** Evaluates the list of a [Forall] goal and checks its elements. *)
Ltac forall_eval :=
  match goal with
  | |- Forall _ ?l => let v := eval vm_compute in l in change l with v
  end;
  repeat first [apply List.Forall_nil | apply List.Forall_cons; [vm_compute; reflexivity|]].

Lemma unfoldICSLines_plain_witness :
  unfoldICSLines (String "A" (String CR (String LF (String LF "B:1 "))))
  = ["A"; "B:1"].
Proof. rewrite unfoldICSLines_plain; [reflexivity|forall_eval]. Defined.

Lemma unfold_continued (conts : list string) (acc : list string) (cur : string) :
  Forall (fun l => continuation l = true) conts ->
  fold_left unfold_step conts (acc, cur) = (acc, (cur ++ continued conts)%string).
Proof.
  revert cur. induction conts as [|l conts IH]; intros cur Hc; cbn [fold_left continued foldr].
  - f_equal. clear. induction cur as [|c cur IHc]; [done|]. by rewrite append_cons, <- IHc.
  - apply Forall_cons in Hc as [Hl Hc]. rewrite unfold_step_eq, Hl, IH by done.
    by rewrite append_assoc.
Qed.

(** X3: A line and its continuation lines make one unfolded line: the first
    line trimmed, then every continuation line without its first character. *)
Theorem unfoldICSLines_folded (icsData first : string) (conts : list string) :
  split LF icsData = first :: conts ->
  continuation first = false ->
  Forall (fun l => continuation l = true) conts ->
  unfoldICSLines icsData
  = List.filter truthy [(trim first ++ continued conts)%string].
Proof.
  intros Hs Hf Hc. rewrite unfoldICSLines_flush, Hs. cbn [fold_left].
  rewrite unfold_step_eq, Hf. cbn [truthy]. by rewrite unfold_continued.
Qed.

Lemma unfoldICSLines_folded_witness :
  unfoldICSLines
    (String "D" (String "E" (String "S" (String ":" (String "a" (String CR (String LF
      (String " " (String "b" (String CR (String LF (String TAB (String "c" EmptyString)))))))))))))
  = [String "D" (String "E" (String "S" (String ":" (String "a" (String "b"
       (String CR (String "c" EmptyString)))))))].
Proof.
  rewrite (unfoldICSLines_folded _ (String "D" (String "E" (String "S" (String ":"
             (String "a" (String CR EmptyString))))))
             [String " " (String "b" (String CR EmptyString)); String TAB "c"]);
    [reflexivity|reflexivity|reflexivity|forall_eval].
Defined.

Lemma split_head_continuation (s : string) :
  continuation s = false ->
  exists l ls, split LF s = l :: ls /\ continuation l = false.
Proof.
  destruct s as [|c s]; [by exists EmptyString, []|]. cbn [split].
  destruct (Ascii.eqb c LF) eqn:Hc; [by eexists _, _|].
  intros H. pose proof (split_cons_inv LF s) as Hne.
  destruct (split LF s) as [|x r]; [done|]. exists (String c x), r. split; [done|].
  revert H. unfold continuation, startsWith. cbn [String.prefix].
  by destruct x, s.
Qed.

(** X4: Unfolding goes text by text: where a line break is followed by a line
    that is not a continuation, the lines before and the lines after are
    unfolded on their own. *)
Theorem unfoldICSLines_app (s1 s2 : string) :
  continuation s2 = false ->
  unfoldICSLines (s1 ++ String LF s2)%string
  = (unfoldICSLines s1 ++ unfoldICSLines s2)%list.
Proof.
  intros (l & ls & Hs2 & Hl)%split_head_continuation.
  rewrite !unfoldICSLines_flush, split_app_sep, fold_left_app, Hs2.
  destruct (fold_left unfold_step (split LF s1) ([], EmptyString)) as [a1 c1] eqn:E.
  cbn [fold_left]. rewrite !unfold_step_eq, Hl. cbn [truthy].
  pose proof (unfold_step_prefix (flush (a1, c1)) ls ([], trim l)) as Hp.
  cbn [fst snd] in Hp. rewrite app_nil_r in Hp. cbn [flush] in Hp |- *.
  rewrite Hp.
  apply (flush_prefix (if truthy c1 then (a1 ++ [c1])%list else a1)
                      (fold_left unfold_step ls ([], trim l))).
Qed.

Lemma unfoldICSLines_app_witness :
  unfoldICSLines ("BEGIN:VEVENT" ++ String LF "UID:1")%string
  = (unfoldICSLines "BEGIN:VEVENT" ++ unfoldICSLines "UID:1")%list.
Proof. apply unfoldICSLines_app. reflexivity. Defined.

(** *** Property Grouper *)

Lemma multiValued_base (k : string) : multiValued k = true -> before ";" k = k.
Proof.
  unfold multiValued. intros H%bool_decide_eq_true_1.
  repeat (apply elem_of_cons in H as [->|H]; [reflexivity|]).
  by apply elem_of_nil in H.
Qed.

Lemma emptyEvent_shape : grouped_shape emptyEvent.
Proof.
  split; [intros k _; apply lookup_empty|]. intros k vs. cbn [emptyEvent lists].
  by rewrite lookup_empty.
Qed.

Lemma lookup_assign_ne (key value k : string) (obj : gmap string string) :
  key <> k -> assign key value obj !! k = obj !! k.
Proof.
  intros Hne. unfold assign. destruct (bool_decide (key = "__proto__")); [done|].
  by rewrite lookup_insert_ne.
Qed.

Lemma parseEventProperty_shape (line : string) (ev : RawEvent)
    (tz : gmap string string) :
  grouped_shape ev -> grouped_shape (parseEventProperty line ev tz).1.
Proof.
  intros [Hp Hl]. unfold parseEventProperty.
  destruct (indexOf ":" line) as [[|n]|]; [done| |done].
  set (key := trim (take (S n) line)). set (value := trim (drop (S (S n)) line)).
  cbn [fst]. destruct (multiValued (before ";" key)) eqn:Hmv; split; cbn [props lists].
  - done.
  - intros k vs. destruct (decide (before ";" key = k)) as [<-|Hne].
    + rewrite lookup_insert_eq. intros [= <-]. split; [done|].
      by destruct (default [] (lists ev !! before ";" key)).
    + rewrite lookup_insert_ne by done. apply Hl.
  - intros k Hk.
    assert (before ";" key <> k) as Hbase by (intros <-; congruence).
    destruct (bool_decide (key = before ";" key)) eqn:Hkey.
    + rewrite lookup_assign_ne by done. by apply Hp.
    + apply bool_decide_eq_false_1 in Hkey.
      rewrite !lookup_assign_ne; [by apply Hp|done|].
      intros ->. apply Hkey. symmetry. by apply multiValued_base.
  - done.
Qed.

Lemma grouper_step_invariant (st : GrouperState) (line : string) :
  grouper_invariant st -> grouper_invariant (grouper_step st line).
Proof.
  intros Hinv. pose proof Hinv as (Hmain & Hexc & Hcur). unfold grouper_step.
  destruct (startsWith "BEGIN:VEVENT" line).
  { split; [done|]. split; [done|]. cbn [currentEvent].
    intros ev [= <-]. apply emptyEvent_shape. }
  destruct (startsWith "END:VEVENT" line).
  - destruct (currentEvent st) as [ev|] eqn:Hev; [|exact Hinv].
    specialize (Hcur ev eq_refl).
    destruct (has_prop ev "RECURRENCE-ID") eqn:Hrid.
    + split; [done|]. split; [|done]. cbn [recurrenceExceptions].
      destruct (truthy (default EmptyString (props ev !! "UID"))) eqn:Huid; [|done].
      destruct (props ev !! "UID") as [u|] eqn:Hu; [|done]. cbn [default id] in *.
      intros uid l. destruct (decide (u = uid)) as [<-|Hne].
      * rewrite lookup_insert_eq. intros [= <-]. split; [done|]. split.
        { by destruct (default [] (recurrenceExceptions st !! u)). }
        apply Forall_app.
        split; [|apply List.Forall_cons; [split; [exact Hcur|by split]|constructor]].
        destruct (recurrenceExceptions st !! u) as [l0|] eqn:Hl0; [|done].
        by apply (Hexc u l0).
      * rewrite lookup_insert_ne by done. apply Hexc.
    + split; [|done]. cbn [mainEvents]. apply Forall_app. split; [done|].
      apply List.Forall_cons; [split; [exact Hcur|done]|constructor].
  - destruct (currentEvent st) as [ev|] eqn:Hev; [|exact Hinv].
    destruct (parseEventProperty line ev (currentTimezones st)) as [ev' tz'] eqn:Hp.
    split; [done|]. split; [done|]. cbn [currentEvent]. intros ? [= <-].
    pose proof (parseEventProperty_shape line ev (currentTimezones st)
                  (Hcur ev eq_refl)) as Hs.
    by rewrite Hp in Hs.
Qed.

Lemma grouper_fold_invariant (ls : list string) (st : GrouperState) :
  grouper_invariant st -> grouper_invariant (fold_left grouper_step ls st).
Proof.
  revert st. induction ls as [|l ls IH]; intros st Hst; [done|].
  cbn [fold_left]. by apply IH, grouper_step_invariant.
Qed.

(** X5: Every event the Property Grouper returns has the shape of the model: a
    base event carries no RECURRENCE-ID; an exception instance carries one
    and is filed under its own, non-empty UID; no UID is filed with an empty
    list. *)
Theorem parseEventsFromLines_filing (unfoldedLines : list string) :
  Forall filed_as_main (parseEventsFromLines unfoldedLines).1
  /\ (forall uid l, (parseEventsFromLines unfoldedLines).2 !! uid = Some l ->
        truthy uid = true /\ l <> [] /\ Forall (filed_under uid) l).
Proof.
  unfold parseEventsFromLines. cbn [fst snd].
  destruct (grouper_fold_invariant unfoldedLines
              {| mainEvents := []; recurrenceExceptions := ∅;
                 currentEvent := None; currentTimezones := ∅ |})
    as (Hm & He & _); [|done].
  split; [constructor|]. split; [|done]. cbn [recurrenceExceptions].
  intros uid l. by rewrite lookup_empty.
Qed.

Lemma grouper_outside (pre : list string) (st : GrouperState) :
  currentEvent st = None ->
  Forall (fun l => startsWith "BEGIN:VEVENT" l = false) pre ->
  fold_left grouper_step pre st = st.
Proof.
  intros Hst. induction 1 as [|l pre Hl _ IH]; [done|].
  cbn [fold_left]. unfold grouper_step at 2. rewrite Hl, Hst.
  by destruct (startsWith "END:VEVENT" l).
Qed.

Lemma grouper_unclosed (post : list string) (st : GrouperState) :
  Forall (fun l => startsWith "END:VEVENT" l = false) post ->
  mainEvents (fold_left grouper_step post st) = mainEvents st
  /\ recurrenceExceptions (fold_left grouper_step post st) = recurrenceExceptions st.
Proof.
  intros H. revert st. induction H as [|l post Hl _ IH]; intros st; [done|].
  cbn [fold_left]. destruct (IH (grouper_step st l)) as [-> ->].
  unfold grouper_step. rewrite Hl.
  destruct (startsWith "BEGIN:VEVENT" l); [done|].
  destruct (currentEvent st) as [ev|]; [|done].
  by destruct (parseEventProperty l ev (currentTimezones st)).
Qed.

(** X6: Lines before the first BEGIN:VEVENT and lines after the last END:VEVENT
    play no part: text around the events is ignored, and an event that is
    not closed is dropped. *)
Theorem parseEventsFromLines_outside (pre ls post : list string) :
  Forall (fun l => startsWith "BEGIN:VEVENT" l = false) pre ->
  Forall (fun l => startsWith "END:VEVENT" l = false) post ->
  parseEventsFromLines (pre ++ ls ++ post) = parseEventsFromLines ls.
Proof.
  intros Hpre Hpost. unfold parseEventsFromLines.
  rewrite !fold_left_app, (grouper_outside pre) by done.
  by destruct (grouper_unclosed post
                 (fold_left grouper_step ls
                    {| mainEvents := []; recurrenceExceptions := ∅;
                       currentEvent := None; currentTimezones := ∅ |}) Hpost)
    as [-> ->].
Qed.

Lemma parseEventsFromLines_outside_witness :
  parseEventsFromLines
    (["BEGIN:VCALENDAR"; "VERSION:2.0"]
     ++ ["BEGIN:VEVENT"; "UID:1"; "END:VEVENT"]
     ++ ["BEGIN:VEVENT"; "UID:2"; "SUMMARY:never closed"; "END:VCALENDAR"])
  = parseEventsFromLines ["BEGIN:VEVENT"; "UID:1"; "END:VEVENT"].
Proof. apply parseEventsFromLines_outside; forall_eval. Defined.

(** X7: A text in which no line begins an event gives the empty list, not an
    error: [parseICS] returns no occurrence, and [main] answers with an
    empty list of events. *)
Theorem no_event_no_occurrence (h : Host) (now : Z) (fuel : nat) (icsData : string) :
  Forall (fun l => startsWith "BEGIN:VEVENT" l = false) (unfoldICSLines icsData) ->
  parseICS h now fuel icsData = Ret []
  /\ forall (fetch : string -> outcome Response) (u : string) (response : Response),
       truthy u = true -> fetch u = Ret response -> ok response = true ->
       text response = icsData ->
       (main h now fuel fetch (Some u)).2 = Ret (BodyEvents []).
Proof.
  intros Hlines.
  assert (parseICS h now fuel icsData = Ret []) as Hparse.
  { unfold parseICS.
    unfold parseEventsFromLines. by rewrite (grouper_outside (unfoldICSLines icsData)). }
  split; [done|]. intros fetch u response Hu Hf Hok Htext.
  unfold main. rewrite Hu, Hf, Hok. cbn [negb snd]. by rewrite Htext, Hparse.
Qed.

Lemma no_event_no_occurrence_witness :
  parseICS utcHost sampleNow 10 "<html><body>Not a calendar</body></html>" = Ret [].
Proof.
  apply (proj1 (no_event_no_occurrence utcHost sampleNow 10
                  "<html><body>Not a calendar</body></html>" ltac:(forall_eval))).
Defined.

(** *** Strings *)

Lemma append_empty_r (s : string) : (s ++ EmptyString)%string = s.
Proof. induction s as [|c s IH]; [done|]. by rewrite append_cons, IH. Qed.

Lemma all_chars_impl (p q : ascii -> bool) (s : string) :
  (forall c, p c = true -> q c = true) -> all_chars p s = true -> all_chars q s = true.
Proof.
  intros Hpq. induction s as [|c s IH]; [done|]. cbn [all_chars].
  intros [Hc Hs]%andb_true_iff. by rewrite (Hpq c Hc), IH.
Qed.

Lemma rev_rev (s : string) : rev (rev s) = s.
Proof.
  unfold rev. rewrite list_ascii_of_string_of_list_ascii, rev_involutive.
  apply string_of_list_ascii_of_string.
Qed.

Lemma trimStart_id (s : string) :
  all_chars (fun c => negb (is_space c)) s = true -> trimStart s = s.
Proof.
  destruct s as [|c s]; [done|]. cbn [all_chars trimStart].
  intros [Hc _]%andb_true_iff. apply negb_true_iff in Hc. by rewrite Hc.
Qed.

Lemma trim_id (s : string) :
  all_chars (fun c => negb (is_space c)) s = true -> trim s = s.
Proof.
  intros H. unfold trim. rewrite (trimStart_id s H).
  rewrite trimStart_id by (by rewrite all_chars_rev). apply rev_rev.
Qed.

Lemma indexOf_app (ch : ascii) (x r : string) :
  all_chars (fun c => negb (Ascii.eqb c ch)) x = true ->
  indexOf ch (x ++ String ch r)%string = Some (String.length x).
Proof.
  induction x as [|c x IH]; rewrite ?append_cons, ?append_nil; cbn [indexOf all_chars].
  - by rewrite Ascii.eqb_refl.
  - intros [Hc Hx]%andb_true_iff. apply negb_true_iff in Hc. rewrite Hc, IH by done.
    done.
Qed.

Lemma take_app_length (x r : string) : take (String.length x) (x ++ r)%string = x.
Proof.
  induction x as [|c x IH]; rewrite ?append_cons, ?append_nil; cbn [take String.length].
  - by destruct r.
  - by rewrite IH.
Qed.

Lemma drop_app_length (x r : string) : drop (String.length x) (x ++ r)%string = r.
Proof. induction x as [|c x IH]; rewrite ?append_cons, ?append_nil; cbn; [done|apply IH]. Qed.

Lemma drop_app_sep (x : string) (c : ascii) (r : string) :
  drop (S (String.length x)) (x ++ String c r)%string = r.
Proof. induction x as [|d x IH]; rewrite ?append_cons, ?append_nil; cbn; [done|apply IH]. Qed.

Lemma before_no_sep (sep : ascii) (x : string) :
  all_chars (fun c => negb (Ascii.eqb c sep)) x = true -> before sep x = x.
Proof.
  induction x as [|c x IH]; [done|]. cbn [before all_chars].
  intros [Hc Hx]%andb_true_iff. apply negb_true_iff in Hc. by rewrite Hc, IH.
Qed.

Lemma prefix_app (p r : string) : String.prefix p (p ++ r)%string = true.
Proof.
  induction p as [|c p IH]; rewrite ?append_cons, ?append_nil; cbn [String.prefix].
  - by destruct r.
  - by destruct (ascii_dec c c).
Qed.

Lemma prefix_inv (p s : string) :
  String.prefix p s = true -> exists r, s = (p ++ r)%string.
Proof.
  revert s. induction p as [|c p IH]; intros s; [by exists s|].
  destruct s as [|d s]; cbn [String.prefix]; [done|].
  destruct (ascii_dec c d) as [<-|]; [|done].
  intros [r ->]%IH. by exists r.
Qed.

Lemma includes_app (p x r : string) : includes p (x ++ p ++ r)%string = true.
Proof.
  induction x as [|c x IH]; rewrite ?append_cons, ?append_nil.
  - destruct (p ++ r)%string eqn:E; cbn [includes]; rewrite <- ?E, prefix_app; done.
  - cbn [includes]. rewrite IH. apply orb_true_r.
Qed.

Lemma take_while_all (p : ascii -> bool) (s : string) :
  all_chars p s = true -> take_while p s = s.
Proof.
  induction s as [|c s IH]; [done|]. cbn [all_chars take_while].
  intros [Hc Hs]%andb_true_iff. by rewrite Hc, IH.
Qed.

(** *** Property lines *)

Lemma tzidMatch_here (zone : string) :
  zone <> EmptyString -> all_chars zone_char zone = true ->
  tzidMatch ("TZID=" ++ zone)%string = Some zone.
Proof.
  intros Hne Hz.
  assert (take_while (fun c => negb (Ascii.eqb c ":" || Ascii.eqb c ";")) zone = zone) as Ht.
  { apply take_while_all. revert Hz. apply all_chars_impl. intros c. unfold zone_char.
    destruct (is_space c), (Ascii.eqb c ":"), (Ascii.eqb c ";"); done. }
  change ("TZID=" ++ zone)%string
    with (String "T" (String "Z" (String "I" (String "D" (String "=" zone))))).
  cbn [tzidMatch String.prefix drop]. cbn. rewrite Ht. unfold attach.
  by destruct zone.
Qed.

Lemma tzidMatch_skip (c : ascii) (s : string) :
  String.prefix "TZID=" (String c s) = false -> tzidMatch (String c s) = tzidMatch s.
Proof. intros H. cbn [tzidMatch]. by rewrite H. Qed.

Lemma no_tzid_in_name (name rest : string) :
  name <> EmptyString ->
  all_chars (fun c => negb (Ascii.eqb c "=")) name = true ->
  String.prefix "TZID=" (name ++ String ";" rest)%string = false.
Proof.
  intros Hne Hn. apply not_true_is_false. intros [r E]%prefix_inv.
  change ("TZID=" ++ r)%string
    with (String "T" (String "Z" (String "I" (String "D" (String "=" r))))) in E.
  destruct name as [|c1 [|c2 [|c3 [|c4 [|c5 name]]]]];
    rewrite ?append_cons, ?append_nil in E; simplify_eq.
Qed.

Lemma tzidMatch_after_name (name zone : string) :
  all_chars (fun c => negb (Ascii.eqb c "=")) name = true ->
  zone <> EmptyString -> all_chars zone_char zone = true ->
  tzidMatch (name ++ ";TZID=" ++ zone)%string = Some zone.
Proof.
  intros Hn Hne Hz. induction name as [|c name IH].
  - rewrite append_nil.
    change (";TZID=" ++ zone)%string with (String ";" ("TZID=" ++ zone)).
    rewrite tzidMatch_skip by done. by apply tzidMatch_here.
  - cbn [all_chars] in Hn. apply andb_true_iff in Hn as [Hc Hn].
    rewrite append_cons, tzidMatch_skip; [by apply IH|].
    rewrite <- append_cons.
    change (";TZID=" ++ zone)%string with (String ";" ("TZID=" ++ zone)).
    apply no_tzid_in_name; [done|]. cbn [all_chars]. by rewrite Hc, Hn.
Qed.

(** X8: A property line [NAME;TZID=zone:value] files the trimmed value under
    [NAME] (in the array of a multi-valued name, else as a string, which is
    also kept under the full key) and the zone under [NAME] among the time
    zones.  The name [__proto__] is the exception: the value is kept under
    the full key only, and no zone is recorded. *)
Theorem parseEventProperty_zone (name zone value : string) (ev : RawEvent)
    (tz : gmap string string) :
  name <> EmptyString -> all_chars name_char name = true ->
  zone <> EmptyString -> all_chars zone_char zone = true ->
  let key := (name ++ ";TZID=" ++ zone)%string in
  parseEventProperty (key ++ ":" ++ value)%string ev tz
  = if bool_decide (name = "__proto__")
    then ({| props := <[key := trim value]> (props ev); lists := lists ev |}, tz)
    else
      ({| props := if multiValued name then props ev
                   else <[key := trim value]> (<[name := trim value]> (props ev));
          lists := if multiValued name
                   then <[name := (default [] (lists ev !! name) ++ [trim value])%list]>
                          (lists ev)
                   else lists ev |},
       <[name := zone]> tz).
Proof.
  intros Hne Hn Hze Hz key.
  assert (forall q : ascii -> bool,
            (forall c, zone_char c = true -> q c = true) ->
            all_chars q ";TZID=" = true -> all_chars q key = true) as Hkey.
  { intros q Hq Hmid.
    assert (all_chars q name = true) as Hqn.
    { revert Hn. apply all_chars_impl. intros c Hc. apply Hq. revert Hc.
      unfold name_char, zone_char. by intros [H _]%andb_true_iff. }
    assert (all_chars q zone = true) as Hqz by (revert Hz; by apply all_chars_impl).
    unfold key. by rewrite !all_chars_app, Hqn, Hqz, Hmid. }
  assert (all_chars (fun c => negb (Ascii.eqb c ":")) key = true) as Hcolon.
  { apply Hkey; [|reflexivity]. intros c. unfold zone_char.
    by intros [[_ H]%andb_true_iff _]%andb_true_iff. }
  assert (all_chars (fun c => negb (is_space c)) key = true) as Hspace.
  { apply Hkey; [|reflexivity]. intros c. unfold zone_char.
    by intros [[H _]%andb_true_iff _]%andb_true_iff. }
  assert (all_chars (fun c => negb (Ascii.eqb c ";")) name = true) as Hsemi.
  { revert Hn. apply all_chars_impl. intros c. unfold name_char.
    by intros [[_ H]%andb_true_iff _]%andb_true_iff. }
  assert (all_chars (fun c => negb (Ascii.eqb c "=")) name = true) as Heq.
  { revert Hn. apply all_chars_impl. intros c. unfold name_char.
    by intros [_ H]%andb_true_iff. }
  unfold parseEventProperty.
  change (key ++ ":" ++ value)%string with (key ++ String ":" value)%string.
  rewrite (indexOf_app ":" key value Hcolon).
  destruct (String.length key) as [|n] eqn:Hlen.
  { unfold key in Hlen. rewrite append_length in Hlen. destruct name; [done|].
    cbn in Hlen. lia. }
  rewrite <- Hlen, take_app_length.
  rewrite drop_app_sep.
  rewrite (trim_id key Hspace).
  assert (before ";" key = name) as ->.
  { unfold key. change (";TZID=" ++ zone)%string with (String ";" ("TZID=" ++ zone)).
    by apply before_app. }
  assert (includes "TZID=" key = true) as ->.
  { unfold key. change (";TZID=" ++ zone)%string with (";" ++ "TZID=" ++ zone)%string.
    rewrite <- append_assoc. rewrite <- (append_empty_r zone) at 1.
    apply includes_app. }
  pose proof (tzidMatch_after_name name zone Heq Hze Hz) as Htz.
  change (tzidMatch key = Some zone) in Htz. rewrite Htz.
  assert (key <> name) as Hlonger.
  { intros E. apply (f_equal String.length) in E. unfold key in E.
    rewrite append_length in E.
    change (";TZID=" ++ zone)%string with (String ";" ("TZID=" ++ zone)) in E.
    cbn [String.length] in E. lia. }
  assert (key <> "__proto__") as Hfull.
  { intros E. assert (all_chars (fun c => negb (Ascii.eqb c ";")) key = true) as Hk
      by (by rewrite E).
    unfold key in Hk. rewrite !all_chars_app in Hk.
    by rewrite andb_false_r in Hk. }
  rewrite (bool_decide_eq_false_2 (key = name)) by exact Hlonger.
  unfold assign. rewrite (bool_decide_eq_false_2 (key = "__proto__")) by exact Hfull.
  destruct (bool_decide (name = "__proto__")) eqn:Hproto.
  - apply bool_decide_eq_true_1 in Hproto. by rewrite Hproto.
  - by destruct (multiValued name).
Qed.

Lemma parseEventProperty_zone_witness :
  parseEventProperty "DTSTART;TZID=Europe/Tallinn:20240101T090000 " emptyEvent ∅
  = ({| props := <["DTSTART;TZID=Europe/Tallinn" := "20240101T090000"]>
                   (<["DTSTART" := "20240101T090000"]> ∅);
        lists := ∅ |},
     <["DTSTART" := "Europe/Tallinn"]> ∅)
  /\ parseEventProperty "__proto__;TZID=Europe/Tallinn:x" emptyEvent ∅
     = ({| props := <["__proto__;TZID=Europe/Tallinn" := "x"]> ∅; lists := ∅ |}, ∅).
Proof.
  split.
  - apply (parseEventProperty_zone "DTSTART" "Europe/Tallinn" "20240101T090000 "
             emptyEvent ∅); done.
  - apply (parseEventProperty_zone "__proto__" "Europe/Tallinn" "x" emptyEvent ∅); done.
Defined.

(** *** Deletion Classifier *)

(** X9: The verdict depends on eight properties only: two events that agree on
    them get the same verdict, whatever else they hold (TRANSP, the arrays
    of EXDATE, ...). *)
Theorem isEventDeleted_reads (e1 e2 : RawEvent) :
  (forall k, k ∈ deletionKeys -> props e1 !! k = props e2 !! k) ->
  isEventDeleted e1 = isEventDeleted e2.
Proof.
  intros H. unfold isEventDeleted, has_prop.
  rewrite (H "STATUS"), (H "METHOD"), (H "SEQUENCE"), (H "X-APPLE-DELETED-DATE"),
    (H "X-APPLE-DELETED"), (H "X-GOOGLE-DELETED"), (H "DTSTART"), (H "SUMMARY");
    [done|unfold deletionKeys; set_solver..].
Qed.

Lemma isEventDeleted_reads_witness :
  isEventDeleted {| props := {[ "DTSTART" := "20240101"; "SUMMARY" := "Free time";
                                "TRANSP" := "TRANSPARENT" ]};
                    lists := {[ "EXDATE" := ["20240102"] ]} |}
  = isEventDeleted {| props := {[ "DTSTART" := "20240101"; "SUMMARY" := "Free time" ]};
                      lists := ∅ |}.
Proof.
  apply isEventDeleted_reads. intros k Hk. unfold deletionKeys in Hk.
  repeat (apply elem_of_cons in Hk as [->|Hk]; [reflexivity|]).
  by apply elem_of_nil in Hk.
Defined.

Lemma dec_val_digit (c : ascii) : is_digit c = true -> dec_val c = Some (digit_val c).
Proof. unfold dec_val, digit_val. by intros ->. Qed.

Lemma read_number_digits (n : nat) (a v : Z) (acc : option Z) (s : string) :
  (0 < n)%nat -> default 0 acc = a ->
  read_digits n a s = Some (v, EmptyString) ->
  read_number 10 dec_val acc s = Some v.
Proof.
  revert a acc s. induction n as [|n IH]; intros a acc s Hn Ha Hs; [lia|].
  destruct s as [|c s]; [done|]. cbn [read_digits] in Hs.
  destruct (is_digit c) eqn:Hc; [|done].
  cbn [read_number]. rewrite (dec_val_digit c Hc), Ha.
  destruct n as [|n].
  - cbn in Hs. injection Hs as <- ->. done.
  - by apply (IH (10 * a + digit_val c)); [lia| |].
Qed.

Lemma is_digit_cases (c : ascii) :
  is_digit c = true ->
  c ∈ ["0"; "1"; "2"; "3"; "4"; "5"; "6"; "7"; "8"; "9"]%char.
Proof.
  destruct c as [[] [] [] [] [] [] [] []]; intros H;
    try (vm_compute in H; discriminate H); set_solver.
Qed.

(** [parseInt] reads a decimal numeral, leading zeros or not. *)
Lemma parseInt_digits (n : nat) (v : Z) (s : string) :
  (0 < n)%nat -> read_digits n 0 s = Some (v, EmptyString) -> parseInt s = Some v.
Proof.
  intros Hn Hs. pose proof (read_number_digits n 0 v None s Hn eq_refl Hs) as Hr.
  destruct n as [|n]; [lia|]. destruct s as [|c s]; [done|].
  cbn [read_digits] in Hs. destruct (is_digit c) eqn:Hc; [|done].
  assert (forall x r, s = String x r -> is_digit x = true) as Hnext.
  { intros x r ->. destruct n as [|n]; [done|]. cbn [read_digits] in Hs.
    by destruct (is_digit x). }
  apply is_digit_cases in Hc.
  assert (forall x, is_digit x = true ->
                    Ascii.eqb x "x" || Ascii.eqb x "X" = false) as Hx.
  { intros x Hd%is_digit_cases.
    repeat (apply elem_of_cons in Hd as [->|Hd]; [reflexivity|]).
    by apply elem_of_nil in Hd. }
  repeat (apply elem_of_cons in Hc as [->|Hc]);
    try (by apply elem_of_nil in Hc);
    unfold parseInt; cbn [trimStart];
    repeat (match goal with
            | |- context [is_space ?c] => change (is_space c) with false
            | |- context [Ascii.eqb ?c ?d] =>
                lazymatch c with
                | Ascii _ _ _ _ _ _ _ _ => change (Ascii.eqb c d) with false
                end
            end; cbv iota beta);
    try (rewrite Hr; cbn; f_equal; lia).
  destruct s as [|x r]; [rewrite Hr; cbn; f_equal; lia|].
  rewrite (Hx x (Hnext x r eq_refl)), Hr. cbn. f_equal. lia.
Qed.

Lemma parseInt_pad (k : nat) (n : Z) :
  (0 < k)%nat -> 0 <= n < 10 ^ Z.of_nat k -> parseInt (pad k n) = Some n.
Proof.
  intros Hk Hn. apply (parseInt_digits k); [done|].
  rewrite <- (append_empty_r (pad k n)). by apply read_digits_pad.
Qed.

Lemma pad_truthy (k : nat) (n : Z) : (0 < k)%nat -> truthy (pad k n) = true.
Proof.
  intros Hk. pose proof (pad_length k n) as Hl. destruct (pad k n); [cbn in Hl; lia|done].
Qed.

(** X10: An event with a start or a title and no other marker is classified by
    its SEQUENCE number alone: deleted above 100, kept up to 100. *)
Theorem isEventDeleted_sequence (e : RawEvent) (k : nat) (n : Z) :
  (forall key, key ∈ otherMarkers -> props e !! key = None) ->
  has_prop e "DTSTART" || has_prop e "SUMMARY" = true ->
  (0 < k)%nat -> 0 <= n < 10 ^ Z.of_nat k ->
  props e !! "SEQUENCE" = Some (pad k n) ->
  isEventDeleted e = (100 <? n).
Proof.
  intros Hnone Hkeep Hk Hn Hseq. unfold isEventDeleted, has_prop in *.
  rewrite (Hnone "STATUS"), (Hnone "METHOD"), (Hnone "X-APPLE-DELETED-DATE"),
    (Hnone "X-APPLE-DELETED"), (Hnone "X-GOOGLE-DELETED")
    by (unfold otherMarkers;
        repeat first [apply list_elem_of_here | apply list_elem_of_further]).
  rewrite Hseq. cbn [opt_truthy default id andb orb].
  rewrite pad_truthy, parseInt_pad by done. cbn [gt_number andb].
  destruct (100 <? n); [done|].
  rewrite bool_decide_eq_false_2 by done.
  apply orb_true_iff in Hkeep as [-> | ->]; cbn; [done|].
  by rewrite andb_false_r.
Qed.

Lemma isEventDeleted_sequence_witness :
  isEventDeleted {| props := {[ "DTSTART" := "20240101"; "SEQUENCE" := "101" ]};
                    lists := ∅ |} = true
  /\ isEventDeleted {| props := {[ "DTSTART" := "20240101"; "SEQUENCE" := "100" ]};
                       lists := ∅ |} = false.
Proof.
  split.
  - apply (isEventDeleted_sequence _ 3 101); try done; [|lia].
    intros key Hk. unfold otherMarkers in Hk.
    repeat (apply elem_of_cons in Hk as [->|Hk]; [reflexivity|]).
    by apply elem_of_nil in Hk.
  - apply (isEventDeleted_sequence _ 3 100); try done; [|lia].
    intros key Hk. unfold otherMarkers in Hk.
    repeat (apply elem_of_cons in Hk as [->|Hk]; [reflexivity|]).
    by apply elem_of_nil in Hk.
Defined.

(** *** RRULE parser *)

Lemma split_one (sep : ascii) (s : string) :
  all_chars (fun c => negb (Ascii.eqb c sep)) s = true -> split sep s = [s].
Proof.
  induction s as [|c s IH]; [done|]. cbn [all_chars split].
  intros [Hc Hs]%andb_true_iff. apply negb_true_iff in Hc. by rewrite Hc, IH.
Qed.

Lemma param_text_no (sep : ascii) (s : string) :
  sep = ";"%char \/ sep = "="%char -> param_text s ->
  all_chars (fun c => negb (Ascii.eqb c sep)) s = true.
Proof.
  intros Hsep [_ Hs]. revert Hs. apply all_chars_impl. intros c.
  intros [H1 H2]%andb_true_iff. by destruct Hsep as [-> | ->].
Qed.

Lemma rrule_param_pair (params : gmap string string) (k v : string) :
  param_text k -> param_text v ->
  rrule_param params (k ++ "=" ++ v)%string = assign k v params.
Proof.
  intros Hk Hv. unfold rrule_param.
  change (k ++ "=" ++ v)%string with (k ++ String "=" v)%string.
  rewrite split_app_sep, !split_one by (apply param_text_no; auto).
  cbn [app]. destruct Hk as [Hk _], Hv as [Hv _]. by destruct k, v.
Qed.

Lemma pair_no_semicolon (k v : string) :
  param_text k -> param_text v ->
  all_chars (fun c => negb (Ascii.eqb c ";")) (k ++ "=" ++ v)%string = true.
Proof.
  intros Hk Hv.
  rewrite !all_chars_app, (param_text_no ";" k), (param_text_no ";" v) by auto.
  reflexivity.
Qed.

Lemma split_rruleText (p : string * string) (ps : list (string * string)) :
  Forall (fun p => param_text p.1 /\ param_text p.2) (p :: ps) ->
  split ";" (rruleText (p :: ps)) = (fun p => (p.1 ++ "=" ++ p.2)%string) <$> (p :: ps).
Proof.
  revert p. induction ps as [|q ps IH]; intros [k v] H.
  - apply Forall_cons in H as [[Hk Hv] _]. cbn [rruleText fmap list_fmap fst snd].
    by apply split_one, pair_no_semicolon.
  - apply Forall_cons in H as [[Hk Hv] H]. cbn [fst snd] in *.
    change (rruleText ((k, v) :: q :: ps))
      with (k ++ "=" ++ v ++ ";" ++ rruleText (q :: ps))%string.
    replace (k ++ "=" ++ v ++ ";" ++ rruleText (q :: ps))%string
      with ((k ++ "=" ++ v) ++ String ";" (rruleText (q :: ps)))%string
      by (by rewrite !append_assoc).
    rewrite split_app_sep, IH by done.
    by rewrite split_one by (by apply pair_no_semicolon).
Qed.

Lemma fold_insert_lookup (l : list (string * string)) (m1 m2 : gmap string string)
    (k : string) :
  m1 !! k = m2 !! k ->
  fold_right (fun p m => <[p.1 := p.2]> m) m1 l !! k
  = fold_right (fun p m => <[p.1 := p.2]> m) m2 l !! k.
Proof.
  intros Hm. induction l as [|[k' v'] l IH]; [done|]. cbn [fold_right fst snd].
  destruct (decide (k' = k)) as [->|Hne].
  - by rewrite !lookup_insert_eq.
  - by rewrite !lookup_insert_ne.
Qed.

(** The parameters read, at every key but [__proto__], which is never
    looked up. *)
Lemma rrule_params_fold (ps : list (string * string)) (m : gmap string string)
    (k : string) :
  Forall (fun p => param_text p.1 /\ param_text p.2) ps ->
  k <> "__proto__" ->
  fold_left rrule_param ((fun p => (p.1 ++ "=" ++ p.2)%string) <$> ps) m !! k
  = fold_right (fun p m => <[p.1 := p.2]> m) m (List.rev ps) !! k.
Proof.
  intros H Hk. revert m. induction H as [|[k' v] ps [Hk' Hv] _ IH]; intros m; [done|].
  cbn [fmap list_fmap fold_left List.rev fst snd] in *.
  rewrite rrule_param_pair, IH by done. rewrite fold_right_app.
  apply fold_insert_lookup. cbn [fold_right fst snd]. unfold assign.
  destruct (bool_decide (k' = "__proto__")) eqn:E; [|done].
  apply bool_decide_eq_true_1 in E. subst k'. by rewrite lookup_insert_ne.
Qed.

Lemma list_to_map_fold (l : list (string * string)) :
  (list_to_map l : gmap string string)
  = fold_right (fun p m => <[p.1 := p.2]> m) ∅ l.
Proof. induction l as [|[k v] l IH]; [done|]. cbn. by rewrite <- IH. Qed.

Lemma params_truthy (l : list (string * string)) (k v : string) :
  Forall (fun p => param_text p.1 /\ param_text p.2) l ->
  (list_to_map l : gmap string string) !! k = Some v -> truthy v = true.
Proof.
  induction 1 as [|[k' v'] l [_ [Hv _]] _ IH]; [done|].
  cbn [list_to_map foldr]. cbn [fst snd] in *.
  destruct (decide (k' = k)) as [->|Hne].
  - rewrite lookup_insert_eq. intros [= <-]. by destruct v'.
  - by rewrite lookup_insert_ne.
Qed.

(** X11: Reading back a rule written from its parameters: each field is looked
    up among them, the last of two with the same name counting, with the
    defaults for the ones that are missing: COUNT none, INTERVAL 1, BYDAY
    none. *)
Theorem parseRRule_parameters (ps : list (string * string)) :
  Forall (fun p => param_text p.1 /\ param_text p.2) ps ->
  let params : gmap string string := list_to_map (List.rev ps) in
  parseRRule (rruleText ps)
  = {| freq := params !! "FREQ";
       until := params !! "UNTIL";
       count := params !! "COUNT" ≫= parseInt;
       interval := match params !! "INTERVAL" with
                   | Some v => parseInt v
                   | None => Some 1
                   end;
       byday := split "," <$> params !! "BYDAY" |}.
Proof.
  intros H params.
  assert (forall k, k <> "__proto__" ->
            fold_left rrule_param (split ";" (rruleText ps)) ∅ !! k = params !! k)
    as Hfold.
  { intros k Hk. unfold params. rewrite list_to_map_fold.
    destruct ps as [|p ps]; [done|].
    rewrite split_rruleText by done. by apply rrule_params_fold. }
  assert (forall k v, params !! k = Some v -> truthy v = true) as Htruthy.
  { intros k v. apply params_truthy. by apply Forall_rev. }
  unfold parseRRule. cbv zeta. rewrite !Hfold by done. f_equal.
  - destruct (params !! "COUNT") as [v|] eqn:E; [|done].
    cbn. by rewrite (Htruthy _ _ E).
  - destruct (params !! "INTERVAL") as [v|] eqn:E; [|done].
    cbn. by rewrite (Htruthy _ _ E).
  - destruct (params !! "BYDAY") as [v|] eqn:E; [|done].
    cbn. by rewrite (Htruthy _ _ E).
Qed.

Lemma parseRRule_parameters_witness :
  parseRRule "FREQ=WEEKLY;INTERVAL=2;BYDAY=MO,WE;FREQ=DAILY"
  = {| freq := Some "DAILY"; until := None; count := None; interval := Some 2;
       byday := Some ["MO"; "WE"] |}.
Proof.
  apply (parseRRule_parameters
           [("FREQ", "WEEKLY"); ("INTERVAL", "2"); ("BYDAY", "MO,WE"); ("FREQ", "DAILY")]).
  repeat (apply List.Forall_cons; [by repeat split|]). constructor.
Defined.

(** *** Only the loop can run out of fuel *)

Lemma fmap_no_fuel {A B} (g : A -> B) (m : outcome A) :
  m <> OutOfFuel -> g <$> m <> OutOfFuel.
Proof. by destruct m. Qed.

Lemma bind_no_fuel {A B} (m : outcome A) (f : A -> outcome B) :
  m <> OutOfFuel -> (forall a, f a <> OutOfFuel) -> m ≫= f <> OutOfFuel.
Proof. intros Hm Hf. destruct m as [a| |]; cbn; [apply Hf|done..]. Qed.

Lemma toISOString_no_fuel (d : Date) : toISOString d <> OutOfFuel.
Proof. by destruct d. Qed.

Lemma toLocaleString_no_fuel (h : Host) (d : Date) (tz : string) :
  toLocaleString h d tz <> OutOfFuel.
Proof. unfold toLocaleString. by repeat case_match. Qed.

Lemma convertZone_no_fuel (h : Host) (s tz : string) : convertZone h s tz <> OutOfFuel.
Proof.
  unfold convertZone. case_match.
  - apply fmap_no_fuel, toISOString_no_fuel.
  - apply bind_no_fuel; [apply toLocaleString_no_fuel|]. intros u.
    apply bind_no_fuel; [apply toLocaleString_no_fuel|]. intros l.
    apply fmap_no_fuel, toISOString_no_fuel.
Qed.

Lemma formatDateToISO_no_fuel (h : Host) (ds tz : option string) :
  formatDateToISO h ds tz <> OutOfFuel.
Proof.
  unfold formatDateToISO. destruct ds as [ds|]; [|done].
  repeat case_match; try done.
  - pose proof (convertZone_no_fuel h
      (substr 0 4 ds ++ "-" ++ substr 4 2 ds ++ "-" ++ substr 6 2 ds ++ "T"
       ++ substr 9 2 ds ++ ":" ++ substr 11 2 ds ++ ":" ++ substr 13 2 ds)%string s).
    by destruct (convertZone h _ s).
  - apply fmap_no_fuel, toISOString_no_fuel.
Qed.

Lemma createExceptionEvent_no_fuel (h : Host) (ex : EventData) :
  createExceptionEvent h ex <> OutOfFuel.
Proof.
  unfold createExceptionEvent.
  apply bind_no_fuel; [apply formatDateToISO_no_fuel|]. intros s.
  apply bind_no_fuel; [|done].
  case_match; [apply fmap_no_fuel, formatDateToISO_no_fuel|done].
Qed.

Lemma occurrenceBounds_no_fuel (cur : Date) (eventData : BaseData)
    (durationMs : option Z) (isAllDayEvent : bool) :
  occurrenceBounds cur eventData durationMs isAllDayEvent <> OutOfFuel.
Proof.
  unfold occurrenceBounds. destruct isAllDayEvent.
  - apply bind_no_fuel; [apply fmap_no_fuel, toISOString_no_fuel|]. intros s.
    case_match; [|done].
    apply bind_no_fuel; [apply fmap_no_fuel, toISOString_no_fuel|done].
  - apply bind_no_fuel; [apply fmap_no_fuel, toISOString_no_fuel|]. intros s.
    case_match; [|done].
    apply bind_no_fuel; [apply fmap_no_fuel, toISOString_no_fuel|done].
Qed.

Lemma createOccurrence_no_fuel (h : Host) (cur : Date) (eventData : BaseData)
    (durationMs : option Z) (exdates : list string)
    (exceptionMap : gmap string EventData) :
  createOccurrence h cur eventData durationMs exdates exceptionMap <> OutOfFuel.
Proof.
  unfold createOccurrence.
  apply bind_no_fuel; [apply occurrenceBounds_no_fuel|]. intros [s e].
  repeat case_match; try done. apply fmap_no_fuel, createExceptionEvent_no_fuel.
Qed.

(** *** The cap on the number of occurrences *)

Section Cap.
Context (h : Host) (now : Z) (eventData : BaseData) (freq' : string)
  (interval' : option Z) (byday' : option (list string))
  (durationMs : option Z) (untilDate : option Date) (maxOccurrences : Z)
  (exdates : list string) (exceptionMap : gmap string EventData).

Local Abbreviation loop :=
  (occurrencesLoop h now eventData freq' interval' byday' durationMs untilDate
     maxOccurrences exdates exceptionMap).

(** The list grows by at most what the counter may still grow by. *)
Lemma loop_count (fuel : nat) (cur : Date) (cnt : Z) (events l : list Occurrence) :
  loop fuel cur cnt events = Ret l ->
  Z.of_nat (length l) <= Z.of_nat (length events) + Z.max 0 (maxOccurrences - cnt).
Proof.
  revert cur cnt events. induction fuel as [|fuel IH]; intros cur cnt events; [done|].
  destruct (in_bounds now untilDate maxOccurrences cur cnt) eqn:Hb.
  - rewrite loop_guard by done.
    assert (cnt < maxOccurrences) as Hlt.
    { unfold in_bounds in Hb. apply andb_true_iff in Hb as [[Hc _]%andb_true_iff _]. lia. }
    destruct (shouldIncludeDate h cur freq' byday'); cbn.
    + destruct (createOccurrence _ _ _ _ _ _) as [[o|]| |]; cbn; try done.
      * intros Hl%IH. rewrite length_app in Hl. cbn [length] in Hl. lia.
      * intros Hl%IH. lia.
    + intros Hl%IH. lia.
  - rewrite loop_stop by done. intros [= <-]. lia.
Qed.
End Cap.

(** X12: The expansion of a rule never returns more occurrences than its COUNT,
    and never more than 100 when the rule has no COUNT (or the COUNT 0). *)
Theorem generateOccurrences_capped (h : Host) (now : Z) (fuel : nat)
    (eventData : BaseData) (rruleParams : RRule) (exdates : list string)
    (exceptionMap : gmap string EventData) (l : list Occurrence) :
  generateOccurrences h now fuel eventData rruleParams exdates exceptionMap = Ret l ->
  within_cap rruleParams l.
Proof.
  unfold generateOccurrences, within_cap.
  destruct (freq rruleParams) as [f|]; [|by intros [= <-]; repeat case_match; cbn; lia].
  destruct (negb (truthy f)); [by intros [= <-]; repeat case_match; cbn; lia|].
  unfold setupDateLimits. intros Hl%loop_count. cbn [length] in Hl.
  destruct (count rruleParams) as [c|]; [|lia].
  destruct (c =? 0); lia.
Qed.

Lemma generateOccurrences_capped_witness :
  exists l,
    generateOccurrences utcHost sampleNow 200 sampleTimed
      (parseRRule "FREQ=DAILY;COUNT=0") [] ∅ = Ret l
    /\ within_cap (parseRRule "FREQ=DAILY;COUNT=0") l
    /\ length l = 100%nat.
Proof.
  eexists. split; [vm_compute; reflexivity|]. split; [|reflexivity].
  apply (generateOccurrences_capped utcHost sampleNow 200 sampleTimed
           (parseRRule "FREQ=DAILY;COUNT=0") [] ∅).
  vm_compute. reflexivity.
Defined.

(** *** Every step moves the cursor forward *)

Lemma DayFromYear_progress (y n : Z) :
  0 <= n -> DayFromYear y + 365 * n <= DayFromYear (y + n).
Proof.
  intros Hn. pattern n. apply natlike_ind; [|clear n Hn; intros n Hn IH|done];
    cbv beta in *.
  - replace (y + 0) with y by lia. lia.
  - replace (y + Z.succ n) with (y + n + 1) by lia.
    rewrite DayFromYear_succ. pose proof (DaysInYear_range (y + n)). lia.
Qed.

Lemma monthStart_next (leap : bool) (m r : Z) :
  0 <= m -> m < r -> r <= 11 -> monthStart leap m + 28 <= monthStart leap r.
Proof.
  intros H0 Hlt H11.
  assert (m = 0 \/ m = 1 \/ m = 2 \/ m = 3 \/ m = 4 \/ m = 5 \/ m = 6 \/ m = 7
          \/ m = 8 \/ m = 9 \/ m = 10) as Hm by lia.
  assert (r = 1 \/ r = 2 \/ r = 3 \/ r = 4 \/ r = 5 \/ r = 6 \/ r = 7
          \/ r = 8 \/ r = 9 \/ r = 10 \/ r = 11) as Hr by lia.
  destruct leap;
    repeat (destruct Hm as [-> | Hm]); try subst m;
    repeat (destruct Hr as [-> | Hr]); try subst r; cbn; lia.
Qed.

Lemma MakeDay_month_progress (y m d n : Z) :
  0 <= m <= 11 -> 1 <= n -> MakeDay y m d + 28 <= MakeDay y (m + n) d.
Proof.
  intros Hm Hn. unfold MakeDay.
  rewrite (Z.div_small m 12), (Z.mod_small m 12), Z.add_0_r by lia.
  pose proof (Z.mod_pos_bound (m + n) 12 ltac:(lia)) as Hr.
  pose proof (Z.div_mod (m + n) 12 ltac:(lia)) as Hdm.
  destruct (Z.eq_dec ((m + n) / 12) 0) as [Hq|Hq].
  - rewrite Hq, Z.add_0_r in *.
    pose proof (monthStart_next (isLeapYear y) m ((m + n) mod 12)). lia.
  - assert (1 <= (m + n) / 12) as Hq1.
    { pose proof (Z.div_pos (m + n) 12 ltac:(lia) ltac:(lia)). lia. }
    pose proof (DayFromYear_progress y ((m + n) / 12) ltac:(lia)).
    pose proof (monthStart_range (isLeapYear (y + (m + n) / 12)) ((m + n) mod 12)).
    pose proof (monthStart_range (isLeapYear y) m). lia.
Qed.

Lemma monthStart_leap (l1 l2 : bool) (m : Z) : monthStart l1 m <= monthStart l2 m + 1.
Proof. unfold monthStart. destruct l1, l2; repeat case_match; lia. Qed.

Lemma MakeDay_year_progress (y m d n : Z) :
  0 <= m <= 11 -> 1 <= n -> MakeDay y m d + 364 <= MakeDay (y + n) m d.
Proof.
  intros Hm Hn. unfold MakeDay.
  rewrite (Z.div_small m 12), (Z.mod_small m 12), !Z.add_0_r by lia.
  pose proof (DayFromYear_progress y n ltac:(lia)).
  pose proof (monthStart_leap (isLeapYear y) (isLeapYear (y + n)) m). lia.
Qed.

Lemma weeklySearch_ge (n : nat) (a : Z) (w : option Z) (days : list string) (k : Z) :
  weeklySearch n a w days = Some k -> a <= k.
Proof.
  revert a w. induction n as [|n IH]; intros a w; [done|]. cbn [weeklySearch].
  destruct (bydayHas days w); [intros [= <-]; lia|]. intros H%IH. lia.
Qed.

Lemma dayMap_range (day : string) (v : Z) : dayMap day = Some v -> 0 <= v <= 6.
Proof. unfold dayMap. repeat case_match; intros [= <-]; lia. Qed.

Lemma WeekDay_range (t : Z) : 0 <= WeekDay t <= 6.
Proof. unfold WeekDay. pose proof (Z.mod_pos_bound (Day t + 4) 7). lia. Qed.

Section Progress.
Context (h : Host) (c : Z).
Hypothesis Hfixed : forall (t : Z) (isUTC : bool), LocalTZA h t isUTC = c.

Lemma setDate_shift (t n t' : Z) :
  setDate h (Some t) (nadd (getDate h (Some t)) (Some n)) = Some t' ->
  t' = t + n * msPerDay.
Proof.
  rewrite (setDate_getDate h c Hfixed). unfold TimeClip. case_match; [|done].
  by intros [= <-].
Qed.

Lemma setMonth_progress (t n t' : Z) :
  1 <= n ->
  setMonth h (Some t) (nadd (getMonth h (Some t)) (Some n)) = Some t' ->
  t + 28 * msPerDay <= t'.
Proof.
  intros Hn. unfold setMonth, getMonth, nadd. cbn [mbind option_bind]. rewrite (LocalTime_fixed h c Hfixed), (UTC_fixed h c Hfixed).
  unfold TimeClip. case_match; [|done]. intros [= <-].
  pose proof (MakeDay_month_progress (YearFromTime (t + c)) (MonthFromTime (t + c))
                (DateFromTime (t + c)) n (MonthFromTime_range _) Hn) as Hp.
  pose proof (MakeDay_fields (t + c) 0) as Hf. rewrite !Z.add_0_r in Hf.
  pose proof (Day_TimeWithinDay (t + c)) as Hd.
  unfold MakeDate, msPerDay in *. lia.
Qed.

Lemma setFullYear_progress (t n t' : Z) :
  1 <= n ->
  setFullYear h (Some t) (nadd (getFullYear h (Some t)) (Some n)) = Some t' ->
  t + 364 * msPerDay <= t'.
Proof.
  intros Hn. unfold setFullYear, getFullYear, nadd. cbn [mbind option_bind]. rewrite (LocalTime_fixed h c Hfixed), (UTC_fixed h c Hfixed).
  unfold TimeClip. case_match; [|done]. intros [= <-].
  pose proof (MakeDay_year_progress (YearFromTime (t + c)) (MonthFromTime (t + c))
                (DateFromTime (t + c)) n (MonthFromTime_range _) Hn) as Hp.
  pose proof (MakeDay_fields (t + c) 0) as Hf. rewrite !Z.add_0_r in Hf.
  pose proof (Day_TimeWithinDay (t + c)) as Hd.
  unfold MakeDate, msPerDay in *. lia.
Qed.

Lemma advanceToNextWeeklyDay_progress (t n t' : Z) (days : list string) :
  1 <= n ->
  advanceToNextWeeklyDay h (Some t) days (Some n) = Some t' ->
  t + msPerDay <= t'.
Proof.
  intros Hn. unfold advanceToNextWeeklyDay.
  destruct (weeklySearch _ _ _ _) as [k|] eqn:Hk.
  - apply weeklySearch_ge in Hk. intros ->%setDate_shift. unfold msPerDay. lia.
  - cbn [mbind option_bind]. rewrite (setDate_getDate h c Hfixed).
    destruct (TimeClip (t + 7 * n * msPerDay)) as [t1|] eqn:Ht1; [|done].
    unfold TimeClip in Ht1. case_match; [|done]. injection Ht1 as <-.
    destruct (dayMap (default EmptyString (head days))) as [target|] eqn:Htarget;
      [|done].
    apply dayMap_range in Htarget. cbn [getDay mbind option_bind].
    pose proof (WeekDay_range (LocalTime h (t + 7 * n * msPerDay))) as Hw.
    pose proof (Z.rem_nonneg (target - WeekDay (LocalTime h (t + 7 * n * msPerDay)) + 7) 7
                  ltac:(lia) ltac:(lia)) as Hr.
    set (r := Z.rem (target - WeekDay (LocalTime h (t + 7 * n * msPerDay)) + 7) 7) in *.
    clearbody r. intros ->%setDate_shift. unfold msPerDay. lia.
Qed.

(** With an INTERVAL of one or more, every branch of [advanceToNextDate]
    moves a valid cursor forward by a day at least. *)
Lemma advanceToNextDate_progress (t n t' : Z) (freq' : string)
    (byday' : option (list string)) :
  1 <= n ->
  advanceToNextDate h (Some t) freq' (Some n) byday' = Some t' ->
  t + msPerDay <= t'.
Proof.
  intros Hn. unfold advanceToNextDate.
  destruct (bool_decide (freq' = "YEARLY")).
  { intros H%setFullYear_progress; [unfold msPerDay in *; lia|done]. }
  destruct (bool_decide (freq' = "MONTHLY")).
  { intros H%setMonth_progress; [unfold msPerDay in *; lia|done]. }
  destruct (bool_decide (freq' = "WEEKLY")).
  { destruct byday' as [days|].
    - destruct (1 <? length days)%nat.
      + by apply advanceToNextWeeklyDay_progress.
      + cbn [mbind option_bind]. intros ->%setDate_shift. unfold msPerDay. lia.
    - cbn [mbind option_bind]. intros ->%setDate_shift. unfold msPerDay. lia. }
  destruct (bool_decide (freq' = "DAILY")).
  { intros ->%setDate_shift. unfold msPerDay. lia. }
  intros H%setFullYear_progress; [unfold msPerDay in *; lia|done].
Qed.
End Progress.

(** *** The expansion finishes *)

Section Ends.
Context (h : Host) (c now : Z) (eventData : BaseData) (freq' : string) (n : Z)
  (byday' : option (list string)) (durationMs : option Z)
  (untilDate : option Date) (maxOccurrences : Z)
  (exdates : list string) (exceptionMap : gmap string EventData).
Hypothesis Hfixed : forall (t : Z) (isUTC : bool), LocalTZA h t isUTC = c.
Hypothesis Hinterval : 1 <= n.

Local Abbreviation loop :=
  (occurrencesLoop h now eventData freq' (Some n) byday' durationMs untilDate
     maxOccurrences exdates exceptionMap).

Lemma loop_invalid (fuel : nat) (cnt : Z) (events : list Occurrence) :
  loop (S fuel) None cnt events = Ret events.
Proof. apply loop_stop. unfold in_bounds. cbn [date_le]. by rewrite andb_false_r. Qed.

(** A cursor less than [m] days before the horizon leaves the loop within
    [m] further turns. *)
Lemma loop_ends (m : nat) :
  forall (fuel : nat) (t cnt : Z) (events : list Occurrence),
    (forall H, horizon now = Some H -> H - t < Z.of_nat m * msPerDay) ->
    (m < fuel)%nat ->
    loop fuel (Some t) cnt events <> OutOfFuel.
Proof.
  induction m as [|m IH]; intros fuel t cnt events Hm Hfuel;
    (destruct fuel as [|fuel]; [lia|]).
  - rewrite loop_stop; [done|]. unfold in_bounds.
    destruct (horizon now) as [H|] eqn:Hh; cbn [date_le].
    + specialize (Hm H eq_refl). replace (t <=? H) with false by lia.
      by rewrite andb_false_r.
    + by rewrite andb_false_r.
  - destruct (in_bounds now untilDate maxOccurrences (Some t) cnt) eqn:Hb;
      [|by rewrite loop_stop].
    rewrite loop_guard by done.
    assert (forall cnt' events',
              loop fuel (advanceToNextDate h (Some t) freq' (Some n) byday') cnt' events'
              <> OutOfFuel) as Hnext.
    { intros cnt' events'.
      destruct (advanceToNextDate h (Some t) freq' (Some n) byday') as [t'|] eqn:Ha.
      - apply IH; [|lia]. intros H Hh. specialize (Hm H Hh).
        pose proof (advanceToNextDate_progress h c Hfixed t n t' freq' byday'
                      Hinterval Ha).
        unfold msPerDay in *. lia.
      - destruct fuel as [|fuel]; [lia|]. by rewrite loop_invalid. }
    destruct (shouldIncludeDate h (Some t) freq' byday'); [|apply Hnext].
    pose proof (createOccurrence_no_fuel h (Some t) eventData durationMs exdates
                  exceptionMap) as Hc.
    destruct (createOccurrence _ _ _ _ _ _) as [[o|]| |]; cbn; try done; apply Hnext.
Qed.
End Ends.

(** X13: On a host with a fixed offset, the expansion of a rule whose INTERVAL is
    one or more (1 when the rule names none), with seven times the INTERVAL
    below 2^53, where the counters of the source are exact, finishes,
    whatever its frequency: the loop takes one turn per day between the
    start and the horizon of two years from now at most, and two more. *)
Theorem generateOccurrences_terminates (h : Host) (c now : Z) (fuel : nat)
    (eventData : BaseData) (rruleParams : RRule) (exdates : list string)
    (exceptionMap : gmap string EventData) (n t0 : Z) :
  (forall (t : Z) (isUTC : bool), LocalTZA h t isUTC = c) ->
  interval rruleParams = Some n -> 1 <= n -> 7 * n < 2 ^ 53 ->
  parse h (bstart eventData) = Some t0 ->
  2 + Z.max 0 ((now + 2 * 365 * msPerDay - t0) / msPerDay) <= Z.of_nat fuel ->
  generateOccurrences h now fuel eventData rruleParams exdates exceptionMap
  <> OutOfFuel.
Proof.
  intros Hfix Hi Hn _ Hstart Hfuel. unfold generateOccurrences.
  destruct (freq rruleParams) as [f|]; [|done].
  destruct (negb (truthy f)); [done|].
  unfold setupDateLimits. rewrite Hstart, Hi.
  apply (loop_ends h c now eventData f n (byday rruleParams) _ _ _ exdates exceptionMap
           Hfix Hn (Z.to_nat (1 + Z.max 0 ((now + 2 * 365 * msPerDay - t0) / msPerDay))));
    [|lia].
  intros H. unfold horizon, ofNumber. cbn [mbind option_bind]. unfold TimeClip.
  case_match; [|done]. intros [= <-]. unfold msPerDay in *.
  rewrite Z2Nat.id by lia.
  pose proof (Z.div_mod (now + 2 * 365 * 86400000 - t0) 86400000 ltac:(lia)).
  pose proof (Z.mod_pos_bound (now + 2 * 365 * 86400000 - t0) 86400000 ltac:(lia)).
  lia.
Qed.

Lemma generateOccurrences_terminates_witness :
  generateOccurrences utcHost sampleNow 800 sampleTimed
    (parseRRule "FREQ=MONTHLY;BYDAY=MO") ["2024-01-05T09:00:00Z"] ∅
  <> OutOfFuel.
Proof.
  apply (generateOccurrences_terminates utcHost 0 sampleNow 800 sampleTimed _ _ _
           1 1704445200000); done.
Defined.

(** *** A rule that never finishes *)

Lemma parse_in_range (h : Host) (s : string) (t : Z) :
  parse h s = Some t -> Z.abs t <= maxTime.
Proof.
  unfold parse. destruct (parseISO h s) as [d|] eqn:Hp.
  - intros ->. revert Hp. unfold parseISO.
    destruct (read_date s) as [[[[y mo] d] r]|]; [|done]. cbn [mbind option_bind].
    destruct (legal_date mo d); [|done]. cbn [negb].
    destruct r as [|ch r].
    + intros [= H]. by apply TimeClip_Some in H.
    + destruct (Ascii.eqb ch "T"); [|done].
      destruct (read_time r) as [[[[[hh mi] ss] ms] r2]|]; [|done].
      cbn [mbind option_bind]. destruct (read_zone r2) as [z|]; [|done].
      cbn [mbind option_bind].
      destruct (legal_time hh mi ss ms); [|done].
      destruct z as [|[] off]; [| |done]; intros [= H]; by apply TimeClip_Some in H.
  - destruct (legacyParse h s) as [v|]; [|done]. cbn. apply TimeClip_Some.
Qed.

Section NeverEnds.
Context (h : Host) (c now : Z) (eventData : BaseData)
  (byday' : option (list string)) (durationMs : option Z) (maxOccurrences : Z)
  (exdates : list string) (exceptionMap : gmap string EventData) (t0 : Z).
Hypothesis Hfixed : forall (t : Z) (isUTC : bool), LocalTZA h t isUTC = c.
Hypothesis Hbounds : in_bounds now None maxOccurrences (Some t0) 0 = true.
Hypothesis Hrange : Z.abs t0 <= maxTime.
Hypothesis Hdropped :
  createOccurrence h (Some t0) eventData durationMs exdates exceptionMap = Ret None.

Lemma loop_stuck (fuel : nat) :
  occurrencesLoop h now eventData "DAILY" (Some 0) byday' durationMs None
    maxOccurrences exdates exceptionMap fuel (Some t0) 0 [] = OutOfFuel.
Proof.
  induction fuel as [|fuel IH]; [done|].
  rewrite loop_drop; [|done|by right].
  rewrite (advanceToNextDate_daily h c) by done.
  replace (t0 + 0 * msPerDay) with t0 by lia.
  by rewrite (TimeClip_in_range _ Hrange).
Qed.
End NeverEnds.

(** X14: With INTERVAL=0 the cursor of a daily rule stays where it is: when the
    start is a date the rule excludes, no occurrence is ever counted and the
    loop has no end, whatever the number of turns it is given. *)
Theorem zero_interval_never_ends (h : Host) (c now : Z) (fuel : nat)
    (eventData : BaseData) (rruleParams : RRule) (exdates : list string)
    (exceptionMap : gmap string EventData) (t0 : Z) :
  (forall (t : Z) (isUTC : bool), LocalTZA h t isUTC = c) ->
  freq rruleParams = Some "DAILY" -> interval rruleParams = Some 0 ->
  until rruleParams = None ->
  (forall k, count rruleParams = Some k -> 0 <= k) ->
  parse h (bstart eventData) = Some t0 ->
  date_le (Some t0) (horizon now) = true ->
  createOccurrence h (Some t0) eventData
    (calculateDuration h (bstart eventData) (bend eventData)) exdates exceptionMap
  = Ret None ->
  generateOccurrences h now fuel eventData rruleParams exdates exceptionMap
  = OutOfFuel.
Proof.
  intros Hfix Hf Hi Hu Hc Hstart Hle Hdrop. unfold generateOccurrences, setupDateLimits.
  rewrite Hf, Hi, Hu, Hstart. cbn [truthy negb].
  apply (loop_stuck h c); try done; [|by apply (parse_in_range h (bstart eventData))].
  unfold in_bounds. rewrite Hle. cbn [negb]. rewrite !andb_true_r.
  destruct (count rruleParams) as [k|] eqn:Hk; [|done].
  specialize (Hc k eq_refl). destruct (Z.eqb_spec k 0); lia.
Qed.

(** An all-day daily series with INTERVAL=0 whose first day is excluded. *)
Lemma zero_interval_never_ends_witness :
  generateOccurrences utcHost sampleNow 1000 sampleBase
    (parseRRule "FREQ=DAILY;INTERVAL=0") ["2024-03-10"] ∅
  = OutOfFuel.
Proof.
  apply (zero_interval_never_ends utcHost 0 sampleNow 1000 sampleBase
           (parseRRule "FREQ=DAILY;INTERVAL=0") ["2024-03-10"] ∅ 1710028800000);
    try done.
Defined.

(** *** Days of the week *)

Ltac in_list := repeat first [apply list_elem_of_here | apply list_elem_of_further].
Ltac not_in_list :=
  let H := fresh "Hin" in
  intros H; repeat (apply elem_of_cons in H as [H|H]; [discriminate H|]);
  by apply elem_of_nil in H.

Lemma dayMap_dayCode (day : string) (w : Z) :
  0 <= w <= 6 -> dayMap day = Some w <-> day = dayCode w.
Proof.
  intros Hw. split.
  - unfold dayMap. repeat case_match; intros [= <-];
      match goal with H : bool_decide _ = true |- _ =>
        apply bool_decide_eq_true_1 in H; by subst end.
  - intros ->.
    assert (w = 0 \/ w = 1 \/ w = 2 \/ w = 3 \/ w = 4 \/ w = 5 \/ w = 6) as Hc by lia.
    repeat destruct Hc as [-> | Hc]; try reflexivity. by subst.
Qed.

Lemma bydayHas_iff (days : list string) (w : Z) :
  0 <= w <= 6 -> bydayHas days (Some w) = true <-> dayCode w ∈ days.
Proof.
  intros Hw. unfold bydayHas. rewrite existsb_exists. split.
  - intros (day & Hin & Hd%bool_decide_eq_true_1).
    apply dayMap_dayCode in Hd; [|done]. subst. by apply list_elem_of_In.
  - intros Hin. exists (dayCode w). split; [by apply list_elem_of_In|].
    apply bool_decide_eq_true_2. by apply dayMap_dayCode.
Qed.

(** X15: A date is kept by every rule but a weekly one with BYDAY, which keeps
    the valid dates whose day of the week, in local time, is listed. *)
Theorem shouldIncludeDate_listed (h : Host) (currentDate : Date) (freq' : string)
    (byday' : option (list string)) :
  shouldIncludeDate h currentDate freq' byday' = true
  <-> byday' = None \/ freq' <> "WEEKLY"
      \/ exists days t, byday' = Some days /\ currentDate = Some t
                        /\ dayCode (WeekDay (LocalTime h t)) ∈ days.
Proof.
  unfold shouldIncludeDate. destruct byday' as [days|]; [|by split; [left|]].
  destruct (decide (freq' = "WEEKLY")) as [->|Hne].
  - rewrite bool_decide_eq_true_2 by done. cbn [negb].
    destruct currentDate as [t|]; cbn [getDay mbind option_bind].
    + rewrite bydayHas_iff by apply WeekDay_range. split.
      * intros Hin. right. right. by exists days, t.
      * intros [|[|(days' & t' & [= <-] & [= <-] & Hin)]]; done.
    + cbn. split; [done|]. by intros [|[|(days' & t' & _ & ? & _)]].
  - rewrite bool_decide_eq_false_2 by done. split; [|done]. intros _. right. by left.
Qed.

(** *** The next listed day of the week *)

Lemma rem_next (wd : Z) : 0 <= wd <= 6 -> Z.rem (wd + 1) 7 = (wd + 1) mod 7.
Proof. intros H. apply Z.rem_mod_nonneg; lia. Qed.

(** The search returns the first of the coming days that is listed. *)
Lemma weeklySearch_least (days : list string) (j : nat) :
  forall (N : nat) (a wd : Z),
    0 <= wd <= 6 -> (j < N)%nat ->
    bydayHas days (Some ((wd + Z.of_nat j) mod 7)) = true ->
    (forall i : nat, (i < j)%nat ->
       bydayHas days (Some ((wd + Z.of_nat i) mod 7)) = false) ->
    weeklySearch N a (Some wd) days = Some (a + Z.of_nat j).
Proof.
  induction j as [|j IH]; intros N a wd Hwd HN Hj Hbefore;
    (destruct N as [|N]; [lia|]); cbn [weeklySearch].
  - rewrite Z.add_0_r, Z.mod_small in Hj by lia. rewrite Hj. f_equal. lia.
  - pose proof (Hbefore O ltac:(lia)) as H0.
    rewrite Z.add_0_r, Z.mod_small in H0 by lia. rewrite H0.
    cbn [mbind option_bind]. rewrite rem_next by done.
    rewrite (IH N (a + 1) ((wd + 1) mod 7)).
    + f_equal. lia.
    + pose proof (Z.mod_pos_bound (wd + 1) 7). lia.
    + lia.
    + rewrite Zplus_mod_idemp_l.
      by replace (wd + 1 + Z.of_nat j) with (wd + Z.of_nat (S j)) by lia.
    + intros i Hi. rewrite Zplus_mod_idemp_l.
      replace (wd + 1 + Z.of_nat i) with (wd + Z.of_nat (S i)) by lia.
      apply Hbefore. lia.
Qed.

Lemma WeekDay_shift (t k : Z) : WeekDay (t + k * msPerDay) = (WeekDay t + k) mod 7.
Proof.
  unfold WeekDay, Day. rewrite Z.div_add by (unfold msPerDay; lia).
  rewrite Zplus_mod_idemp_l. f_equal. lia.
Qed.

(** X16: With two BYDAY codes or more, a weekly rule moves its cursor to the
    next day, of the seven that follow, whose day of the week is listed;
    the INTERVAL plays no part. *)
Theorem weekly_next_listed_day (h : Host) (c t n k : Z) (days : list string) :
  (forall (t : Z) (isUTC : bool), LocalTZA h t isUTC = c) ->
  (1 < length days)%nat -> 1 <= n -> 1 <= k <= 7 ->
  dayCode (WeekDay (t + c + k * msPerDay)) ∈ days ->
  (forall j, 1 <= j < k -> dayCode (WeekDay (t + c + j * msPerDay)) ∉ days) ->
  advanceToNextDate h (Some t) "WEEKLY" (Some n) (Some days)
  = TimeClip (t + k * msPerDay).
Proof.
  intros Hfix Hlen Hn Hk Hin Hbefore. unfold advanceToNextDate.
  rewrite !bool_decide_eq_false_2 by done. rewrite bool_decide_eq_true_2 by done.
  replace (1 <? length days)%nat with true by (symmetry; by apply Nat.ltb_lt).
  unfold advanceToNextWeeklyDay. cbn [getDay mbind option_bind].
  rewrite (LocalTime_fixed h c Hfix).
  pose proof (WeekDay_range (t + c)) as Hw.
  rewrite rem_next by done.
  rewrite (weeklySearch_least days (Z.to_nat (k - 1))).
  - replace (1 + Z.of_nat (Z.to_nat (k - 1))) with k by lia.
    apply (setDate_getDate h c Hfix).
  - pose proof (Z.mod_pos_bound (WeekDay (t + c) + 1) 7). lia.
  - lia.
  - rewrite Zplus_mod_idemp_l, Z2Nat.id by lia.
    replace (WeekDay (t + c) + 1 + (k - 1)) with (WeekDay (t + c) + k) by lia.
    rewrite <- WeekDay_shift. apply bydayHas_iff; [apply WeekDay_range|done].
  - intros i Hi. rewrite Zplus_mod_idemp_l.
    replace (WeekDay (t + c) + 1 + Z.of_nat i) with (WeekDay (t + c) + (1 + Z.of_nat i))
      by lia.
    rewrite <- WeekDay_shift. apply not_true_is_false.
    intros Hyes%bydayHas_iff; [|apply WeekDay_range].
    by apply (Hbefore (1 + Z.of_nat i) ltac:(lia)).
Qed.

(** Monday 1 January 2024, BYDAY=MO,WE and INTERVAL=2: the next date is
    Wednesday 3 January, and from there Monday 8 January, one week after the
    first Monday, not two. *)
Lemma weekly_next_listed_day_witness :
  advanceToNextDate utcHost (Some 1704099600000) "WEEKLY" (Some 2) (Some ["MO"; "WE"])
  = Some 1704272400000
  /\ advanceToNextDate utcHost (Some 1704272400000) "WEEKLY" (Some 2) (Some ["MO"; "WE"])
     = Some 1704704400000.
Proof.
  split.
  - apply (weekly_next_listed_day utcHost 0 1704099600000 2 2 ["MO"; "WE"]);
      [done|cbn; lia|lia|lia|vm_compute; in_list|].
    intros j Hj. assert (j = 1) as -> by lia. vm_compute. not_in_list.
  - apply (weekly_next_listed_day utcHost 0 1704272400000 2 5 ["MO"; "WE"]);
      [done|cbn; lia|lia|lia|vm_compute; in_list|].
    intros j Hj. assert (j = 1 \/ j = 2 \/ j = 3 \/ j = 4) as Hc by lia.
    repeat destruct Hc as [-> | Hc]; try subst j; vm_compute; not_in_list.
Defined.

Lemma weeklySearch_invalid (days : list string) (N : nat) (a : Z) :
  weeklySearch N a None days = None.
Proof. revert a. induction N as [|N IH]; intros a; [done|]. cbn. apply IH. Qed.

Lemma weeklySearch_total (days : list string) (N : nat) :
  forall (a wd : Z) (i : nat),
    0 <= wd <= 6 -> (i < N)%nat ->
    bydayHas days (Some ((wd + Z.of_nat i) mod 7)) = true ->
    is_Some (weeklySearch N a (Some wd) days).
Proof.
  induction N as [|N IH]; intros a wd i Hwd Hi Hyes; [lia|]. cbn [weeklySearch].
  destruct (bydayHas days (Some wd)) eqn:Hhere; [done|].
  cbn [mbind option_bind]. rewrite rem_next by done.
  destruct i as [|i].
  - rewrite Z.add_0_r, Z.mod_small in Hyes by lia. congruence.
  - apply (IH _ _ i); [pose proof (Z.mod_pos_bound (wd + 1) 7); lia|lia|].
    rewrite Zplus_mod_idemp_l.
    by replace (wd + 1 + Z.of_nat i) with (wd + Z.of_nat (S i)) by lia.
Qed.

Lemma weeklySearch_more (days : list string) (N M : nat) (a : Z) (w : option Z) (k : Z) :
  weeklySearch N a w days = Some k -> weeklySearch (N + M) a w days = Some k.
Proof.
  revert a w. induction N as [|N IH]; intros a w; [done|]. cbn [weeklySearch Nat.add].
  destruct (bydayHas days w); [done|]. apply IH.
Qed.



(** *** Months and years *)

Lemma month_cases (m : Z) :
  0 <= m <= 11 ->
  m = 0 \/ m = 1 \/ m = 2 \/ m = 3 \/ m = 4 \/ m = 5 \/ m = 6 \/ m = 7 \/ m = 8
  \/ m = 9 \/ m = 10 \/ m = 11.
Proof. lia. Qed.

Lemma month_search_found (leap : bool) (m d : Z) :
  0 <= m <= 11 -> 1 <= d <= daysInMonth leap m ->
  month_search leap (monthStart leap m + d - 1) 11 = m.
Proof.
  intros Hm Hd. apply month_cases in Hm. cbn [month_search].
  change (Z.of_nat 11) with 11. change (Z.of_nat 10) with 10.
  change (Z.of_nat 9) with 9. change (Z.of_nat 8) with 8.
  change (Z.of_nat 7) with 7. change (Z.of_nat 6) with 6.
  change (Z.of_nat 5) with 5. change (Z.of_nat 4) with 4.
  change (Z.of_nat 3) with 3. change (Z.of_nat 2) with 2.
  change (Z.of_nat 1) with 1.
  destruct leap; repeat (destruct Hm as [-> | Hm]); try subst m;
    cbn [monthStart daysInMonth Z.add Pos.add Pos.succ] in *;
    repeat (match goal with |- context [?a <=? ?b] =>
              destruct (Z.leb_spec a b) end); lia.
Qed.

Lemma monthStart_end (leap : bool) (m : Z) :
  0 <= m <= 11 ->
  monthStart leap m + daysInMonth leap m
  = if m =? 11 then (if leap then 366 else 365) else monthStart leap (m + 1).
Proof.
  intros Hm. apply month_cases in Hm.
  destruct leap; repeat (destruct Hm as [-> | Hm]); try subst m; reflexivity.
Qed.

(** The calendar fields of the day [MakeDay] names, when the month has it. *)
Lemma fields_of_MakeDay (y m d t : Z) :
  0 <= m <= 11 -> 1 <= d <= daysInMonth (isLeapYear y) m ->
  Day t = MakeDay y m d ->
  YearFromTime t = y /\ MonthFromTime t = m /\ DateFromTime t = d.
Proof.
  intros Hm Hd Ht. unfold MakeDay in Ht.
  rewrite (Z.div_small m 12), (Z.mod_small m 12), Z.add_0_r in Ht by lia.
  pose proof (monthStart_end (isLeapYear y) m Hm) as Hend.
  pose proof (monthStart_range (isLeapYear y) m) as Hs.
  pose proof (monthStart_range (isLeapYear y) (m + 1)) as Hs1.
  assert (YearFromTime t = y) as Hy.
  { apply YearFromTime_unique. rewrite DayFromYear_succ. unfold DaysInYear.
    destruct (m =? 11), (isLeapYear y); lia. }
  assert (DayWithinYear t = monthStart (isLeapYear y) m + d - 1) as Hw
    by (unfold DayWithinYear; rewrite Hy; lia).
  assert (MonthFromTime t = m) as Hmo.
  { unfold MonthFromTime, InLeapYear. rewrite Hy, Hw. by apply month_search_found. }
  repeat split; try done.
  unfold DateFromTime, InLeapYear. rewrite Hmo, Hy, Hw. lia.
Qed.

Lemma daysInMonth_range (leap : bool) (m : Z) : 28 <= daysInMonth leap m <= 31.
Proof. unfold daysInMonth. destruct leap; repeat case_match; lia. Qed.

(** The same with a day the month may not have: the date rolls over. *)
Lemma fields_of_MakeDay_rolled (y m d t : Z) :
  0 <= m <= 11 -> 1 <= d <= 31 ->
  Day t = MakeDay y m d ->
  (YearFromTime t, MonthFromTime t, DateFromTime t) = rolledDate y m d.
Proof.
  intros Hm Hd Ht. unfold rolledDate.
  destruct (Z.leb_spec d (daysInMonth (isLeapYear y) m)) as [Hle|Hgt].
  - destruct (fields_of_MakeDay y m d t) as (-> & -> & ->); done || lia.
  - assert (m <> 11) as Hne.
    { intros ->. cbn in Hgt. lia. }
    pose proof (monthStart_end (isLeapYear y) m Hm) as Hend.
    replace (m =? 11) with false in Hend by lia.
    pose proof (daysInMonth_range (isLeapYear y) m).
    pose proof (daysInMonth_range (isLeapYear y) (m + 1)).
    destruct (fields_of_MakeDay y (m + 1) (d - daysInMonth (isLeapYear y) m) t)
      as (-> & -> & ->); [lia|lia| |done].
    rewrite Ht. unfold MakeDay.
    rewrite (Z.div_small m 12), (Z.mod_small m 12) by lia.
    rewrite (Z.div_small (m + 1) 12), (Z.mod_small (m + 1) 12) by lia.
    rewrite Z.add_0_r. lia.
Qed.

Lemma MakeDay_normal (y m d : Z) : MakeDay y m d = MakeDay (y + m / 12) (m mod 12) d.
Proof.
  unfold MakeDay. pose proof (Z.mod_pos_bound m 12 ltac:(lia)) as Hr.
  by rewrite (Z.div_small (m mod 12) 12), (Z.mod_small (m mod 12) 12), Z.add_0_r by lia.
Qed.

Lemma TimeWithinDay_range (t : Z) : 0 <= TimeWithinDay t < msPerDay.
Proof. unfold TimeWithinDay. apply Z.mod_pos_bound. unfold msPerDay. lia. Qed.

Lemma MakeDate_Day (day time : Z) :
  0 <= time < msPerDay ->
  Day (MakeDate day time) = day /\ TimeWithinDay (MakeDate day time) = time.
Proof.
  unfold MakeDate, Day, TimeWithinDay, msPerDay. intros H.
  split; Z.div_mod_to_equations; lia.
Qed.

Section Steps.
Context (h : Host) (c : Z).
Hypothesis Hfixed : forall (t : Z) (isUTC : bool), LocalTZA h t isUTC = c.

(** What [setMonth] and [setFullYear] leave: the local time of day, and
    the date [MakeDay] names. *)
Lemma set_calendar_fields (Y M t t' : Z) :
  TimeClip (UTC h (MakeDate (MakeDay Y M (DateFromTime (t + c)))
                            (TimeWithinDay (t + c)))) = Some t' ->
  TimeWithinDay (t' + c) = TimeWithinDay (t + c)
  /\ (YearFromTime (t' + c), MonthFromTime (t' + c), DateFromTime (t' + c))
     = rolledDate (Y + M / 12) (M mod 12) (DateFromTime (t + c)).
Proof.
  rewrite (UTC_fixed h c Hfixed). unfold TimeClip. case_match; [|done]. intros [= <-].
  match goal with |- context [?x - c + c] => replace (x - c + c) with x by lia end.
  destruct (MakeDate_Day (MakeDay Y M (DateFromTime (t + c))) (TimeWithinDay (t + c))
              (TimeWithinDay_range _)) as [Hd Hw].
  split; [done|]. apply fields_of_MakeDay_rolled.
  - pose proof (Z.mod_pos_bound M 12). lia.
  - apply DateFromTime_range.
  - by rewrite Hd, MakeDay_normal.
Qed.

Lemma shift_time_of_day (t k : Z) :
  TimeWithinDay (t + k * msPerDay + c) = TimeWithinDay (t + c).
Proof.
  unfold TimeWithinDay. replace (t + k * msPerDay + c) with (t + c + k * msPerDay) by lia.
  apply Z.mod_add. unfold msPerDay. lia.
Qed.

Lemma advanceToNextWeeklyDay_shift (t t' : Z) (days : list string) (n : Z) :
  advanceToNextWeeklyDay h (Some t) days (Some n) = Some t' ->
  exists k, t' = t + k * msPerDay.
Proof.
  unfold advanceToNextWeeklyDay. destruct (weeklySearch _ _ _ _) as [k|].
  - intros ->%(setDate_shift h c Hfixed). by exists k.
  - cbn [mbind option_bind]. rewrite (setDate_getDate h c Hfixed).
    destruct (TimeClip (t + 7 * n * msPerDay)) as [t1|] eqn:Ht1; [|done].
    unfold TimeClip in Ht1. case_match; [|done]. injection Ht1 as <-.
    destruct (dayMap (default EmptyString (head days))) as [target|]; [|done].
    cbn [getDay mbind option_bind]. intros ->%(setDate_shift h c Hfixed).
    match goal with
    | |- exists k, _ + ?r * msPerDay = _ => exists (7 * n + r)
    end. lia.
Qed.
End Steps.

(** X18: What one step of the rule does to a valid cursor, on a host with a
    fixed offset.  The local time of day is kept by every frequency.  A
    daily rule moves by INTERVAL days, a weekly one without a list of days
    by INTERVAL weeks; a monthly rule moves by INTERVAL months and a yearly
    one by INTERVAL years, onto the same day of the month when that month
    has it and as many days into the next month when it has not; any other
    frequency moves by ten years. *)
Theorem advanceToNextDate_steps (h : Host) (c t n t' : Z) (freq' : string)
    (byday' : option (list string)) :
  (forall (t : Z) (isUTC : bool), LocalTZA h t isUTC = c) ->
  advanceToNextDate h (Some t) freq' (Some n) byday' = Some t' ->
  let y := YearFromTime (t + c) in
  let m := MonthFromTime (t + c) in
  let d := DateFromTime (t + c) in
  let landed := (YearFromTime (t' + c), MonthFromTime (t' + c), DateFromTime (t' + c)) in
  TimeWithinDay (t' + c) = TimeWithinDay (t + c)
  /\ (freq' = "DAILY" -> t' = t + n * msPerDay)
  /\ (freq' = "WEEKLY" -> (forall days, byday' = Some days -> (length days <= 1)%nat) ->
      t' = t + 7 * n * msPerDay)
  /\ (freq' = "MONTHLY" -> landed = rolledDate (y + (m + n) / 12) ((m + n) mod 12) d)
  /\ (freq' = "YEARLY" -> landed = rolledDate (y + n) m d)
  /\ (freq' ∉ ["DAILY"; "WEEKLY"; "MONTHLY"; "YEARLY"] ->
      landed = rolledDate (y + 10) m d).
Proof.
  intros Hfix Ha y m d landed.
  pose proof (MonthFromTime_range (t + c)) as Hm.
  assert (forall Y, rolledDate (Y + m / 12) (m mod 12) d = rolledDate Y m d) as Hsame.
  { intros Y. by rewrite (Z.div_small m 12), (Z.mod_small m 12), Z.add_0_r by lia. }
  assert (forall Y, setFullYear h (Some t) (nadd (getFullYear h (Some t)) (Some Y))
                    = Some t' ->
                    TimeWithinDay (t' + c) = TimeWithinDay (t + c)
                    /\ landed = rolledDate (y + Y) m d) as Hyear.
  { intros Y. unfold setFullYear, getFullYear, nadd. cbn [mbind option_bind].
    rewrite (LocalTime_fixed h c Hfix). intros [Hw Hl]%(set_calendar_fields h c Hfix).
    split; [done|]. unfold landed. by rewrite Hl, Hsame. }
  assert (setMonth h (Some t) (nadd (getMonth h (Some t)) (Some n)) = Some t' ->
          TimeWithinDay (t' + c) = TimeWithinDay (t + c)
          /\ landed = rolledDate (y + (m + n) / 12) ((m + n) mod 12) d) as Hmonth.
  { unfold setMonth, getMonth, nadd. cbn [mbind option_bind].
    rewrite (LocalTime_fixed h c Hfix). by intros [Hw Hl]%(set_calendar_fields h c Hfix). }
  assert (forall k, setDate h (Some t) (nadd (getDate h (Some t)) (Some k)) = Some t' ->
                    TimeWithinDay (t' + c) = TimeWithinDay (t + c)
                    /\ t' = t + k * msPerDay) as Hdays.
  { intros k ->%(setDate_shift h c Hfix). split; [apply shift_time_of_day|done]. }
  revert Ha. unfold advanceToNextDate.
  destruct (decide (freq' = "YEARLY")) as [->|Hy].
  { rewrite bool_decide_eq_true_2 by done. intros [Hw Hl]%Hyear.
    repeat split; try done. intros Hnot. exfalso. apply Hnot. in_list. }
  rewrite (bool_decide_eq_false_2 (freq' = "YEARLY")) by done.
  destruct (decide (freq' = "MONTHLY")) as [->|Hmo].
  { rewrite bool_decide_eq_true_2 by done. intros [Hw Hl]%Hmonth.
    repeat split; try done. intros Hnot. exfalso. apply Hnot. in_list. }
  rewrite (bool_decide_eq_false_2 (freq' = "MONTHLY")) by done.
  destruct (decide (freq' = "WEEKLY")) as [->|Hwk].
  { rewrite bool_decide_eq_true_2 by done.
    assert (setDate h (Some t) (nadd (getDate h (Some t)) (Some (7 * n))) = Some t' ->
            TimeWithinDay (t' + c) = TimeWithinDay (t + c)
            /\ ("WEEKLY" = "DAILY" -> t' = t + n * msPerDay)
            /\ ("WEEKLY" = "WEEKLY" ->
                (forall days, byday' = Some days -> (length days <= 1)%nat) ->
                t' = t + 7 * n * msPerDay)
            /\ ("WEEKLY" = "MONTHLY" ->
                landed = rolledDate (y + (m + n) / 12) ((m + n) mod 12) d)
            /\ ("WEEKLY" = "YEARLY" -> landed = rolledDate (y + n) m d)
            /\ ("WEEKLY" ∉ ["DAILY"; "WEEKLY"; "MONTHLY"; "YEARLY"] ->
                landed = rolledDate (y + 10) m d)) as Hsimple.
    { intros [Hw ->]%Hdays. repeat split; try done.
      intros Hnot. exfalso. apply Hnot. in_list. }
    destruct byday' as [days|]; [|exact Hsimple].
    destruct (1 <? length days)%nat eqn:Hlen; [|exact Hsimple].
    apply Nat.ltb_lt in Hlen.
    intros [k ->]%(advanceToNextWeeklyDay_shift h c Hfix).
    repeat split; try done; [apply shift_time_of_day| |].
    - intros _ Hshort. specialize (Hshort days eq_refl). lia.
    - intros Hnot. exfalso. apply Hnot. in_list. }
  rewrite (bool_decide_eq_false_2 (freq' = "WEEKLY")) by done.
  destruct (decide (freq' = "DAILY")) as [->|Hd].
  { rewrite bool_decide_eq_true_2 by done. intros [Hw ->]%Hdays.
    repeat split; try done. intros Hnot. exfalso. apply Hnot. in_list. }
  rewrite (bool_decide_eq_false_2 (freq' = "DAILY")) by done.
  intros [Hw Hl]%Hyear. by repeat split.
Qed.

(** A monthly rule that starts on 31 January 2024: February has no 31st
    day, and the cursor lands on 2 March, 09:00 as before. *)
Lemma advanceToNextDate_steps_witness :
  advanceToNextDate utcHost (Some 1706691600000) "MONTHLY" (Some 1) None
  = Some 1709370000000
  /\ (YearFromTime 1709370000000, MonthFromTime 1709370000000,
      DateFromTime 1709370000000) = (2024, 2, 2)
  /\ TimeWithinDay 1709370000000 = TimeWithinDay 1706691600000.
Proof.
  split; [reflexivity|].
  destruct (advanceToNextDate_steps utcHost 0 1706691600000 1 1709370000000 "MONTHLY"
              None ltac:(done) eq_refl) as (Hw & _ & _ & Hm & _).
  split; [exact (Hm eq_refl)|exact Hw].
Defined.

(** *** An end date that does not exist *)

Lemma formatDateToISO_full_day_end_illegal (h : Host) (ds : string) (y m d : Z) :
  Regex.matches Regex.compact_date ds = true ->
  compactDateFields ds = Some (y, m, d) ->
  legal_date m d = false ->
  legacyParse h (dashedDate ds) = None ->
  formatDateToISO h (Some ds) (Some "FULL_DAY_END") = Throws.
Proof.
  intros H Hf Hl Hleg. pose proof H as H0.
  unfold formatDateToISO. rewrite H0.
  rewrite (matches_other_length _ Regex.compact_utc _ H0) by (cbn; lia).
  rewrite (matches_other_length _ Regex.compact_local _ H0) by (cbn; lia).
  rewrite bool_decide_eq_true_2 by done.
  unfold Regex.compact_date, Regex.d8 in H.
  split_matches H. cbn [truthy negb]. eval_strings.
  unfold dashedDate in Hleg. cbn [substr take drop] in Hleg.
  rewrite ?append_cons, ?append_nil in Hleg.
  unfold compactDateFields in Hf.
  rewrite !read_digits_cons, read_digits_0 in Hf by done. cbn [mbind option_bind] in Hf.
  rewrite !read_digits_cons, read_digits_0 in Hf by done. cbn [mbind option_bind] in Hf.
  rewrite !read_digits_cons, read_digits_0 in Hf by done. cbn [mbind option_bind] in Hf.
  injection Hf as Hy Hm Hd.
  unfold parse. rewrite parseISO_date_only by done.
  fold (digits2 a3 a4) in Hm. fold (digits2 a5 a6) in Hd.
  by rewrite Hm, Hd, Hl, Hleg.
Qed.

Lemma foldM_fails {A B} (g : A -> outcome (list B)) (l : list A) (acc r : list B) :
  (exists x, x ∈ l /\ g x = Throws) ->
  foldM (fun events x => occ ← g x; Ret (events ++ occ)%list) l acc <> Ret r.
Proof.
  intros (x & Hin & Hx). revert acc.
  induction l as [|y l IH]; intros acc; [by apply elem_of_nil in Hin|].
  cbn [foldM]. apply elem_of_cons in Hin as [<-|Hin].
  - by rewrite Hx.
  - destruct (g y); cbn; [by apply IH|done..].
Qed.

(** X19: A date-only DTEND whose month is not 01 to 12, or whose day is not 01
    to 31, and which the fallback of the host's [Date.parse] does not read
    either (V8 reads [0001-13-01] as 13 January 2001, and nothing of
    [2024-13-01]), makes the Normalizer throw.  Nothing catches it: the
    single event that carries it fails, and with it the whole of [parseICS]
    and of [main], whatever else the calendar holds. *)
Theorem impossible_end_date_fails (h : Host) (now : Z) (fuel : nat) (ds : string)
    (y m d : Z) :
  Regex.matches Regex.compact_date ds = true ->
  compactDateFields ds = Some (y, m, d) ->
  legal_date m d = false ->
  legacyParse h (dashedDate ds) = None ->
  formatDateToISO h (Some ds) (Some "FULL_DAY_END") = Throws
  /\ (forall (exceptionsByUid : gmap string (list EventData)) (ed : EventData),
        props (event ed) !! "DTEND" = Some ds ->
        isEventDeleted (event ed) = false ->
        has_prop (event ed) "RRULE" = false ->
        eventOccurrences h now fuel exceptionsByUid ed = Throws)
  /\ (forall (icsData : string) (ed : EventData),
        ed ∈ (parseEventsFromLines (unfoldICSLines icsData)).1 ->
        props (event ed) !! "DTEND" = Some ds ->
        isEventDeleted (event ed) = false ->
        has_prop (event ed) "RRULE" = false ->
        (forall events, parseICS h now fuel icsData <> Ret events)
        /\ forall (fetch : string -> outcome Response) (u : string)
                  (response : Response) (body : Body),
             truthy u = true -> fetch u = Ret response -> ok response = true ->
             text response = icsData ->
             (main h now fuel fetch (Some u)).2 <> Ret body).
Proof.
  intros Hm Hf Hl Hleg.
  pose proof (formatDateToISO_full_day_end_illegal h ds y m d Hm Hf Hl Hleg) as Hthrow.
  assert (forall exc ed,
            props (event ed) !! "DTEND" = Some ds ->
            isEventDeleted (event ed) = false ->
            has_prop (event ed) "RRULE" = false ->
            eventOccurrences h now fuel exc ed = Throws) as Hevent.
  { intros exc ed Hend Hdel Hrule. unfold eventOccurrences. rewrite Hdel, Hrule.
    unfold createEventFromData, eventEnd. rewrite Hend, Hm, Hthrow.
    assert (truthy ds = true) as -> by (by destruct ds).
    pose proof (formatDateToISO_no_fuel h (props (event ed) !! "DTSTART")
                  (timezones ed !! "DTSTART")) as Hs.
    destruct (formatDateToISO h (props (event ed) !! "DTSTART")
                (timezones ed !! "DTSTART")) as [s| |]; [reflexivity..|done]. }
  split; [done|]. split; [done|].
  intros icsData ed Hin Hend Hdel Hrule.
  assert (forall events, parseICS h now fuel icsData <> Ret events) as Hparse.
  { intros events. unfold parseICS.
    destruct (parseEventsFromLines (unfoldICSLines icsData)) as [mains exc].
    apply (foldM_fails (eventOccurrences h now fuel exc)).
    exists ed. split; [done|]. by apply Hevent. }
  split; [done|]. intros fetch u response body Hu Hfetch Hok Htext.
  unfold main. rewrite Hu, Hfetch, Hok. cbn [negb snd]. rewrite Htext.
  destruct (parseICS h now fuel icsData) as [events| |] eqn:Hp; [|done..].
  by destruct (Hparse events).
Qed.

Lemma impossible_end_date_fails_witness :
  eventOccurrences utcHost sampleNow 10 ∅ impossibleEnd = Throws.
Proof.
  apply (proj1 (proj2 (impossible_end_date_fails utcHost sampleNow 10 "20241301"
                         2024 13 1 eq_refl eq_refl eq_refl eq_refl))); reflexivity.
Defined.

(** *** Tidy texts *)

Lemma string_of_list_app (l1 l2 : list ascii) :
  string_of_list_ascii (l1 ++ l2)
  = (string_of_list_ascii l1 ++ string_of_list_ascii l2)%string.
Proof. induction l1 as [|c l1 IH]; [done|]. cbn. by rewrite IH. Qed.

Lemma list_of_string_app (s1 s2 : string) :
  list_ascii_of_string (s1 ++ s2)
  = (list_ascii_of_string s1 ++ list_ascii_of_string s2)%list.
Proof. induction s1 as [|c s1 IH]; [done|]. rewrite append_cons. cbn. by rewrite IH. Qed.

Lemma rev_cons (c : ascii) (s : string) : rev (String c s) = (rev s ++ String c EmptyString)%string.
Proof. unfold rev. cbn [list_ascii_of_string List.rev]. by rewrite string_of_list_app. Qed.

Lemma rev_app (s1 s2 : string) : rev (s1 ++ s2) = (rev s2 ++ rev s1)%string.
Proof.
  unfold rev. by rewrite list_of_string_app, rev_app_distr, string_of_list_app.
Qed.

Lemma rev_length (s : string) : String.length (rev s) = String.length s.
Proof.
  induction s as [|c s IH]; [done|]. rewrite rev_cons, append_length, IH. cbn. lia.
Qed.

Lemma trimStart_app (a b : string) :
  trimStart (a ++ b)
  = if all_chars is_space a then trimStart b else (trimStart a ++ b)%string.
Proof.
  induction a as [|c a IH]; [done|]. rewrite append_cons. cbn [trimStart all_chars].
  destruct (is_space c); [apply IH|done].
Qed.

Lemma trimStart_empty (s : string) :
  trimStart s = EmptyString <-> all_chars is_space s = true.
Proof.
  induction s as [|c s IH]; [done|]. cbn [trimStart all_chars].
  destruct (is_space c); [apply IH|done].
Qed.

Lemma trimEnd_rev (s : string) : rev (trimStart (rev s)) = trimEnd s.
Proof.
  induction s as [|c s IH]; [done|]. rewrite rev_cons, trimStart_app.
  cbn [trimEnd]. rewrite <- IH.
  destruct (all_chars is_space (rev s)) eqn:Hall.
  - apply trimStart_empty in Hall. rewrite Hall. cbn [trimStart].
    by destruct (is_space c).
  - rewrite rev_app.
    destruct (rev (trimStart (rev s))) as [|d r] eqn:Hr; [|done].
    exfalso. apply (f_equal String.length) in Hr. rewrite rev_length in Hr.
    destruct (trimStart (rev s)) eqn:Ht; [|done].
    apply trimStart_empty in Ht. congruence.
Qed.

Lemma trim_trimEnd (s : string) : trim s = trimEnd (trimStart s).
Proof. unfold trim. apply trimEnd_rev. Qed.

Lemma collapse_spaces_head (s : string) :
  starts_with_space (collapse_spaces s) = starts_with_space s.
Proof.
  induction s as [|c s IH]; [done|]. cbn [collapse_spaces].
  destruct (is_space c) eqn:Hc; [|by cbn; rewrite Hc].
  destruct s as [|d s]; [done|].
  destruct (is_space d) eqn:Hd; [|done].
  rewrite IH. cbn. by rewrite Hd, Hc.
Qed.

Lemma collapse_spaces_loose (s : string) : loose_spaces (collapse_spaces s) = true.
Proof.
  induction s as [|c s IH]; [done|]. cbn [collapse_spaces].
  destruct (is_space c) eqn:Hc.
  - destruct s as [|d s]; [done|].
    destruct (is_space d) eqn:Hd; [done|].
    cbn [loose_spaces]. rewrite IH.
    pose proof (collapse_spaces_head (String d s)) as Hh. cbn [starts_with_space] in Hh.
    rewrite Hd in Hh. destruct (collapse_spaces (String d s)); [done|].
    cbn in Hh. by rewrite Hh.
  - cbn [loose_spaces]. by rewrite Hc, IH.
Qed.

Lemma loose_spaces_tail (c : ascii) (s : string) :
  loose_spaces (String c s) = true -> loose_spaces s = true.
Proof. cbn [loose_spaces]. by intros [_ H]%andb_true_iff. Qed.

Lemma trimStart_loose (s : string) :
  loose_spaces s = true ->
  loose_spaces (trimStart s) = true /\ starts_with_space (trimStart s) = false.
Proof.
  induction s as [|c s IH]; [done|]. intros H. cbn [trimStart].
  destruct (is_space c) eqn:Hc; [by apply IH, (loose_spaces_tail c)|].
  split; [done|]. cbn. by rewrite Hc.
Qed.

Lemma trimEnd_head (s : string) :
  trimEnd s = EmptyString \/ starts_with_space (trimEnd s) = starts_with_space s.
Proof.
  destruct s as [|c s]; [by left|]. cbn [trimEnd].
  destruct (trimEnd s); [|by right].
  destruct (is_space c) eqn:Hc; [by left|by right].
Qed.

Lemma trimEnd_single (s : string) :
  loose_spaces s = true -> single_spaces (trimEnd s) = true.
Proof.
  induction s as [|c s IH]; [done|]. intros H. pose proof (loose_spaces_tail c s H) as Hs.
  specialize (IH Hs). cbn [trimEnd].
  destruct (trimEnd s) as [|d r] eqn:Hr.
  - destruct (is_space c) eqn:Hc; [done|]. cbn. by rewrite Hc.
  - cbn [single_spaces] in *. rewrite IH, andb_true_r.
    destruct (is_space c) eqn:Hc; [|done].
    cbn [loose_spaces] in H. rewrite Hc in H.
    apply andb_true_iff in H as [[Hsp Hnext]%andb_true_iff _]. rewrite Hsp.
    destruct (trimEnd_head s) as [He|Hh]; [congruence|].
    rewrite Hr in Hh. cbn [starts_with_space] in Hh. rewrite Hh.
    destruct s as [|e s]; [done|]. by cbn.
Qed.

Lemma trim_collapse_tidy (s : string) : tidy (trim (collapse_spaces s)) = true.
Proof.
  rewrite trim_trimEnd.
  destruct (trimStart_loose (collapse_spaces s) (collapse_spaces_loose s)) as [Hl Hh].
  unfold tidy. rewrite (trimEnd_single _ Hl), andb_true_r.
  destruct (trimEnd_head (trimStart (collapse_spaces s))) as [->|Hs]; [done|].
  rewrite Hh in Hs. destruct (trimEnd (trimStart (collapse_spaces s))); [done|].
  cbn in Hs. by rewrite Hs.
Qed.

(** X20: The texts of a record are tidy: a title, a description and an address
    hold no line break and no tab, no white space at either end, and never
    two spaces in a row. *)
Theorem clean_text_tidy (str : option string) :
  tidy (cleanString str) = true /\ tidy (cleanAddress str) = true.
Proof.
  unfold cleanString, cleanAddress. destruct str as [s|]; [|done].
  destruct (negb (truthy s)); [done|]. split; apply trim_collapse_tidy.
Qed.

Example clean_text_tidy_example :
  cleanString (Some "  Team\n  meeting \t(weekly)\, room 4  ") = "Team meeting (weekly), room 4"
  /\ cleanAddress (Some "Main St 1\nTallinn\, \nEstonia") = "Main St 1, Tallinn, Estonia".
Proof. split; reflexivity. Qed.

(** *** The length of a cleaned text *)

Lemma replace1_char_length (a r : ascii) (s : string) :
  String.length (replace1 a (String r EmptyString) s) = String.length s.
Proof.
  induction s as [|c s IH]; [done|]. cbn [replace1].
  destruct (Ascii.eqb c a); rewrite ?append_cons, ?append_nil; cbn; by rewrite IH.
Qed.

Lemma collapse_spaces_length (s : string) :
  (String.length (collapse_spaces s) <= String.length s)%nat.
Proof.
  induction s as [|c s IH]; [done|]. cbn [collapse_spaces].
  destruct (is_space c).
  - destruct s as [|d s]; [done|]. destruct (is_space d); cbn [String.length] in *; lia.
  - cbn [String.length]. lia.
Qed.

Lemma trimStart_length (s : string) :
  (String.length (trimStart s) <= String.length s)%nat.
Proof.
  induction s as [|c s IH]; [done|]. cbn [trimStart].
  destruct (is_space c); cbn [String.length]; lia.
Qed.

Lemma trim_length (s : string) : (String.length (trim s) <= String.length s)%nat.
Proof.
  unfold trim. rewrite rev_length.
  pose proof (trimStart_length (rev (trimStart s))) as H1.
  pose proof (trimStart_length s) as H2. rewrite rev_length in H1. lia.
Qed.

Lemma unescapeICS_length (s : string) :
  (String.length (unescapeICS s) <= String.length s)%nat.
Proof.
  destruct s as [|c s]; [done|]. rewrite unescapeICS_nonempty.
  repeat match goal with
  | |- context [replace2 ?a ?b ?r ?x] =>
      lazymatch goal with
      | _ : (String.length (replace2 a b r x) <= String.length x)%nat |- _ => fail
      | _ => pose proof (replace2_length_le a b r x)
      end
  | H : context [replace2 ?a ?b ?r ?x] |- _ =>
      lazymatch goal with
      | _ : (String.length (replace2 a b r x) <= String.length x)%nat |- _ => fail
      | _ => pose proof (replace2_length_le a b r x)
      end
  end.
  lia.
Qed.

(** X21: Unescaping never makes a text longer, and neither does the cleaning of
    a title or a description, which only replaces line breaks by spaces and
    removes white space. *)
Theorem clean_text_no_longer (s : string) :
  (String.length (unescapeICS s) <= String.length s)%nat
  /\ (String.length (cleanString (Some s)) <= String.length s)%nat.
Proof.
  split; [apply unescapeICS_length|]. unfold cleanString.
  destruct (negb (truthy s)); [cbn; lia|].
  pose proof (trim_length (collapse_spaces
                (replace1 CR " " (replace1 LF " " (unescapeICS s))))) as H1.
  pose proof (collapse_spaces_length
                (replace1 CR " " (replace1 LF " " (unescapeICS s)))) as H2.
  pose proof (replace1_char_length CR " " (replace1 LF " " (unescapeICS s))) as H3.
  pose proof (replace1_char_length LF " " (unescapeICS s)) as H4.
  pose proof (unescapeICS_length s). lia.
Qed.

(** *** Instants *)

Lemma parseISO_date_time (h : Host) (y1 y2 y3 y4 m1 m2 d1 d2 h1 h2 i1 i2 s1 s2 : ascii)
    (z : string) :
  is_digit y1 = true -> is_digit y2 = true -> is_digit y3 = true ->
  is_digit y4 = true -> is_digit m1 = true -> is_digit m2 = true ->
  is_digit d1 = true -> is_digit d2 = true -> is_digit h1 = true ->
  is_digit h2 = true -> is_digit i1 = true -> is_digit i2 = true ->
  is_digit s1 = true -> is_digit s2 = true ->
  z = EmptyString \/ z = "Z" ->
  parseISO h (String y1 (String y2 (String y3 (String y4 (String "-"
             (String m1 (String m2 (String "-" (String d1 (String d2 (String "T"
             (String h1 (String h2 (String ":" (String i1 (String i2 (String ":"
             (String s1 (String s2 z)))))))))))))))))))
  = (let lt := wallClock (digits4 y1 y2 y3 y4) (digits2 m1 m2) (digits2 d1 d2)
                 (digits2 h1 h2) (digits2 i1 i2) (digits2 s1 s2) in
     if legal_date (digits2 m1 m2) (digits2 d1 d2)
        && legal_time (digits2 h1 h2) (digits2 i1 i2) (digits2 s1 s2) 0
     then Some (TimeClip (if bool_decide (z = "Z") then lt - 0 else UTC h lt))
     else None).
Proof.
  intros ? ? ? ? ? ? ? ? ? ? ? ? ? ? Hz. unfold parseISO, read_date.
  rewrite read_year_digit by done.
  rewrite !read_digits_cons, read_digits_0 by done.
  cbn [mbind option_bind]. rewrite read_char_same.
  rewrite !read_digits_cons, read_digits_0 by done.
  cbn [mbind option_bind]. rewrite read_char_same.
  rewrite !read_digits_cons, read_digits_0 by done.
  cbn [mbind option_bind]. cbn [Ascii.eqb Bool.eqb]. unfold read_time.
  rewrite !read_digits_cons, read_digits_0 by done.
  cbn [mbind option_bind]. rewrite read_char_same. cbn [mbind option_bind].
  rewrite !read_digits_cons, read_digits_0 by done.
  cbn [mbind option_bind]. rewrite read_char_same.
  rewrite !read_digits_cons, read_digits_0 by done.
  cbn [mbind option_bind].
  unfold digits4, digits2, wallClock. cbv zeta.
  destruct Hz as [-> | ->].
  - rewrite bool_decide_eq_false_2 by discriminate.
    cbn [read_char read_zone mbind option_bind].
    generalize (legal_date (10 * (10 * 0 + digit_val m1) + digit_val m2)
                  (10 * (10 * 0 + digit_val d1) + digit_val d2)).
    generalize (legal_time (10 * (10 * 0 + digit_val h1) + digit_val h2)
                  (10 * (10 * 0 + digit_val i1) + digit_val i2)
                  (10 * (10 * 0 + digit_val s1) + digit_val s2) 0).
    by intros [] [].
  - rewrite bool_decide_eq_true_2 by reflexivity.
    change (read_char "." "Z") with (@None string).
    change (read_zone "Z") with (Some (Offset true 0)).
    cbn [mbind option_bind].
    generalize (legal_date (10 * (10 * 0 + digit_val m1) + digit_val m2)
                  (10 * (10 * 0 + digit_val d1) + digit_val d2)).
    generalize (legal_time (10 * (10 * 0 + digit_val h1) + digit_val h2)
                  (10 * (10 * 0 + digit_val i1) + digit_val i2)
                  (10 * (10 * 0 + digit_val s1) + digit_val s2) 0).
    by intros [] [].
Qed.

Lemma digits2_range (a b : ascii) :
  is_digit a = true -> is_digit b = true -> 0 <= digits2 a b <= 99.
Proof.
  intros Ha Hb. apply digit_val_range in Ha, Hb. unfold digits2. lia.
Qed.

Lemma wallClock_in_range (y m d hh mi ss x : Z) :
  0 <= y <= 9999 -> legal_date m d = true ->
  0 <= hh <= 99 -> 0 <= mi <= 99 -> 0 <= ss <= 99 ->
  Z.abs x <= 10 * msPerDay ->
  Z.abs (wallClock y m d hh mi ss - x) <= maxTime.
Proof.
  intros Hy Hl Hh Hmi Hs Hx. destruct (MakeDay_in_range y m d Hy Hl) as [_ Hhi].
  revert Hhi Hx. unfold wallClock, MakeDate, MakeTime, msPerDay, msPerHour, msPerMinute,
    msPerSecond, maxTime.
  assert (-1000000 <= MakeDay y (m - 1) d <= 4000000) as Hd.
  { unfold legal_date in Hl. unfold MakeDay.
    rewrite (Z.div_small (m - 1) 12), (Z.mod_small (m - 1) 12) by lia.
    pose proof (monthStart_range (isLeapYear (y + 0)) (m - 1)).
    unfold DayFromYear. Z.div_mod_to_equations. lia. }
  lia.
Qed.

Lemma clock_time_legal (hh mi ss : Z) :
  clock_time hh mi ss = true -> legal_time hh mi ss 0 = true.
Proof. unfold clock_time, legal_time. by intros ->. Qed.

(** Reads the fields of a compact datetime out of its fourteen digits. *)
Ltac read_fields Hd Ht :=
  unfold compactDateFields in Hd; unfold compactTimeFields in Ht;
  cbn [drop] in Ht;
  rewrite !read_digits_cons, read_digits_0 in Hd by done; cbn [mbind option_bind] in Hd;
  rewrite !read_digits_cons, read_digits_0 in Hd by done; cbn [mbind option_bind] in Hd;
  rewrite !read_digits_cons, read_digits_0 in Hd by done; cbn [mbind option_bind] in Hd;
  rewrite !read_digits_cons, read_digits_0 in Ht by done; cbn [mbind option_bind] in Ht;
  rewrite !read_digits_cons, read_digits_0 in Ht by done; cbn [mbind option_bind] in Ht;
  rewrite !read_digits_cons, read_digits_0 in Ht by done; cbn [mbind option_bind] in Ht.

Lemma compact_utc_reading (h : Host) (ds : string) (tz : option string)
    (y m d hh mi ss : Z) :
  Regex.matches Regex.compact_utc ds = true ->
  compactDateFields ds = Some (y, m, d) ->
  compactTimeFields ds = Some (hh, mi, ss) ->
  legal_date m d = true -> clock_time hh mi ss = true ->
  exists s, formatDateToISO h (Some ds) tz = Ret s
            /\ Regex.matches Regex.iso_instant s = true
            /\ parse h s = Some (wallClock y m d hh mi ss).
Proof.
  intros H Hd Ht Hl Hc. pose proof H as H0.
  destruct (formatDateToISO_utc h ds tz H) as (s & Hs & Hiso).
  exists s. split; [done|]. split; [done|].
  revert Hs. unfold formatDateToISO. rewrite H0.
  unfold Regex.compact_utc, Regex.d8, Regex.d6 in H. cbn [app] in H.
  split_matches H. cbn [truthy negb]. eval_strings. intros [= <-].
  read_fields Hd Ht. injection Hd as Hy Hm Hdd. injection Ht as Hhh Hmi Hss.
  unfold parse. rewrite parseISO_date_time by (done || by right).
  cbv zeta. rewrite bool_decide_eq_true_2 by done.
  fold (digits4 a a0 a1 a2) in Hy. fold (digits2 a3 a4) in Hm.
  fold (digits2 a5 a6) in Hdd. fold (digits2 a7 a8) in Hhh.
  fold (digits2 a9 a10) in Hmi. fold (digits2 a11 a12) in Hss.
  pose proof (digits4_range a a0 a1 a2 Hc0 Hc1 Hc2 Hc3) as Ry.
  pose proof (digits2_range a7 a8 Hc8 Hc9) as Rh.
  pose proof (digits2_range a9 a10 Hc10 Hc11) as Rmi.
  pose proof (digits2_range a11 a12 Hc12 Hc13) as Rs.
  subst y m d hh mi ss. rewrite Hl, (clock_time_legal _ _ _ Hc).
  cbn [andb]. rewrite Z.sub_0_r. apply TimeClip_in_range.
  rewrite <- (Z.sub_0_r (wallClock _ _ _ _ _ _)).
  by apply wallClock_in_range.
Qed.

(** X22: A compact UTC datetime whose fields are those of a date and of a time
    of day is rewritten in the instant form, and the text returned is read
    by [Date] as the instant the fields name. *)
Theorem compact_utc_instant (h : Host) (ds : string) (tz : option string)
    (y m d hh mi ss : Z) :
  Regex.matches Regex.compact_utc ds = true ->
  compactDateFields ds = Some (y, m, d) ->
  compactTimeFields ds = Some (hh, mi, ss) ->
  legal_date m d = true -> clock_time hh mi ss = true ->
  exists s, formatDateToISO h (Some ds) tz = Ret s
            /\ Regex.matches Regex.iso_instant s = true
            /\ parse h s = Some (wallClock y m d hh mi ss).
Proof. apply compact_utc_reading. Qed.

Lemma compact_utc_instant_witness :
  exists s, formatDateToISO utcHost (Some "20240229T235959Z") None = Ret s
            /\ Regex.matches Regex.iso_instant s = true
            /\ parse utcHost s = Some (wallClock 2024 2 29 23 59 59).
Proof.
  apply (compact_utc_instant utcHost "20240229T235959Z" None 2024 2 29 23 59 59);
    reflexivity.
Defined.

Lemma pad2_digits (v : Z) :
  exists a b, pad 2 v = String a (String b EmptyString)
              /\ is_digit a = true /\ is_digit b = true.
Proof.
  pose proof (pad_matches 2 v) as H. cbn [replicate] in H.
  destruct (pad 2 v) as [|a s]; [done|]. rewrite matches_cons in H.
  apply andb_true_iff in H as [Ha H]. destruct s as [|b s]; [done|].
  rewrite matches_cons in H. apply andb_true_iff in H as [Hb H].
  destruct s; [|done]. by exists a, b.
Qed.

Lemma gmtOffsetMs_range (positive' : bool) (hh mm : Z) :
  0 <= hh < 100 -> 0 <= mm < 100 ->
  Z.abs (gmtOffsetMs positive' hh mm) <= 5 * msPerDay.
Proof. unfold gmtOffsetMs, msPerDay. destruct positive'; lia. Qed.

Lemma compact_local_reading (h : Host) (c : Z) (ds : string) (y m d hh mi ss : Z)
    (positive' : bool) (zh zm : Z) :
  (forall (t : Z) (isUTC : bool), LocalTZA h t isUTC = c) ->
  Z.abs c <= msPerDay ->
  Regex.matches Regex.compact_local ds = true ->
  compactDateFields ds = Some (y, m, d) ->
  compactTimeFields ds = Some (hh, mi, ss) ->
  legal_date m d = true -> clock_time hh mi ss = true ->
  0 <= zh < 100 -> 0 <= zm < 100 ->
  formatDateToISO h (Some ds) (Some (gmtZone positive' zh zm))
  = Ret (instantText (wallClock y m d hh mi ss - c - gmtOffsetMs positive' zh zm))
  /\ exists s0, formatDateToISO h (Some ds) None = Ret s0
                /\ parse h s0 = Some (wallClock y m d hh mi ss - c).
Proof.
  intros Hfix Hcr H Hd Ht Hl Hc Hzh Hzm. pose proof H as H0.
  unfold formatDateToISO. rewrite H0.
  rewrite (matches_other_length _ Regex.compact_utc _ H0) by (cbn; lia).
  unfold Regex.compact_local, Regex.d8, Regex.d6 in H. cbn [app] in H.
  split_matches H. cbn [truthy negb]. eval_strings.
  read_fields Hd Ht. injection Hd as Hy Hm Hdd. injection Ht as Hhh Hmi Hss.
  fold (digits4 a a0 a1 a2) in Hy. fold (digits2 a3 a4) in Hm.
  fold (digits2 a5 a6) in Hdd. fold (digits2 a7 a8) in Hhh.
  fold (digits2 a9 a10) in Hmi. fold (digits2 a11 a12) in Hss.
  pose proof (digits4_range a a0 a1 a2 Hc0 Hc1 Hc2 Hc3) as Ry.
  pose proof (digits2_range a7 a8 Hc8 Hc9) as Rh.
  pose proof (digits2_range a9 a10 Hc10 Hc11) as Rmi.
  pose proof (digits2_range a11 a12 Hc12 Hc13) as Rs.
  assert (parse h (String a (String a0 (String a1 (String a2 (String "-"
            (String a3 (String a4 (String "-" (String a5 (String a6 (String "T"
            (String a7 (String a8 (String ":" (String a9 (String a10 (String ":"
            (String a11 (String a12 EmptyString)))))))))))))))))))
          = Some (wallClock y m d hh mi ss - c)) as Hparse.
  { unfold parse. rewrite parseISO_date_time by (done || by left).
    cbv zeta. rewrite bool_decide_eq_false_2 by done.
    subst y m d hh mi ss. rewrite Hl, (clock_time_legal _ _ _ Hc). cbn [andb].
    rewrite (UTC_fixed h c Hfix). apply TimeClip_in_range.
    apply wallClock_in_range; try done. unfold msPerDay in *. lia. }
  split; [|eexists; split; [reflexivity|exact Hparse]].
  assert (truthy (gmtZone positive' zh zm) = true) as -> by reflexivity.
  unfold convertZone. rewrite Hparse.
  destruct (pad2_digits zh) as (z1 & z2 & Ezh & Hz1 & Hz2).
  destruct (pad2_digits zm) as (z3 & z4 & Ezm & Hz3 & Hz4).
  assert (Regex.matches Regex.gmt_offset (gmtZone positive' zh zm) = true) as ->.
  { unfold gmtZone.
    change Regex.gmt_offset with
      ([Regex.C "G"; Regex.C "M"; Regex.C "T"] ++ [Regex.OneOf ["+"; "-"]%char]
       ++ replicate 2 Regex.D ++ replicate 2 Regex.D)%list.
    apply matches_app; [done|]. apply matches_app; [by destruct positive'|].
    apply matches_app; apply pad_matches. }
  assert (parseInt (substr 4 2 (gmtZone positive' zh zm)) = Some zh) as ->.
  { replace (substr 4 2 (gmtZone positive' zh zm)) with (pad 2 zh)
      by (unfold gmtZone; rewrite Ezh, Ezm; by destruct positive').
    apply parseInt_pad; [lia|cbn; lia]. }
  assert (parseInt (substr 6 2 (gmtZone positive' zh zm)) = Some zm) as ->.
  { replace (substr 6 2 (gmtZone positive' zh zm)) with (pad 2 zm)
      by (unfold gmtZone; rewrite Ezh, Ezm; by destruct positive').
    apply parseInt_pad; [lia|cbn; lia]. }
  assert (Ascii.eqb (default "000"%char (String.get 3 (gmtZone positive' zh zm))) "+"
          = positive') as -> by (by destruct positive').
  cbn [mbind option_bind getTime nsub ofNumber].
  pose proof (gmtOffsetMs_range positive' zh zm Hzh Hzm) as Hoff.
  assert (Z.abs (wallClock y m d hh mi ss - c - gmtOffsetMs positive' zh zm) <= maxTime)
    as Hrange.
  { replace (wallClock y m d hh mi ss - c - gmtOffsetMs positive' zh zm)
      with (wallClock y m d hh mi ss - (c + gmtOffsetMs positive' zh zm)) by lia.
    subst y m d hh mi ss. apply wallClock_in_range; try done.
    unfold msPerDay in *. lia. }
  replace (wallClock y m d hh mi ss - c
           - (if positive' then 1 else -1) * (zh * 60 + zm) * 60 * 1000)
    with (wallClock y m d hh mi ss - c - gmtOffsetMs positive' zh zm)
    by (unfold gmtOffsetMs; lia).
  rewrite (TimeClip_in_range _ Hrange), toISOString_strip.
  unfold try_catch, instantText. reflexivity.
Qed.

(** X23: The zone of a GMT offset, on a host with a fixed offset of its own:
    the compact local datetime is read in the local time of the host, the
    offset of the zone is then taken off, and the instant is printed.  The
    result is the wall-clock reading less the offset of the zone only when
    the host runs in UTC.  Without a zone the text returned has no [Z], and
    [Date] reads it in the local time of the host. *)
Theorem gmt_offset_instant (h : Host) (c : Z) (ds : string) (y m d hh mi ss : Z)
    (positive' : bool) (zh zm : Z) :
  (forall (t : Z) (isUTC : bool), LocalTZA h t isUTC = c) ->
  Z.abs c <= msPerDay ->
  Regex.matches Regex.compact_local ds = true ->
  compactDateFields ds = Some (y, m, d) ->
  compactTimeFields ds = Some (hh, mi, ss) ->
  legal_date m d = true -> clock_time hh mi ss = true ->
  0 <= zh < 100 -> 0 <= zm < 100 ->
  formatDateToISO h (Some ds) (Some (gmtZone positive' zh zm))
  = Ret (instantText (wallClock y m d hh mi ss - c - gmtOffsetMs positive' zh zm))
  /\ exists s0, formatDateToISO h (Some ds) None = Ret s0
                /\ parse h s0 = Some (wallClock y m d hh mi ss - c).
Proof. apply compact_local_reading. Qed.

(** 1 January 2024, 12:00 in the zone GMT+0200, on the UTC host. *)
Lemma gmt_offset_instant_witness :
  formatDateToISO utcHost (Some "20240101T120000") (Some "GMT+0200")
  = Ret "2024-01-01T10:00:00Z".
Proof.
  apply (proj1 (gmt_offset_instant utcHost 0 "20240101T120000" 2024 1 1 12 0 0 true 2 0
                  ltac:(done) ltac:(done) eq_refl eq_refl eq_refl eq_refl eq_refl
                  ltac:(lia) ltac:(lia))).
Defined.

(** *** Selecting twice *)

Lemma filter_all {A} (f : A -> bool) (l : list A) :
  Forall (fun x => f x = true) l -> List.filter f l = l.
Proof. induction 1 as [|x l Hx _ IH]; [done|]. cbn. by rewrite Hx, IH. Qed.

Lemma StronglySorted_firstn {A} (R : A -> A -> Prop) (n : nat) (l : list A) :
  StronglySorted R l -> StronglySorted R (List.firstn n l).
Proof.
  revert n. induction l as [|x l IH]; intros [|n] Hs; cbn [List.firstn];
    try constructor.
  - apply IH. by apply StronglySorted_inv in Hs as [Hs _].
  - apply StronglySorted_inv in Hs as [_ Hx]. by apply Forall_take.
Qed.

(** With valid starts the stable sort is fixed by what it has to return, a
    list in ascending order in which records of one start keep their order:
    a list that is in that order already is returned as it is. *)
Lemma stable_sort_of_sorted (h : Host) (l : list Occurrence) :
  StronglySorted (starts_le h) l ->
  Forall (fun o => is_Some (startInstant h o)) l ->
  stable_sort (compareStart h) l = l.
Proof.
  intros Hl Hvalid. apply (stable_order_unique h); [|done|].
  - apply not_after_StronglySorted.
    + eapply Permutation_Forall; [symmetry; apply stable_sort_perm|done].
    + apply stable_sort_sorted, compareStart_anti.
  - intros k. apply stable_sort_stable, compareStart_same_key.
Qed.

(** X24: Selecting from a selection changes nothing.  When the start of every
    record that passes the filter is a valid date, the Result Selector
    returns its own output as it is. *)
Theorem filterAndSortEvents_idempotent (h : Host) (now : Z) (events : list Occurrence) :
  Forall (fun o => is_Some (startInstant h o))
         (List.filter (endsAfter h (endOfYesterday h now)) events) ->
  filterAndSortEvents h now (filterAndSortEvents h now events)
  = filterAndSortEvents h now events.
Proof.
  intros Hvalid.
  set (kept := List.filter (endsAfter h (endOfYesterday h now)) events) in *.
  assert (filterAndSortEvents h now events
          = List.firstn 25 (stable_sort (compareStart h) kept)) as Hr.
  { unfold filterAndSortEvents. cbv zeta. fold kept. by rewrite arraySort_valid. }
  set (r := filterAndSortEvents h now events) in *.
  assert (List.filter (endsAfter h (endOfYesterday h now)) r = r) as Hfilter.
  { apply filter_all.
    eapply Forall_impl; [apply (filterAndSortEvents_Forall h now (fun _ => True))|].
    - by apply Forall_true.
    - by intros o [_ Ho]. }
  assert (Forall (fun o => is_Some (startInstant h o)) r) as Hvalid'.
  { rewrite Hr. apply Forall_take.
    eapply Permutation_Forall; [symmetry; apply stable_sort_perm|done]. }
  assert (StronglySorted (starts_le h) r) as Hsorted.
  { rewrite Hr. apply StronglySorted_firstn. apply not_after_StronglySorted.
    - eapply Permutation_Forall; [symmetry; apply stable_sort_perm|done].
    - apply stable_sort_sorted, compareStart_anti. }
  assert (length r <= 25)%nat as Hlen.
  { rewrite Hr. rewrite length_take. lia. }
  unfold filterAndSortEvents at 1. fold r. cbv zeta. rewrite Hfilter.
  rewrite (arraySort_valid h r Hvalid').
  rewrite (stable_sort_of_sorted h r Hsorted Hvalid'). by apply firstn_all2.
Qed.

(** The occurrences of [sampleCalendar], selected once and twice. *)
Lemma filterAndSortEvents_idempotent_witness :
  exists events,
    parseICS utcHost sampleNow 50 sampleCalendar = Ret events
    /\ length (filterAndSortEvents utcHost sampleNow events) = 8%nat
    /\ filterAndSortEvents utcHost sampleNow (filterAndSortEvents utcHost sampleNow events)
       = filterAndSortEvents utcHost sampleNow events.
Proof.
  eexists. split; [vm_compute; reflexivity|]. split; [vm_compute; reflexivity|].
  apply filterAndSortEvents_idempotent.
  apply (Forall_of_forallb
           (fun o => match startInstant utcHost o with
                     | Some _ => true
                     | None => false
                     end)).
  - intros o. destruct (startInstant utcHost o); [eauto|done].
  - vm_compute. reflexivity.
Defined.

(** *** When the Normalizer throws *)

Lemma try_catch_returns {A} (m : outcome A) (a : A) :
  m <> OutOfFuel -> exists b, try_catch m (Ret a) = Ret b.
Proof. destruct m as [b| |]; [by exists b|by exists a|done]. Qed.

(** X25: The Normalizer throws in one case only: a date-only value marked as an
    end boundary.  With any other zone, known to the host or not, it returns
    a text: a failed conversion is caught inside. *)
Theorem formatDateToISO_throws_only_on_end_mark (h : Host)
    (dateString timezone : option string) :
  (formatDateToISO h dateString timezone = Throws ->
   timezone = Some "FULL_DAY_END"
   /\ exists ds, dateString = Some ds /\ Regex.matches Regex.compact_date ds = true)
  /\ (timezone <> Some "FULL_DAY_END" ->
      exists s, formatDateToISO h dateString timezone = Ret s).
Proof.
  assert (formatDateToISO h dateString timezone = Throws ->
          timezone = Some "FULL_DAY_END"
          /\ exists ds, dateString = Some ds
                        /\ Regex.matches Regex.compact_date ds = true) as Hthrow.
  { unfold formatDateToISO. destruct dateString as [ds|]; [|done].
    destruct (negb (truthy ds)); [done|].
    destruct (Regex.matches Regex.compact_utc ds); [done|].
    destruct (Regex.matches Regex.compact_local ds).
    - destruct timezone as [tz|]; [|done]. destruct (truthy tz); [|done].
      destruct (try_catch_returns (convertZone h
        (substr 0 4 ds ++ "-" ++ substr 4 2 ds ++ "-" ++ substr 6 2 ds ++ "T"
         ++ substr 9 2 ds ++ ":" ++ substr 11 2 ds ++ ":" ++ substr 13 2 ds)%string tz)
        (substr 0 4 ds ++ "-" ++ substr 4 2 ds ++ "-" ++ substr 6 2 ds ++ "T"
         ++ substr 9 2 ds ++ ":" ++ substr 11 2 ds ++ ":" ++ substr 13 2 ds)%string
        (convertZone_no_fuel h _ tz)) as [b ->].
      done.
    - destruct (Regex.matches Regex.compact_date ds) eqn:Hm; [|done].
      destruct (bool_decide (timezone = Some "FULL_DAY_END")) eqn:Htz; [|done].
      apply bool_decide_eq_true_1 in Htz. intros _. split; [done|]. by exists ds. }
  split; [exact Hthrow|]. intros Hne.
  pose proof (formatDateToISO_no_fuel h dateString timezone) as Hfuel.
  destruct (formatDateToISO h dateString timezone) as [s| |]; [by exists s| |done].
  by destruct (Hthrow eq_refl).
Qed.

(** *** The limits of a series *)

Section Emitted.
Context (h : Host) (now : Z) (eventData : BaseData) (freq' : string)
  (interval' : option Z) (byday' : option (list string))
  (durationMs : option Z) (untilDate : option Date) (maxOccurrences : Z)
  (exdates : list string) (exceptionMap : gmap string EventData).

Local Abbreviation loop :=
  (occurrencesLoop h now eventData freq' interval' byday' durationMs untilDate
     maxOccurrences exdates exceptionMap).

(** Every occurrence of the result was created at a cursor that had passed
    the test of the loop. *)
Lemma loop_emitted (I : Date -> Prop) (P : Occurrence -> Prop)
    (fuel : nat) (cur : Date) (cnt : Z) (events l : list Occurrence) :
  (forall c, I c -> I (advanceToNextDate h c freq' interval' byday')) ->
  (forall c k o, I c -> in_bounds now untilDate maxOccurrences c k = true ->
     createOccurrence h c eventData durationMs exdates exceptionMap = Ret (Some o) ->
     P o) ->
  I cur -> Forall P events ->
  loop fuel cur cnt events = Ret l -> Forall P l.
Proof.
  intros Hadv Hcreate. revert cur cnt events.
  induction fuel as [|fuel IH]; intros cur cnt events Hcur Hev; [done|].
  destruct (in_bounds now untilDate maxOccurrences cur cnt) eqn:Hb.
  - rewrite loop_guard by done.
    destruct (shouldIncludeDate h cur freq' byday'); cbn.
    + destruct (createOccurrence _ _ _ _ _ _) as [[o|]| |] eqn:Hc; cbn; try done.
      * apply IH; [by apply Hadv|]. apply Forall_app. split; [done|].
        constructor; [|done]. by apply (Hcreate cur cnt).
      * apply IH; [by apply Hadv|done].
    + apply IH; [by apply Hadv|done].
  - rewrite loop_stop by done. by intros [= <-].
Qed.
End Emitted.

Lemma occurrenceBounds_start (t : Z) (eventData : BaseData) (durationMs : option Z)
    (isAllDayEvent : bool) (eventStart : string) (eventEnd' : option string) :
  occurrenceBounds (Some t) eventData durationMs isAllDayEvent
    = Ret (eventStart, eventEnd') ->
  eventStart = slotStart isAllDayEvent t.
Proof.
  unfold occurrenceBounds, slotStart. destruct isAllDayEvent.
  - rewrite toISOString_date_part, bind_Ret.
    destruct (opt_truthy (bend eventData)); [|by intros [= <- _]].
    intros H. apply bind_Ret_inv in H as (e & _ & H). by injection H as <- _.
  - rewrite toISOString_strip, bind_Ret.
    destruct (positive durationMs); [|by intros [= <- _]].
    intros H. apply bind_Ret_inv in H as (e & _ & H). by injection H as <- _.
Qed.

(** When [createOccurrence] gets its two texts, they are those of the slot
    of the cursor. *)
Lemma occurrenceBounds_Ret (t : Z) (eventData : BaseData) (durationMs : option Z)
    (isAllDayEvent : bool) (eventStart : string) (eventEnd' : option string) :
  occurrenceBounds (Some t) eventData durationMs isAllDayEvent
    = Ret (eventStart, eventEnd') ->
  eventStart = slotStart isAllDayEvent t
  /\ eventEnd' = slotEnd eventData durationMs isAllDayEvent t.
Proof.
  unfold occurrenceBounds, slotStart, slotEnd, span. destruct isAllDayEvent.
  - rewrite toISOString_date_part, bind_Ret.
    destruct (opt_truthy (bend eventData)); [|by intros [= <- <-]].
    destruct durationMs as [d|]; cbn [positive default id].
    + destruct (0 <? d).
      * cbn [getTime nadd mbind option_bind setTime].
        destruct (TimeClip (t + d)) as [v|] eqn:Hv; [|done].
        unfold TimeClip in Hv. destruct (Z.abs (t + d) <=? maxTime); [|done].
        injection Hv as <-. rewrite toISOString_date_part, bind_Ret.
        by intros [= <- <-].
      * rewrite toISOString_date_part, bind_Ret, Z.add_0_r. by intros [= <- <-].
    + rewrite toISOString_date_part, bind_Ret, Z.add_0_r. by intros [= <- <-].
  - rewrite toISOString_strip, bind_Ret.
    destruct durationMs as [d|]; cbn [positive default id]; [|by intros [= <- <-]].
    destruct (0 <? d); [|by intros [= <- <-]].
    cbn [getTime nadd mbind option_bind ofNumber].
    destruct (TimeClip (t + d)) as [v|] eqn:Hv; [|done].
    unfold TimeClip in Hv. destruct (Z.abs (t + d) <=? maxTime); [|done].
    injection Hv as <-. rewrite toISOString_strip, bind_Ret.
    by intros [= <- <-].
Qed.

Lemma setupDateLimits_parts (h : Host) (start' : string) (rule : RRule) :
  setupDateLimits h start' (until rule) (count rule)
  = (parse h start', untilOf h rule,
     (setupDateLimits h start' (until rule) (count rule)).2).
Proof. reflexivity. Qed.

(** X26: Without exception instances, every occurrence of a series is the one
    of a cursor of the loop, the start of the series advanced a number of
    times: its start is that cursor to the second, or the day of that
    cursor for an all-day series, its other fields are those of the slot,
    and the cursor was on or before the horizon of two years from now and
    not after the UNTIL of the rule. *)
Theorem occurrences_within_limits (h : Host) (now : Z) (fuel : nat)
    (eventData : BaseData) (rruleParams : RRule) (exdates : list string)
    (l : list Occurrence) :
  generateOccurrences h now fuel eventData rruleParams exdates ∅ = Ret l ->
  Forall (fun o => exists (k : nat) (t : Z),
            cursorAfter h eventData rruleParams k = Some t
            /\ within_limits now (untilOf h rruleParams) t
            /\ o = slotOccurrence eventData
                     (calculateDuration h (bstart eventData) (bend eventData)) t
            /\ startInstant h o
               = Some (if Regex.matches Regex.iso_date (bstart eventData)
                       then MakeDate (Day t) 0 else t - msFromTime t)) l.
Proof.
  unfold generateOccurrences.
  destruct (freq rruleParams) as [f|] eqn:Hfreq; [|by intros [= <-]].
  destruct (negb (truthy f)); [by intros [= <-]|].
  rewrite setupDateLimits_parts. generalize (untilOf h rruleParams). intros untilDate.
  apply (loop_emitted _ _ _ _ _ _ _ _ _ _ _
           (fun c => (exists k, cursorAfter h eventData rruleParams k = c)
                     /\ forall t, c = Some t -> Z.abs t <= maxTime)).
  - intros c [[k Hk] _]. split; [|intros t; apply advanceToNextDate_in_range].
    exists (S k). unfold cursorAfter. rewrite Nat.iter_succ.
    fold (cursorAfter h eventData rruleParams k). by rewrite Hk, Hfreq.
  - intros [t|] n o [[k Hk] Hrange] Hb;
      [|by unfold in_bounds in Hb; cbn [date_le] in Hb; rewrite andb_false_r in Hb].
    specialize (Hrange t eq_refl).
    unfold createOccurrence. intros H.
    apply bind_Ret_inv in H as ([eventStart eventEnd'] & Hbounds & H).
    apply occurrenceBounds_Ret in Hbounds as [-> ->].
    destruct (isDateExcluded h _ exdates _); [done|]. rewrite lookup_empty in H.
    injection H as <-. exists k, t. split; [done|].
    split.
    { unfold in_bounds in Hb.
      apply andb_true_iff in Hb as [[_ Hh]%andb_true_iff Hu%negb_true_iff].
      split; [done|]. by destruct untilDate. }
    split; [reflexivity|].
    by apply (startInstant_slot h eventData).
  - split; [by exists O|]. intros t. apply parse_in_range.
  - constructor.
Qed.

(** A daily series from 5 January 2024, 09:00, until 8 January, 09:00: its
    four occurrences are those of the start advanced 0, 1, 2 and 3 times. *)
Lemma occurrences_within_limits_witness :
  exists l,
    generateOccurrences utcHost sampleNow 50 sampleTimed
      (parseRRule "FREQ=DAILY;UNTIL=20240108T090000Z") [] ∅ = Ret l
    /\ start <$> l = [Some "2024-01-05T09:00:00Z"; Some "2024-01-06T09:00:00Z";
                      Some "2024-01-07T09:00:00Z"; Some "2024-01-08T09:00:00Z"]
    /\ Forall (fun o => exists (k : nat) (t : Z),
                 cursorAfter utcHost sampleTimed
                   (parseRRule "FREQ=DAILY;UNTIL=20240108T090000Z") k = Some t
                 /\ within_limits sampleNow
                      (untilOf utcHost (parseRRule "FREQ=DAILY;UNTIL=20240108T090000Z")) t
                 /\ o = slotOccurrence sampleTimed
                          (calculateDuration utcHost (bstart sampleTimed)
                             (bend sampleTimed)) t
                 /\ startInstant utcHost o
                    = Some (if Regex.matches Regex.iso_date (bstart sampleTimed)
                            then MakeDate (Day t) 0 else t - msFromTime t)) l.
Proof.
  eexists. split; [vm_compute; reflexivity|]. split; [reflexivity|].
  apply (occurrences_within_limits utcHost sampleNow 50 sampleTimed
           (parseRRule "FREQ=DAILY;UNTIL=20240108T090000Z") []).
  vm_compute. reflexivity.
Defined.

Lemma formatDateToISO_date_text (h : Host) (u : string) :
  Regex.matches Regex.compact_date u = true ->
  formatDateToISO h (Some u) None
  = Ret (substr 0 4 u ++ "-" ++ substr 4 2 u ++ "-" ++ substr 6 2 u)%string.
Proof.
  intros H. unfold formatDateToISO. rewrite H.
  rewrite (matches_other_length _ Regex.compact_utc _ H) by (cbn; lia).
  rewrite (matches_other_length _ Regex.compact_local _ H) by (cbn; lia).
  by destruct u.
Qed.

(** X27: The UNTIL of a rule as the loop compares it.  Written as a date it is
    the UTC midnight that begins that day, so that a timed occurrence later
    on that day is past it; written as a UTC datetime it is that instant;
    written as a local datetime it is read in the local time of the host;
    written in any other way it is ignored. *)
Theorem until_instant (h : Host) (rule : RRule) (u : string) :
  until rule = Some u ->
  (forall y m d,
     Regex.matches Regex.compact_date u = true ->
     compactDateFields u = Some (y, m, d) -> legal_date m d = true ->
     untilOf h rule = Some (Some (dayStart y m d)))
  /\ (forall y m d hh mi ss,
        Regex.matches Regex.compact_utc u = true ->
        compactDateFields u = Some (y, m, d) ->
        compactTimeFields u = Some (hh, mi, ss) ->
        legal_date m d = true -> clock_time hh mi ss = true ->
        untilOf h rule = Some (Some (wallClock y m d hh mi ss)))
  /\ (forall c y m d hh mi ss,
        (forall (t : Z) (isUTC : bool), LocalTZA h t isUTC = c) ->
        Z.abs c <= msPerDay ->
        Regex.matches Regex.compact_local u = true ->
        compactDateFields u = Some (y, m, d) ->
        compactTimeFields u = Some (hh, mi, ss) ->
        legal_date m d = true -> clock_time hh mi ss = true ->
        untilOf h rule = Some (Some (wallClock y m d hh mi ss - c)))
  /\ (Regex.matches Regex.compact_date u = false ->
      Regex.matches Regex.compact_local u = false ->
      Regex.matches Regex.compact_utc u = false ->
      untilOf h rule = None).
Proof.
  intros Hu. unfold untilOf, setupDateLimits. cbn [fst snd]. rewrite Hu.
  split; [|split; [|split]].
  - intros y m d Hm Hf Hl. rewrite Hm.
    assert (truthy u = true) as -> by (by destruct u). cbn [negb].
    destruct (compact_date_parse h u y m d Hm Hf Hl) as (s0 & Hs0 & Hp & _).
    rewrite (formatDateToISO_date_text h u Hm) in Hs0. injection Hs0 as <-.
    by rewrite Hp.
  - intros y m d hh mi ss Hm Hd Ht Hl Hc.
    assert (truthy u = true) as -> by (by destruct u). cbn [negb].
    rewrite (matches_other_length _ Regex.compact_date _ Hm) by (cbn; lia).
    rewrite Hm, orb_true_r.
    destruct (compact_utc_reading h u None y m d hh mi ss Hm Hd Ht Hl Hc)
      as (s & -> & _ & ->).
    done.
  - intros c y m d hh mi ss Hfix Hc Hm Hd Ht Hl Hcl.
    assert (truthy u = true) as -> by (by destruct u). cbn [negb].
    rewrite (matches_other_length _ Regex.compact_date _ Hm) by (cbn; lia).
    rewrite Hm. cbn [orb].
    destruct (compact_local_reading h c u y m d hh mi ss true 0 0 Hfix Hc Hm Hd Ht Hl Hcl
                ltac:(lia) ltac:(lia)) as (_ & s0 & -> & ->).
    done.
  - intros H1 H2 H3. rewrite H1, H2, H3. by destruct (negb (truthy u)).
Qed.

(** UNTIL=20240108: midnight of 8 January 2024, so that of a series at 09:00
    the occurrence of 8 January is left out. *)
Lemma until_instant_witness :
  untilOf utcHost (parseRRule "FREQ=DAILY;UNTIL=20240108") = Some (Some 1704672000000)
  /\ exists l,
       generateOccurrences utcHost sampleNow 50 sampleTimed
         (parseRRule "FREQ=DAILY;UNTIL=20240108") [] ∅ = Ret l
       /\ (start <$> l) = [Some "2024-01-05T09:00:00Z"; Some "2024-01-06T09:00:00Z";
                          Some "2024-01-07T09:00:00Z"].
Proof.
  split.
  - apply (proj1 (until_instant utcHost (parseRRule "FREQ=DAILY;UNTIL=20240108")
                    "20240108" eq_refl) 2024 1 8); reflexivity.
  - eexists. split; vm_compute; reflexivity.
Defined.

(** *** EXDATE lines that list several dates *)

Lemma occurs_app (c : ascii) (s1 s2 : string) :
  occurs c (s1 ++ s2)%string = occurs c s1 || occurs c s2.
Proof.
  induction s1 as [|x s1 IH]; [done|].
  rewrite append_cons. cbn [occurs]. by rewrite IH, orb_assoc.
Qed.

Lemma occurs_before (c sep : ascii) (s : string) :
  occurs c s = false -> occurs c (before sep s) = false.
Proof.
  induction s as [|x s IH]; [done|]. cbn [before occurs].
  intros [Hx Hs]%orb_false_elim. destruct (Ascii.eqb x sep); [done|].
  cbn [occurs]. by rewrite Hx, IH.
Qed.

Lemma matches_no_comma (p : list Regex.item) (s : string) :
  Forall (fun i => Regex.item_ok i "," = false) p ->
  Regex.matches p s = true -> occurs "," s = false.
Proof.
  intros Hp. revert s. induction Hp as [|i p Hi Hp IH]; intros [|x s]; try done.
  cbn [Regex.matches occurs]. intros [Hx Hs]%andb_true_iff.
  rewrite (IH _ Hs), orb_false_r.
  destruct (Ascii.eqb_spec x ",") as [->|]; [congruence|done].
Qed.

(** The Normalizer returns a value with a comma as it is. *)
Lemma formatDateToISO_comma (h : Host) (v : string) (tz : option string) :
  occurs "," v = true -> formatDateToISO h (Some v) tz = Ret v.
Proof.
  intros Hv. apply formatDateToISO_other.
  - by destruct v.
  - destruct (Regex.matches Regex.compact_utc v) eqn:Hm; [|done].
    apply matches_no_comma in Hm; [congruence|].
    unfold Regex.compact_utc, Regex.d8, Regex.d6. cbn [app].
    repeat (apply List.Forall_cons; [reflexivity|]). apply List.Forall_nil.
  - destruct (Regex.matches Regex.compact_local v) eqn:Hm; [|done].
    apply matches_no_comma in Hm; [congruence|].
    unfold Regex.compact_local, Regex.d8, Regex.d6. cbn [app].
    repeat (apply List.Forall_cons; [reflexivity|]). apply List.Forall_nil.
  - destruct (Regex.matches Regex.compact_date v) eqn:Hm; [|done].
    apply matches_no_comma in Hm; [congruence|].
    unfold Regex.compact_date, Regex.d8.
    repeat (apply List.Forall_cons; [reflexivity|]). apply List.Forall_nil.
Qed.

Lemma exdates_kept (h : Host) (tz : option string) (l acc : list string) :
  Forall (fun v => date_list v = true) l ->
  foldM (fun exdates exdate =>
           exdateFormatted ← formatDateToISO h (Some exdate) tz;
           Ret (if truthy exdateFormatted
                then (exdates ++ [exdateFormatted])%list else exdates))
        l acc
  = Ret (acc ++ l)%list.
Proof.
  intros Hl. revert acc. induction Hl as [|v l Hv Hl IH]; intros acc.
  - cbn [foldM]. by rewrite app_nil_r.
  - cbn [foldM]. apply andb_true_iff in Hv as [Hc _].
    rewrite (formatDateToISO_comma _ _ _ Hc), bind_Ret.
    replace (truthy v) with true by (by destruct v).
    rewrite bind_Ret, IH. by rewrite <- app_assoc.
Qed.

Lemma isoDateString_dash (t : Z) : occurs "-" (isoDateString t) = true.
Proof.
  unfold isoDateString. rewrite occurs_app.
  apply orb_true_iff. right. reflexivity.
Qed.

(** No day of an all-day series equals a value without a dash. *)
Lemma date_list_excludes_nothing (h : Host) (t : Z) (exdates : list string) :
  Forall (fun v => date_list v = true) exdates ->
  isDateExcluded h (isoDateString t) exdates true = false.
Proof.
  intros Hl. unfold isDateExcluded.
  induction Hl as [|v l Hv Hl IH]; [done|]. cbn [existsb]. rewrite IH, orb_false_r.
  apply bool_decide_eq_false_2. intros Heq.
  apply andb_true_iff in Hv as [_ Hd%negb_true_iff].
  pose proof (occurs_before "-" "T" v Hd) as Hno.
  rewrite Heq, isoDateString_dash in Hno. done.
Qed.

Section Listed.
Context (h : Host) (now : Z) (eventData : BaseData) (freq' : string)
  (interval' : option Z) (byday' : option (list string))
  (durationMs : option Z) (untilDate : option Date) (maxOccurrences : Z)
  (exdates : list string) (exceptionMap : gmap string EventData).
Hypothesis all_day : Regex.matches Regex.iso_date (bstart eventData) = true.
Hypothesis listed : Forall (fun v => date_list v = true) exdates.

Lemma createOccurrence_listed (cur : Date) :
  createOccurrence h cur eventData durationMs exdates exceptionMap
  = createOccurrence h cur eventData durationMs [] exceptionMap.
Proof.
  unfold createOccurrence. rewrite all_day.
  destruct cur as [t|]; [|done].
  destruct (occurrenceBounds (Some t) eventData durationMs true)
    as [[eventStart eventEnd']| |] eqn:Hb; [|done..].
  rewrite !bind_Ret. cbv beta iota.
  apply occurrenceBounds_start in Hb. unfold slotStart in Hb. subst eventStart.
  by rewrite date_list_excludes_nothing.
Qed.

Lemma loop_listed (fuel : nat) (cur : Date) (cnt : Z) (events : list Occurrence) :
  occurrencesLoop h now eventData freq' interval' byday' durationMs untilDate
    maxOccurrences exdates exceptionMap fuel cur cnt events
  = occurrencesLoop h now eventData freq' interval' byday' durationMs untilDate
      maxOccurrences [] exceptionMap fuel cur cnt events.
Proof.
  revert cur cnt events. induction fuel as [|fuel IH]; intros cur cnt events; [done|].
  cbn [occurrencesLoop]. rewrite createOccurrence_listed.
  destruct ((cnt <? maxOccurrences) && date_le cur (horizon now)); [|done].
  destruct (match untilDate with Some u => date_gt cur u | None => false end); [done|].
  destruct (if shouldIncludeDate h cur freq' byday' then _ else _)
    as [[events' cnt']| |]; [|done..].
  rewrite !bind_Ret. apply IH.
Qed.
End Listed.

(** X28: An EXDATE line that lists several dates separated by commas is kept
    as one value and excludes nothing from an all-day series: the event
    recurs as if it had no EXDATE line at all. *)
Theorem exdate_list_excludes_nothing (h : Host) (now : Z) (fuel : nat)
    (e : RawEvent) (tz : gmap string string) (exceptions : list EventData)
    (dtstart : string) :
  props e !! "DTSTART" = Some dtstart ->
  Regex.matches Regex.compact_date dtstart = true ->
  tz !! "DTSTART" <> Some "FULL_DAY_END" ->
  Forall (fun v => date_list v = true) (default [] (lists e !! "EXDATE")) ->
  parseExceptionDates h e tz = Ret (default [] (lists e !! "EXDATE"))
  /\ generateRecurringEvents h now fuel e tz exceptions
     = generateRecurringEvents h now fuel (withoutExdates e) tz exceptions.
Proof.
  intros Hstart Hdate Htz Hl.
  assert (parseExceptionDates h e tz = Ret (default [] (lists e !! "EXDATE"))) as Hex.
  { unfold parseExceptionDates. by rewrite (exdates_kept _ _ _ _ Hl). }
  split; [exact Hex|].
  unfold generateRecurringEvents. cbn [withoutExdates props].
  destruct (props e !! "RRULE") as [rrule|]; [|done].
  destruct (negb (truthy rrule)); [done|].
  rewrite Hstart.
  destruct (formatDateToISO_date h dtstart (tz !! "DTSTART") Hdate Htz)
    as (start' & -> & Hiso).
  rewrite !bind_Ret.
  destruct (negb (truthy start')); [done|].
  change (eventEnd h (withoutExdates e) tz) with (eventEnd h e tz).
  destruct (eventEnd h e tz) as [end'| |]; [|done..].
  rewrite !bind_Ret. rewrite Hex, bind_Ret.
  assert (parseExceptionDates h (withoutExdates e) tz = Ret []) as ->.
  { unfold parseExceptionDates, withoutExdates. cbn [lists].
    by rewrite lookup_delete_eq. }
  rewrite bind_Ret.
  destruct (buildExceptionMap h exceptions tz) as [em| |]; [|done..].
  rewrite !bind_Ret.
  unfold generateOccurrences.
  destruct (freq (parseRRule rrule)) as [f|]; [|done].
  destruct (negb (truthy f)); [done|].
  destruct (setupDateLimits _ _ _ _) as [[cur u] mx].
  by apply loop_listed.
Qed.

Lemma exdate_list_excludes_nothing_witness :
  date_list "20240311,20240312" = true
  /\ generateRecurringEvents utcHost sampleNow 10 listedExdates ∅ []
     = generateRecurringEvents utcHost sampleNow 10 (withoutExdates listedExdates) ∅ []
  /\ exists l, generateRecurringEvents utcHost sampleNow 10 listedExdates ∅ [] = Ret l
       /\ start <$> l = [Some "2024-03-10"; Some "2024-03-11"; Some "2024-03-12"].
Proof.
  split; [reflexivity|]. split; [|eexists; split; vm_compute; reflexivity].
  apply (exdate_list_excludes_nothing utcHost sampleNow 10 listedExdates ∅ []
           "20240310"); [reflexivity|reflexivity|done|].
  vm_compute. apply List.Forall_cons; [reflexivity|apply List.Forall_nil].
Defined.

(** *** The order of main events and exception instances *)

Lemma grouper_properties (body : list string) (mains : list EventData)
    (exc : gmap string (list EventData)) (ev : RawEvent) (tz : gmap string string) :
  Forall (fun line => property_line line = true) body ->
  fold_left grouper_step body
    {| mainEvents := mains; recurrenceExceptions := exc;
       currentEvent := Some ev; currentTimezones := tz |}
  = let st := fold_left (fun st line => parseEventProperty line st.1 st.2) body (ev, tz) in
    {| mainEvents := mains; recurrenceExceptions := exc;
       currentEvent := Some st.1; currentTimezones := st.2 |}.
Proof.
  intros Hb. revert ev tz. induction Hb as [|line body Hl Hb IH]; intros ev tz; [done|].
  cbn [fold_left]. apply andb_true_iff in Hl as [Hbeg%negb_true_iff Hend%negb_true_iff].
  unfold grouper_step at 2. rewrite Hbeg, Hend.
  cbn [currentEvent currentTimezones mainEvents recurrenceExceptions].
  destruct (parseEventProperty line ev tz) as [ev' tz'] eqn:Hp.
  rewrite IH. cbn [fst snd]. by rewrite Hp.
Qed.

(** A whole block files its event, whatever was open before it. *)
Lemma grouper_block (body : list string) (st : GrouperState) :
  Forall (fun line => property_line line = true) body ->
  fold_left grouper_step (eventBlock body) st
  = grouper_step
      {| mainEvents := mainEvents st; recurrenceExceptions := recurrenceExceptions st;
         currentEvent := Some (event (blockEvent body));
         currentTimezones := timezones (blockEvent body) |}
      "END:VEVENT".
Proof.
  intros Hb. unfold eventBlock. cbn [fold_left].
  rewrite fold_left_app. cbn [fold_left].
  change (grouper_step st "BEGIN:VEVENT")
    with {| mainEvents := mainEvents st; recurrenceExceptions := recurrenceExceptions st;
            currentEvent := Some emptyEvent; currentTimezones := ∅ |}.
  by rewrite (grouper_properties _ _ _ _ _ Hb).
Qed.

(** What the closing line does with a main event and with an exception
    instance. *)
Lemma grouper_end_main (mains : list EventData) (exc : gmap string (list EventData))
    (ed : EventData) :
  has_prop (event ed) "RECURRENCE-ID" = false ->
  grouper_step
    {| mainEvents := mains; recurrenceExceptions := exc;
       currentEvent := Some (event ed); currentTimezones := timezones ed |}
    "END:VEVENT"
  = {| mainEvents := (mains ++ [ed])%list; recurrenceExceptions := exc;
       currentEvent := None; currentTimezones := ∅ |}.
Proof.
  intros Hno. unfold grouper_step.
  change (startsWith "BEGIN:VEVENT" "END:VEVENT") with false.
  change (startsWith "END:VEVENT" "END:VEVENT") with true.
  cbv iota. cbn [currentEvent currentTimezones mainEvents recurrenceExceptions].
  rewrite Hno. by destruct ed.
Qed.

Lemma grouper_end_exception (mains : list EventData)
    (exc : gmap string (list EventData)) (ed : EventData) :
  has_prop (event ed) "RECURRENCE-ID" = true ->
  grouper_step
    {| mainEvents := mains; recurrenceExceptions := exc;
       currentEvent := Some (event ed); currentTimezones := timezones ed |}
    "END:VEVENT"
  = {| mainEvents := mains;
       recurrenceExceptions :=
         (let uid := default EmptyString (props (event ed) !! "UID") in
          if truthy uid
          then <[uid := (default [] (exc !! uid) ++ [ed])%list]> exc
          else exc);
       currentEvent := None; currentTimezones := ∅ |}.
Proof.
  intros Hex. unfold grouper_step.
  change (startsWith "BEGIN:VEVENT" "END:VEVENT") with false.
  change (startsWith "END:VEVENT" "END:VEVENT") with true.
  cbv iota. cbn [currentEvent currentTimezones mainEvents recurrenceExceptions].
  rewrite Hex. by destruct ed.
Qed.

(** X29: An exception instance may stand before or after a main event: the two
    blocks in either order are grouped alike, and two calendars that differ
    in this order only give the same events. *)
Theorem exception_block_order (h : Host) (now : Z) (fuel : nat)
    (pre post exception main' : list string) :
  Forall (fun line => property_line line = true) exception ->
  Forall (fun line => property_line line = true) main' ->
  has_prop (event (blockEvent exception)) "RECURRENCE-ID" = true ->
  has_prop (event (blockEvent main')) "RECURRENCE-ID" = false ->
  parseEventsFromLines (pre ++ eventBlock exception ++ eventBlock main' ++ post)
  = parseEventsFromLines (pre ++ eventBlock main' ++ eventBlock exception ++ post)
  /\ forall icsData1 icsData2,
       unfoldICSLines icsData1
         = (pre ++ eventBlock exception ++ eventBlock main' ++ post)%list ->
       unfoldICSLines icsData2
         = (pre ++ eventBlock main' ++ eventBlock exception ++ post)%list ->
       parseICS h now fuel icsData1 = parseICS h now fuel icsData2.
Proof.
  intros Hb1 Hb2 Hex Hmain.
  assert (parseEventsFromLines (pre ++ eventBlock exception ++ eventBlock main' ++ post)
          = parseEventsFromLines
              (pre ++ eventBlock main' ++ eventBlock exception ++ post)) as Hsame.
  { unfold parseEventsFromLines.
    rewrite !fold_left_app.
    rewrite !(grouper_block _ _ Hb1), !(grouper_block _ _ Hb2).
    set (st := fold_left grouper_step pre _).
    rewrite (grouper_end_exception _ _ _ Hex), (grouper_end_main _ _ _ Hmain).
    cbn [mainEvents recurrenceExceptions].
    by rewrite (grouper_end_exception _ _ _ Hex), (grouper_end_main _ _ _ Hmain). }
  split; [exact Hsame|].
  intros icsData1 icsData2 H1 H2. unfold parseICS. by rewrite H1, H2, Hsame.
Qed.

Lemma exception_block_order_witness :
  parseICS utcHost sampleNow 10 exceptionFirst = parseICS utcHost sampleNow 10 mainFirst
  /\ exists l, parseICS utcHost sampleNow 10 exceptionFirst = Ret l
       /\ start <$> l = [Some "2024-03-10"; Some "2024-03-11"; Some "2024-03-12T18:00:00Z"].
Proof.
  split; [|eexists; split; vm_compute; reflexivity].
  apply (exception_block_order utcHost sampleNow 10 [] []
           ["UID:a3"; "RECURRENCE-ID:20240312"; "DTSTART:20240312T180000Z";
            "SUMMARY:Changed"]
           ["UID:a3"; "DTSTART:20240310"; "RRULE:FREQ=DAILY;COUNT=3"; "SUMMARY:Daily"]);
    [forall_eval|forall_eval|vm_compute; reflexivity..].
Defined.
